(** * Helm chart visualizer

    A shallow embedding of the chart pipeline of the repository:
    reference extraction and chart assembly ([parser/template-parser.ts]),
    YAML post-processing ([parser/yaml-parser.ts]), graph construction and
    layout ([graph/graph-builder.ts]) and the drop validation of
    [components/DropZone.tsx].

    Conventions of the embedding.
    - A JavaScript string is a [string]: a sequence of code units below 256
      (the Latin-1 range of UTF-16). Case mapping and the [\s] class are
      written out for that range.
    - A JavaScript number is a binary64 [float]; counts, indices and line
      numbers, which the code only ever uses as small integers, are [nat]
      (differences of counts are taken in [Z]).
    - A [Map] that is only read with [get] and written with [set] is a
      [gmap]; a [Map] or [Set] whose insertion order is observed is a list.
    - An exception is an explicit [Throw] result.
    - What the code takes from its host (the [js-yaml] loader, the
      formatting of a number as text, locale-aware comparison) is an
      operation of the class [Host]. *)

From Stdlib Require Import String Ascii List ZArith NArith Lia Bool.
From Stdlib Require Import PrimFloat Uint63 DecimalString.
From stdpp Require Import gmap strings list.

Local Open Scope stdpp_scope.
Set Warnings "-register-all".

(* ===================================================================== *)
(** * Part I. The model                                                    *)
(* ===================================================================== *)

(** ** Characters and strings *)

Definition code (c : ascii) : N := N_of_ascii c.

Definition inRange (lo hi : N) (c : ascii) : bool :=
  ((lo <=? code c) && (code c <=? hi))%N.

Definition dquote : ascii := "034"%char.
Definition newline : ascii := "010"%char.

(** [[a-zA-Z]] *)
Definition isLetter (c : ascii) : bool := inRange 65 90 c || inRange 97 122 c.
(** [[0-9]] *)
Definition isDigit (c : ascii) : bool := inRange 48 57 c.
(** [[a-zA-Z_]] *)
Definition isIdentStart (c : ascii) : bool := isLetter c || Ascii.eqb c "_".
(** [[a-zA-Z0-9_]] *)
Definition isIdentChar (c : ascii) : bool :=
  isLetter c || isDigit c || Ascii.eqb c "_".
(** [\s], also the characters removed by [trim]: TAB, LF, VT, FF, CR, SP, NBSP. *)
Definition isSpace (c : ascii) : bool :=
  inRange 9 13 c || inRange 32 32 c || inRange 160 160 c.
(** [[^\]]] *)
Definition notRBracket (c : ascii) : bool := negb (Ascii.eqb c "]").
(** [[^\x22]] *)
Definition notDQuote (c : ascii) : bool := negb (Ascii.eqb c dquote).

Definition toLowerChar (c : ascii) : ascii :=
  if inRange 65 90 c || inRange 192 214 c || inRange 216 222 c
  then ascii_of_N (code c + 32)
  else c.

Fixpoint toLowerCase (s : string) : string :=
  match s with
  | EmptyString => EmptyString
  | String c s' => String (toLowerChar c) (toLowerCase s')
  end.

Definition isEmpty (s : string) : bool :=
  match s with EmptyString => true | _ => false end.

(** [stripPrefix p s] is [Some r] when [s = p ++ r]. *)
Fixpoint stripPrefix (p s : string) : option string :=
  match p with
  | EmptyString => Some s
  | String a p' =>
      match s with
      | String b s' => if Ascii.eqb a b then stripPrefix p' s' else None
      | EmptyString => None
      end
  end.

Definition startsWith (s p : string) : bool :=
  match stripPrefix p s with Some _ => true | None => false end.

Fixpoint dropString (n : nat) (s : string) : string :=
  match n, s with
  | S n', String _ s' => dropString n' s'
  | _, _ => s
  end.

Fixpoint takeString (n : nat) (s : string) : string :=
  match n, s with
  | S n', String c s' => String c (takeString n' s')
  | _, _ => EmptyString
  end.

Definition endsWith (s suffix : string) : bool :=
  (String.length suffix <=? String.length s)
  && String.eqb (dropString (String.length s - String.length suffix) s) suffix.

Fixpoint includes (s sub : string) : bool :=
  startsWith s sub
  || match s with
     | EmptyString => false
     | String _ s' => includes s' sub
     end.

(** [s.split(sep)] for a one-character separator. *)
Fixpoint split (sep : ascii) (s : string) : list string :=
  match s with
  | EmptyString => [EmptyString]
  | String c s' =>
      if Ascii.eqb c sep then EmptyString :: split sep s'
      else match split sep s' with
           | h :: t => String c h :: t
           | [] => [String c EmptyString]
           end
  end.

(** [parts.join(sep)] *)
Fixpoint join (sep : string) (parts : list string) : string :=
  match parts with
  | [] => EmptyString
  | [p] => p
  | p :: ps => p +:+ sep +:+ join sep ps
  end.

(** The longest prefix whose characters satisfy [p], and what follows it:
    a greedy [[class]*]. *)
Fixpoint span (p : ascii -> bool) (s : string) : string * string :=
  match s with
  | EmptyString => (EmptyString, EmptyString)
  | String c s' =>
      if p c then let (a, b) := span p s' in (String c a, b)
      else (EmptyString, s)
  end.

Definition skipSpaces (s : string) : string := snd (span isSpace s).

Fixpoint trimEnd (s : string) : string :=
  match s with
  | EmptyString => EmptyString
  | String c s' =>
      let t := trimEnd s' in
      if isSpace c && isEmpty t then EmptyString else String c t
  end.

Definition trim (s : string) : string := trimEnd (skipSpaces s).

Fixpoint countChar (c : ascii) (s : string) : nat :=
  match s with
  | EmptyString => 0
  | String d s' => (if Ascii.eqb c d then 1 else 0) + countChar c s'
  end.

(** The decimal text of a count, index or line number, as a template
    literal prints it. *)
Definition natToString (n : nat) : string :=
  NilZero.string_of_uint (Nat.to_uint n).

(** ** Regular expressions with the [g] flag

    A pattern is the anchored match of one regular expression at the start
    of a suffix of the subject. Every expression of the code is
    deterministic (each greedy class is followed by a character outside
    it), so the first backtracking path is the only one. *)

Record MatchAt := {
  matched : string;          (* match[0] *)
  group1 : string;           (* match[1] *)
  group2 : option string;    (* match[2], undefined when the group took no part *)
}.

Definition Pattern := string -> option MatchAt.

(** The loop [while ((match = regex.exec(s)) !== null)]: the leftmost match
    at or after [lastIndex], then on from the end of that match. [skip]
    counts the characters still covered by the previous match and [index]
    is the position of the suffix in the subject. *)
Fixpoint execAll (re : Pattern) (skip index : nat) (s : string)
  : list (nat * MatchAt) :=
  match s with
  | EmptyString => []
  | String _ s' =>
      match skip with
      | S k => execAll re k (S index) s'
      | O =>
          match re s with
          | Some m =>
              (index, m)
                :: execAll re (Nat.pred (String.length (matched m))) (S index) s'
          | None => execAll re 0 (S index) s'
          end
      end
  end.

Definition matchAll (re : Pattern) (s : string) : list MatchAt :=
  map snd (execAll re 0 0 s).

(** What a match consumed, given the subject and what is left of it. *)
Definition consumed (s rest : string) : string :=
  takeString (String.length s - String.length rest) s.

(** [(?:\.[a-zA-Z_][a-zA-Z0-9_]*|\[[^\]]+\])] *)
Definition valuesSegment (s : string) : option (string * string) :=
  match s with
  | String "." (String c s') =>
      if isIdentStart c then
        let (ident, rest) := span isIdentChar s' in
        Some (String "." (String c ident), rest)
      else None
  | String "[" s' =>
      let (inner, rest) := span notRBracket s' in
      match inner, rest with
      | String _ _, String "]" rest' =>
          Some (String "[" (inner +:+ "]"), rest')
      | _, _ => None
      end
  | _ => None
  end.

(** [(?:\.[a-zA-Z]+)] *)
Definition letterSegment (s : string) : option (string * string) :=
  match s with
  | String "." s' =>
      let (word, rest) := span isLetter s' in
      if isEmpty word then None else Some (String "." word, rest)
  | _ => None
  end.

(** A greedy [(?:seg)*]; each round consumes at least one character, and
    the callers give the length of the subject as [fuel]. *)
Fixpoint segments (seg : string -> option (string * string))
    (fuel : nat) (s : string) : string * string :=
  match fuel with
  | O => (EmptyString, s)
  | S fuel' =>
      match seg s with
      | Some (one, rest) =>
          let (chain, rest') := segments seg fuel' rest in
          (one +:+ chain, rest')
      | None => (EmptyString, s)
      end
  end.

(** [/\.Values((?:\.[a-zA-Z_][a-zA-Z0-9_]*|\[[^\]]+\])+)/g] *)
Definition valuesRegex : Pattern := fun s =>
  match stripPrefix ".Values" s with
  | Some s1 =>
      let (chain, _) := segments valuesSegment (String.length s1) s1 in
      if isEmpty chain then None
      else Some {| matched := ".Values" +:+ chain;
                   group1 := chain; group2 := None |}
  | None => None
  end.

(** [/\{\{\s*(?:-\s{0,})?KEYWORD\s+\x22([^\x22]+)\x22/g], for [include] and [template]. *)
Definition callRegex (keyword : string) : Pattern := fun s =>
  match stripPrefix "{{" s with
  | Some s1 =>
      let s2 := skipSpaces s1 in
      let s3 := match s2 with
                | String "-" t => skipSpaces t
                | _ => s2
                end in
      match stripPrefix keyword s3 with
      | Some s4 =>
          let (ws, s5) := span isSpace s4 in
          if isEmpty ws then None
          else match s5 with
               | String q s6 =>
                   if Ascii.eqb q dquote then
                     let (name, s7) := span notDQuote s6 in
                     match name, s7 with
                     | String _ _, String _ s8 =>
                         Some {| matched := consumed s s8;
                                 group1 := name; group2 := None |}
                     | _, _ => None
                     end
                   else None
               | EmptyString => None
               end
      | None => None
      end
  | None => None
  end.

Definition includeRegex : Pattern := callRegex "include".
Definition templateRegex : Pattern := callRegex "template".

(** [/\.Chart\.([a-zA-Z]+)/g] and [/\.Release\.([a-zA-Z]+)/g] *)
Definition propertyRegex (root : string) : Pattern := fun s =>
  match stripPrefix root s with
  | Some s1 =>
      let (prop, _) := span isLetter s1 in
      if isEmpty prop then None
      else Some {| matched := root +:+ prop; group1 := prop; group2 := None |}
  | None => None
  end.

Definition chartRegex : Pattern := propertyRegex ".Chart.".
Definition releaseRegex : Pattern := propertyRegex ".Release.".

(** [/\.Files\.([a-zA-Z]+)\s*(?:\x22([^\x22]+)\x22)?/g] *)
Definition filesRegex : Pattern := fun s =>
  match stripPrefix ".Files." s with
  | Some s1 =>
      let (method, s2) := span isLetter s1 in
      if isEmpty method then None
      else
        let s3 := skipSpaces s2 in
        let quoted :=
          match s3 with
          | String q s4 =>
              if Ascii.eqb q dquote then
                let (arg, s5) := span notDQuote s4 in
                match arg, s5 with
                | String _ _, String _ s6 => Some (arg, s6)
                | _, _ => None
                end
              else None
          | EmptyString => None
          end in
        match quoted with
        | Some (arg, rest) =>
            Some {| matched := consumed s rest;
                    group1 := method; group2 := Some arg |}
        | None =>
            Some {| matched := consumed s s3;
                    group1 := method; group2 := None |}
        end
  | None => None
  end.

(** [/\.Capabilities((?:\.[a-zA-Z]+)+)/g] *)
Definition capabilitiesRegex : Pattern := fun s =>
  match stripPrefix ".Capabilities" s with
  | Some s1 =>
      let (chain, _) := segments letterSegment (String.length s1) s1 in
      if isEmpty chain then None
      else Some {| matched := ".Capabilities" +:+ chain;
                   group1 := chain; group2 := None |}
  | None => None
  end.

Definition optDash (s : string) : string :=
  match s with
  | String "-" t => t
  | _ => s
  end.

(** [\{\{-?\s*define\s+\x22([^\x22]+)\x22\s*-?\}\}]: the name and what follows. *)
Definition defineOpen (s : string) : option (string * string) :=
  match stripPrefix "{{" s with
  | Some s1 =>
      match stripPrefix "define" (skipSpaces (optDash s1)) with
      | Some s2 =>
          let (ws, s3) := span isSpace s2 in
          if isEmpty ws then None
          else match s3 with
               | String q s4 =>
                   if Ascii.eqb q dquote then
                     let (name, s5) := span notDQuote s4 in
                     match name, s5 with
                     | String _ _, String _ s6 =>
                         match stripPrefix "}}" (optDash (skipSpaces s6)) with
                         | Some s7 => Some (name, s7)
                         | None => None
                         end
                     | _, _ => None
                     end
                   else None
               | EmptyString => None
               end
      | None => None
      end
  | None => None
  end.

(** [\{\{-?\s*end\s*-?\}\}]: what follows. *)
Definition defineClose (s : string) : option string :=
  match stripPrefix "{{" s with
  | Some s1 =>
      match stripPrefix "end" (skipSpaces (optDash s1)) with
      | Some s2 => stripPrefix "}}" (optDash (skipSpaces s2))
      | None => None
      end
  | None => None
  end.

(** [([\s\S]*?)] followed by the closing marker: the shortest body. *)
Fixpoint lazyBody (s : string) : option (string * string) :=
  match defineClose s with
  | Some rest => Some (EmptyString, rest)
  | None =>
      match s with
      | EmptyString => None
      | String c s' =>
          match lazyBody s' with
          | Some (body, rest) => Some (String c body, rest)
          | None => None
          end
      end
  end.

(** [/\{\{-?\s*define\s+\x22([^\x22]+)\x22\s*-?\}\}([\s\S]*?)\{\{-?\s*end\s*-?\}\}/g] *)
Definition defineRegex : Pattern := fun s =>
  match defineOpen s with
  | Some (name, s1) =>
      match lazyBody s1 with
      | Some (body, rest) =>
          Some {| matched := consumed s rest;
                  group1 := name; group2 := Some body |}
      | None => None
      end
  | None => None
  end.

(** ** Data model ([types]) *)

Inductive FileType :=
  | FT_chart | FT_values | FT_template | FT_helper | FT_notes | FT_other.

Inductive ReferenceType :=
  | RT_values | RT_include | RT_template | RT_chart | RT_release
  | RT_files | RT_capabilities.

Inductive TargetType :=
  | TT_value | TT_helper | TT_chart | TT_release | TT_file | TT_capability.

Global Instance FileType_eq_dec : EqDecision FileType.
Proof. solve_decision. Defined.
Global Instance ReferenceType_eq_dec : EqDecision ReferenceType.
Proof. solve_decision. Defined.

Record ReferenceSource := {
  src_file : string;
  src_line : option nat;
}.

Record ReferenceTarget := {
  tgt_type : TargetType;
  tgt_path : string;
}.

Record Reference := {
  ref_id : string;
  ref_type : ReferenceType;
  ref_source : ReferenceSource;
  ref_target : ReferenceTarget;
  ref_expression : string;
  ref_line : option nat;
}.

Record HelperDefinition := {
  helper_name : string;
  helper_file : string;
  helper_line : option nat;
  helper_content : string;
}.

Record HelmFile := {
  file_path : string;
  file_name : string;
  file_type : FileType;
  file_content : string;
}.

Record ChartDependency := {
  dep_name : string;
  dep_version : string;
  dep_repository : option string;
  dep_condition : option string;
  dep_alias : option string;
}.

Record ChartYaml := {
  cy_name : string;
  cy_version : string;
  cy_apiVersion : string;
  cy_description : option string;
  cy_type : option string;
  cy_appVersion : option string;
  cy_dependencies : option (list ChartDependency);
}.

(** ** Reference extraction ([template-parser.ts]) *)

Definition referenceTypeName (t : ReferenceType) : string :=
  match t with
  | RT_values => "values"
  | RT_include => "include"
  | RT_template => "template"
  | RT_chart => "chart"
  | RT_release => "release"
  | RT_files => "files"
  | RT_capabilities => "capabilities"
  end.

(** The template literal [`${filePath}:${lineNum}:TYPE:${key}`]. *)
Definition referenceId (filePath : string) (lineNum : nat)
    (t : ReferenceType) (key : string) : string :=
  filePath +:+ ":" +:+ natToString lineNum +:+ ":"
    +:+ referenceTypeName t +:+ ":" +:+ key.

Definition mkReference (filePath : string) (lineNum : nat)
    (t : ReferenceType) (key : string) (tt : TargetType) (path : string)
    (expression : string) : Reference :=
  {| ref_id := referenceId filePath lineNum t key;
     ref_type := t;
     ref_source := {| src_file := filePath; src_line := Some lineNum |};
     ref_target := {| tgt_type := tt; tgt_path := path |};
     ref_expression := expression;
     ref_line := Some lineNum |}.

(** [s.replace(/^\./, '')] *)
Definition stripLeadingDot (s : string) : string :=
  match s with
  | String "." s' => s'
  | _ => s
  end.

Definition extractValuesReferences (line filePath : string) (lineNum : nat)
  : list Reference :=
  map (fun m =>
         let fullPath := matched m in
         let path := stripLeadingDot (group1 m) in
         mkReference filePath lineNum RT_values path TT_value path fullPath)
      (matchAll valuesRegex line).

Definition extractIncludeReferences (line filePath : string) (lineNum : nat)
  : list Reference :=
  map (fun m =>
         let helperName := group1 m in
         mkReference filePath lineNum RT_include helperName
                     TT_helper helperName (matched m))
      (matchAll includeRegex line)
  ++
  map (fun m =>
         let helperName := group1 m in
         mkReference filePath lineNum RT_template helperName
                     TT_helper helperName (matched m))
      (matchAll templateRegex line).

Definition extractChartReferences (line filePath : string) (lineNum : nat)
  : list Reference :=
  map (fun m =>
         let property := group1 m in
         mkReference filePath lineNum RT_chart property
                     TT_chart property (matched m))
      (matchAll chartRegex line).

Definition extractReleaseReferences (line filePath : string) (lineNum : nat)
  : list Reference :=
  map (fun m =>
         let property := group1 m in
         mkReference filePath lineNum RT_release property
                     TT_release property (matched m))
      (matchAll releaseRegex line).

Definition extractFilesReferences (line filePath : string) (lineNum : nat)
  : list Reference :=
  map (fun m =>
         let method := group1 m in
         let arg := default EmptyString (group2 m) in
         mkReference filePath lineNum RT_files (method +:+ ":" +:+ arg)
                     TT_file (if isEmpty arg then method else arg) (matched m))
      (matchAll filesRegex line).

Definition extractCapabilitiesReferences (line filePath : string)
    (lineNum : nat) : list Reference :=
  map (fun m =>
         let path := stripLeadingDot (group1 m) in
         mkReference filePath lineNum RT_capabilities path
                     TT_capability path (matched m))
      (matchAll capabilitiesRegex line).

(** The body of [lines.forEach((line, lineIndex) => ...)]. *)
Definition extractLineReferences (filePath : string) (lineIndex : nat)
    (line : string) : list Reference :=
  let lineNum := lineIndex + 1 in
  extractValuesReferences line filePath lineNum
  ++ extractIncludeReferences line filePath lineNum
  ++ extractChartReferences line filePath lineNum
  ++ extractReleaseReferences line filePath lineNum
  ++ extractFilesReferences line filePath lineNum
  ++ extractCapabilitiesReferences line filePath lineNum.

Fixpoint forEachLine (filePath : string) (lineIndex : nat)
    (lines : list string) : list Reference :=
  match lines with
  | [] => []
  | line :: rest =>
      extractLineReferences filePath lineIndex line
      ++ forEachLine filePath (S lineIndex) rest
  end.

Definition extractReferences (content filePath : string) : list Reference :=
  forEachLine filePath 0 (split newline content).

Definition extractHelperDefinitions (content filePath : string)
  : list HelperDefinition :=
  map (fun im : nat * MatchAt =>
         let (index, m) := im in
         let beforeMatch := takeString index content in
         {| helper_name := group1 m;
            helper_file := filePath;
            helper_line := Some (countChar newline beforeMatch + 1);
            helper_content := trim (default EmptyString (group2 m)) |})
      (execAll defineRegex 0 0 content).

(** ** Paths and file classification ([template-parser.ts], second half) *)

Definition chartIndicators : list string :=
  ["Chart.yaml"; "Chart.yml"; "values.yaml"; "values.yml"; "templates"].

Definition isChartYamlName (p : string) : bool :=
  String.eqb p "Chart.yaml" || String.eqb p "Chart.yml".

(** [parts.findIndex(pred)], [None] for [-1]. *)
Fixpoint findIndex {A} (pred : A -> bool) (l : list A) : option nat :=
  match l with
  | [] => None
  | a :: l' => if pred a then Some 0 else option_map S (findIndex pred l')
  end.

Fixpoint mapChars (f : ascii -> ascii) (s : string) : string :=
  match s with
  | EmptyString => EmptyString
  | String c s' => String (f c) (mapChars f s')
  end.

Definition normalizePath (path : string) : string :=
  (* path.replace(/^\/+/, '') *)
  let normalized := snd (span (Ascii.eqb "/") path) in
  (* normalized.replace(/\\/g, '/') *)
  let normalized :=
    mapChars (fun c => if Ascii.eqb c "\" then "/"%char else c) normalized in
  let parts := split "/" normalized in
  if 1 <? length parts then
    let hasChartIndicator :=
      existsb (fun p => existsb (String.eqb p) chartIndicators) parts in
    if hasChartIndicator && (1 <? length parts) then
      match findIndex isChartYamlName parts with
      | Some (S k) => join "/" (drop (S k - 1 + 1) parts)
      | _ => join "/" (drop 1 parts)
      end
    else normalized
  else normalized.

Definition getFileName (path : string) : string :=
  List.last (split "/" path) EmptyString.

Definition determineFileType (path : string) : FileType :=
  let lowerPath := toLowerCase path in
  let fileName := toLowerCase (getFileName path) in
  if String.eqb fileName "chart.yaml" || String.eqb fileName "chart.yml"
  then FT_chart
  else if String.eqb fileName "values.yaml" || String.eqb fileName "values.yml"
  then FT_values
  else if endsWith fileName ".tpl" then FT_helper
  else if String.eqb fileName "notes.txt" then FT_notes
  else if includes lowerPath "templates/"
          && (endsWith fileName ".yaml" || endsWith fileName ".yml")
  then FT_template
  else FT_other.

(** The statements of [isRelevantFile] in their order; the two exclusions
    come after every [return true]. *)
Definition isRelevantFile (path : string) : bool :=
  let lowerPath := toLowerCase path in
  let fileName := toLowerCase (getFileName path) in
  if String.eqb fileName "chart.yaml" || String.eqb fileName "chart.yml"
  then true
  else if String.eqb fileName "values.yaml" || String.eqb fileName "values.yml"
  then true
  else if includes lowerPath "templates/"
          && (endsWith fileName ".yaml" || endsWith fileName ".yml"
              || endsWith fileName ".tpl" || String.eqb fileName "notes.txt")
  then true
  else if startsWith fileName "." then false
  else if includes lowerPath "charts/" then false
  else false.

(** ** JavaScript values and the host *)

Inductive JsError := YAMLException | TypeError.

Inductive Completion (A : Type) :=
  | Normal (a : A)
  | Throw (e : JsError).
Arguments Normal {A} a.
Arguments Throw {A} e.

Definition bindC {A B} (c : Completion A) (k : A -> Completion B)
  : Completion B :=
  match c with
  | Normal a => k a
  | Throw e => Throw e
  end.

Notation "'let*' x ':=' c 'in' k" := (bindC c (fun x => k))
  (at level 10, x name, c at level 100, k at level 200).

Fixpoint mapC {A B} (f : A -> Completion B) (l : list A)
  : Completion (list B) :=
  match l with
  | [] => Normal []
  | a :: l' => let* b := f a in let* bs := mapC f l' in Normal (b :: bs)
  end.

(** What [yaml.load] returns: a scalar, an array, or a mapping whose
    properties are listed in the order of [Object.keys]. *)
Inductive JsValue :=
  | JUndefined
  | JNull
  | JBool (b : bool)
  | JNum (n : float)
  | JStr (s : string)
  | JArr (items : list JsValue)
  | JObj (props : list (string * JsValue)).

Class Host := {
  (** [yaml.load] of [js-yaml], which throws on malformed text *)
  yaml_load : string -> Completion JsValue;
  (** [String(n)] for a number *)
  numberToString : float -> string;
  (** the sign of [a.localeCompare(b)] *)
  localeCompare : string -> string -> Z;
}.

Definition natToFloat (n : nat) : float :=
  PrimFloat.of_uint63 (Uint63.of_Z (Z.of_nat n)).

Definition isNaN (n : float) : bool := negb (PrimFloat.eqb n n).

(** ToBoolean *)
Definition truthy (v : JsValue) : bool :=
  match v with
  | JUndefined | JNull => false
  | JBool b => b
  | JNum n => negb (PrimFloat.eqb n 0 || isNaN n)
  | JStr s => negb (isEmpty s)
  | JArr _ | JObj _ => true
  end.

(** [a || b] on values *)
Definition orElse (a b : JsValue) : JsValue := if truthy a then a else b.

(** [key in obj] for the own properties of a mapping. *)
Definition hasOwn (props : list (string * JsValue)) (key : string) : bool :=
  existsb (String.eqb key) (map fst props).

(** [String(v)]. An array is joined with commas, [null] and [undefined]
    elements giving the empty text. A mapping is converted by the method
    [toString] that it has: [Object.prototype.toString] when it inherits
    it, which gives [[object Object]]; an own property [toString] from the
    document is no function, [valueOf] then returns the mapping itself,
    and the conversion ends with a [TypeError]. *)
Fixpoint toStringJs `{Host} (v : JsValue) : Completion string :=
  match v with
  | JUndefined => Normal "undefined"
  | JNull => Normal "null"
  | JBool true => Normal "true"
  | JBool false => Normal "false"
  | JNum n => Normal (numberToString n)
  | JStr s => Normal s
  | JArr items =>
      let* parts :=
        (fix each (items : list JsValue) : Completion (list string) :=
           match items with
           | [] => Normal []
           | item :: rest =>
               let* part := match item with
                            | JUndefined | JNull => Normal EmptyString
                            | _ => toStringJs item
                            end in
               let* parts := each rest in
               Normal (part :: parts)
           end) items in
      Normal (join "," parts)
  | JObj props =>
      if hasOwn props "toString" then Throw TypeError
      else Normal "[object Object]"
  end.

Fixpoint lookupProp (props : list (string * JsValue)) (key : string)
  : JsValue :=
  match props with
  | [] => JUndefined
  | (k, v) :: rest => if String.eqb k key then v else lookupProp rest key
  end.

(** A canonical array index: decimal digits without a leading zero. *)
Fixpoint digitsValue (acc : N) (s : string) : option N :=
  match s with
  | EmptyString => Some acc
  | String c s' =>
      if isDigit c then digitsValue (acc * 10 + (code c - 48)) s' else None
  end.

Definition parseIndex (key : string) : option N :=
  match key with
  | EmptyString => None
  | String "0" (String _ _) => None
  | _ => digitsValue 0 key
  end.

(** The properties that [parseChartYaml] and [parseDependencies] read. *)
Inductive Field :=
  | F_name | F_version | F_apiVersion | F_description | F_type
  | F_appVersion | F_dependencies | F_repository | F_condition | F_alias.

Definition fieldName (f : Field) : string :=
  match f with
  | F_name => "name"
  | F_version => "version"
  | F_apiVersion => "apiVersion"
  | F_description => "description"
  | F_type => "type"
  | F_appVersion => "appVersion"
  | F_dependencies => "dependencies"
  | F_repository => "repository"
  | F_condition => "condition"
  | F_alias => "alias"
  end.

(** [v.name], [v.version], ... as a value: the own property of a mapping.
    No prototype of a value that [yaml.load] returns has a member of one
    of these names, and they are no index and not [length], so on
    everything but a mapping that has the key the read gives
    [undefined]. *)
Definition field (v : JsValue) (f : Field) : JsValue :=
  match v with
  | JObj props => lookupProp props (fieldName f)
  | _ => JUndefined
  end.

(** Reading a property of [null] or [undefined] throws. *)
Definition getField (v : JsValue) (f : Field) : Completion JsValue :=
  match v with
  | JUndefined | JNull => Throw TypeError
  | _ => Normal (field v f)
  end.

(** What [obj[part]] can be when [part] is any text: a value of the
    document, or one of the built-in objects that every mapping and array
    inherits from. *)
Inductive Prototype := ObjectPrototype | ArrayPrototype.

Inductive Found :=
  | Data (v : JsValue)                        (* of the document, or a primitive *)
  | Proto (p : Prototype)                     (* Object.prototype, Array.prototype *)
  | Method (p : Prototype) (name : string).   (* the function p[name] *)

(** The members of [Object.prototype] but [__proto__]; all are functions. *)
Definition objectPrototypeNames : list string :=
  [ "constructor"; "hasOwnProperty"; "isPrototypeOf"; "propertyIsEnumerable";
    "toLocaleString"; "toString"; "valueOf";
    "__defineGetter__"; "__defineSetter__";
    "__lookupGetter__"; "__lookupSetter__" ].

(** The members of [Array.prototype] with a text as key, but [length]
    (ECMAScript 2023); all are functions. *)
Definition arrayPrototypeNames : list string :=
  [ "at"; "concat"; "constructor"; "copyWithin"; "entries"; "every"; "fill";
    "filter"; "find"; "findIndex"; "findLast"; "findLastIndex"; "flat";
    "flatMap"; "forEach"; "includes"; "indexOf"; "join"; "keys";
    "lastIndexOf"; "map"; "pop"; "push"; "reduce"; "reduceRight"; "reverse";
    "shift"; "slice"; "some"; "sort"; "splice"; "toLocaleString";
    "toReversed"; "toSorted"; "toSpliced"; "toString"; "unshift"; "values";
    "with" ].

Definition isNamed (names : list string) (key : string) : bool :=
  existsb (String.eqb key) names.

(** The property [key], other than [__proto__], of the prototype [p],
    its own or inherited. *)
Definition protoMember (p : Prototype) (key : string) : Found :=
  match p with
  | ObjectPrototype =>
      if isNamed objectPrototypeNames key then Method ObjectPrototype key
      else Data JUndefined
  | ArrayPrototype =>
      if String.eqb key "length" then Data (JNum 0)
      else if isNamed arrayPrototypeNames key then Method ArrayPrototype key
      else if isNamed objectPrototypeNames key then Method ObjectPrototype key
      else Data JUndefined
  end.

(** [obj[key]] for an object of the document that has no own property
    [key] and whose prototype is [p]; the accessor [__proto__] gives the
    prototype. *)
Definition inherited (p : Prototype) (key : string) : Found :=
  if String.eqb key "__proto__" then Proto p else protoMember p key.

(** [current[part]] for a [current] that is an object: the own property
    of a mapping, the element or the length of an array, and what the
    prototype chain has otherwise. [Object.prototype] has no prototype. *)
Definition getMember (current : Found) (part : string) : Found :=
  match current with
  | Data (JObj props) =>
      if hasOwn props part then Data (lookupProp props part)
      else inherited ObjectPrototype part
  | Data (JArr items) =>
      if String.eqb part "length" then Data (JNum (natToFloat (length items)))
      else match parseIndex part with
           | Some i =>
               if (i <? N.of_nat (length items))%N
               then Data (nth (N.to_nat i) items JUndefined)
               else inherited ArrayPrototype part
           | None => inherited ArrayPrototype part
           end
  | Proto ObjectPrototype =>
      if String.eqb part "__proto__" then Data JNull
      else protoMember ObjectPrototype part
  | Proto ArrayPrototype =>
      if String.eqb part "__proto__" then Proto ObjectPrototype
      else protoMember ArrayPrototype part
  | _ => Data JUndefined
  end.

(** [current !== null && current !== undefined && typeof current === 'object'] *)
Definition isObject (current : Found) : bool :=
  match current with
  | Data (JArr _) | Data (JObj _) | Proto _ => true
  | _ => false
  end.

(** ** Chart metadata and values ([yaml-parser.ts]) *)

Inductive ValueType :=
  | VT_string | VT_number | VT_boolean | VT_array | VT_object | VT_null.

Record ValueKey := {
  vk_path : string;
  vk_fullPath : string;
  vk_value : JsValue;
  vk_type : ValueType;
}.

Record ValuesData := {
  raw : JsValue;
  flatKeys : list ValueKey;
}.

Section YamlParser.
Context `{Host}.

(** [v ? String(v) : undefined] *)
Definition optionalString (v : JsValue) : Completion (option string) :=
  if truthy v then let* text := toStringJs v in Normal (Some text)
  else Normal None.

Definition parseDependencies (deps : JsValue)
  : Completion (list ChartDependency) :=
  match deps with
  | JArr items =>
      mapC (fun d =>
              let* name := getField d F_name in
              let* name := toStringJs (orElse name (JStr "")) in
              let* version := getField d F_version in
              let* version := toStringJs (orElse version (JStr "")) in
              let* repository := getField d F_repository in
              let* repository := optionalString repository in
              let* condition := getField d F_condition in
              let* condition := optionalString condition in
              let* alias := getField d F_alias in
              let* alias := optionalString alias in
              Normal {| dep_name := name;
                        dep_version := version;
                        dep_repository := repository;
                        dep_condition := condition;
                        dep_alias := alias |})
           items
  | _ => Normal []
  end.

(** No [try] surrounds the call of [yaml.load] here; the properties of
    the result are computed in the order in which they are written. *)
Definition parseChartYaml (content : string) : Completion ChartYaml :=
  let* parsed := yaml_load content in
  let* name := getField parsed F_name in
  let* name := toStringJs (orElse name (JStr "unknown")) in
  let* version := getField parsed F_version in
  let* version := toStringJs (orElse version (JStr "0.0.0")) in
  let* apiVersion := getField parsed F_apiVersion in
  let* apiVersion := toStringJs (orElse apiVersion (JStr "v2")) in
  let* description := getField parsed F_description in
  let* description := optionalString description in
  let* type := getField parsed F_type in
  let* type := optionalString type in
  let* appVersion := getField parsed F_appVersion in
  let* appVersion := optionalString appVersion in
  let* dependencies := getField parsed F_dependencies in
  let* deps := parseDependencies dependencies in
  Normal {| cy_name := name;
            cy_version := version;
            cy_apiVersion := apiVersion;
            cy_description := description;
            cy_type := type;
            cy_appVersion := appVersion;
            cy_dependencies := Some deps |}.

Definition getValueType (value : JsValue) : ValueType :=
  match value with
  | JNull => VT_null
  | JArr _ => VT_array
  | JStr _ => VT_string
  | JNum _ => VT_number
  | JBool _ => VT_boolean
  | JObj _ => VT_object
  | JUndefined => VT_string
  end.

Definition mkValueKey (prefix : string) (value : JsValue) (t : ValueType)
  : ValueKey :=
  {| vk_path := prefix;
     vk_fullPath := ".Values." +:+ prefix;
     vk_value := value;
     vk_type := t |}.

(** [prefix ? `${prefix}[${index}]` : `[${index}]`] *)
Definition indexPrefix (prefix : string) (index : nat) : string :=
  if isEmpty prefix then "[" +:+ natToString index +:+ "]"
  else prefix +:+ "[" +:+ natToString index +:+ "]".

(** [prefix ? `${prefix}.${key}` : key] *)
Definition keyPrefix (prefix key : string) : string :=
  if isEmpty prefix then key else prefix +:+ "." +:+ key.

(** [result] is the array the recursion pushes to. *)
Fixpoint flattenValues (obj : JsValue) (prefix : string)
    (result : list ValueKey) : list ValueKey :=
  match obj with
  | JNull | JUndefined => result
  | JBool _ | JNum _ | JStr _ =>
      result ++ [mkValueKey prefix obj (getValueType obj)]
  | JArr items =>
      let result := result ++ [mkValueKey prefix obj VT_array] in
      (fix forEach (items : list JsValue) (index : nat)
           (result : list ValueKey) : list ValueKey :=
         match items with
         | [] => result
         | item :: rest =>
             forEach rest (S index)
                     (flattenValues item (indexPrefix prefix index) result)
         end) items 0 result
  | JObj props =>
      let result :=
        if isEmpty prefix then result
        else result ++ [mkValueKey prefix obj VT_object] in
      (fix forKeys (props : list (string * JsValue))
           (result : list ValueKey) : list ValueKey :=
         match props with
         | [] => result
         | (key, value) :: rest =>
             forKeys rest
                     (flattenValues value (keyPrefix prefix key) result)
         end) props result
  end.

(** [yaml.load(content) || {}] inside [try], [{}] in the [catch]. *)
Definition parseValuesYaml (content : string) : ValuesData :=
  let raw :=
    match yaml_load content with
    | Normal v => orElse v (JObj [])
    | Throw _ => JObj []
    end in
  {| raw := raw; flatKeys := flattenValues raw EmptyString [] |}.

(** The loop of [getValueByPath] over the parts of the path. *)
Fixpoint getValueByParts (current : Found) (parts : list string) : Found :=
  match parts with
  | [] => current
  | part :: rest =>
      if isObject current then getValueByParts (getMember current part) rest
      else Data JUndefined
  end.

Definition getValueByPath (obj : JsValue) (path : string) : Found :=
  getValueByParts (Data obj) (split "." path).

End YamlParser.

(** ** Chart assembly ([parseHelmChart]) *)

Record HelmChart := {
  chart_name : string;
  chart_version : string;
  chart_description : option string;
  chart_files : list HelmFile;
  chart_values : ValuesData;
  chart_chartYaml : ChartYaml;
  chart_references : list Reference;
  chart_helpers : list HelperDefinition;
  chart_dependencies : list ChartDependency;
}.

(** The variables of [parseHelmChart] that the loop over the files updates. *)
Record ParseState := {
  st_helmFiles : list HelmFile;
  st_chartYaml : option ChartYaml;
  st_values : ValuesData;
  st_allReferences : list Reference;
  st_allHelpers : list HelperDefinition;
}.

Definition initialParseState : ParseState :=
  {| st_helmFiles := [];
     st_chartYaml := None;
     st_values := {| raw := JObj []; flatKeys := [] |};
     st_allReferences := [];
     st_allHelpers := [] |}.

Definition defaultChartYaml : ChartYaml :=
  {| cy_name := "unknown-chart";
     cy_version := "0.0.0";
     cy_apiVersion := "v2";
     cy_description := None;
     cy_type := None;
     cy_appVersion := None;
     cy_dependencies := None |}.

Section ChartAssembler.
Context `{Host}.

(** One round of [for (const [rawPath, content] of files.entries())]. *)
Definition parseEntry (st : ParseState) (entry : string * string)
  : Completion ParseState :=
  let (rawPath, content) := entry in
  let path := normalizePath rawPath in
  let name := getFileName path in
  let fileType := determineFileType path in
  if negb (isRelevantFile path) then Normal st
  else
    let helmFile := {| file_path := path; file_name := name;
                       file_type := fileType; file_content := content |} in
    let helmFiles := st_helmFiles st ++ [helmFile] in
    match fileType with
    | FT_chart =>
        let* cy := parseChartYaml content in
        Normal {| st_helmFiles := helmFiles;
                  st_chartYaml := Some cy;
                  st_values := st_values st;
                  st_allReferences := st_allReferences st;
                  st_allHelpers := st_allHelpers st |}
    | FT_values =>
        Normal {| st_helmFiles := helmFiles;
                  st_chartYaml := st_chartYaml st;
                  st_values := parseValuesYaml content;
                  st_allReferences := st_allReferences st;
                  st_allHelpers := st_allHelpers st |}
    | FT_template | FT_notes =>
        Normal {| st_helmFiles := helmFiles;
                  st_chartYaml := st_chartYaml st;
                  st_values := st_values st;
                  st_allReferences :=
                    st_allReferences st ++ extractReferences content path;
                  st_allHelpers := st_allHelpers st |}
    | FT_helper =>
        Normal {| st_helmFiles := helmFiles;
                  st_chartYaml := st_chartYaml st;
                  st_values := st_values st;
                  st_allReferences :=
                    st_allReferences st ++ extractReferences content path;
                  st_allHelpers :=
                    st_allHelpers st ++ extractHelperDefinitions content path |}
    | FT_other =>
        Normal {| st_helmFiles := helmFiles;
                  st_chartYaml := st_chartYaml st;
                  st_values := st_values st;
                  st_allReferences := st_allReferences st;
                  st_allHelpers := st_allHelpers st |}
    end.

Fixpoint parseEntries (st : ParseState) (files : list (string * string))
  : Completion ParseState :=
  match files with
  | [] => Normal st
  | entry :: rest => let* st' := parseEntry st entry in parseEntries st' rest
  end.

(** [files] lists the entries of the [Map] in insertion order. *)
Definition parseHelmChart (files : list (string * string))
  : Completion HelmChart :=
  let* st := parseEntries initialParseState files in
  let chartYaml := default defaultChartYaml (st_chartYaml st) in
  Normal {| chart_name := cy_name chartYaml;
            chart_version := cy_version chartYaml;
            chart_description := cy_description chartYaml;
            chart_files := st_helmFiles st;
            chart_values := st_values st;
            chart_chartYaml := chartYaml;
            chart_references := st_allReferences st;
            chart_helpers := st_allHelpers st;
            chart_dependencies :=
              default [] (cy_dependencies chartYaml) |}.

End ChartAssembler.

(** ** Graph data ([types]) *)

Inductive NodeType := NT_file | NT_value | NT_chart | NT_release | NT_helper.

Global Instance NodeType_eq_dec : EqDecision NodeType.
Proof. solve_decision. Defined.

Record Position := {
  pos_x : float;
  pos_y : float;
}.

Record NodeData := {
  data_label : string;
  data_fileType : option FileType;
  data_filePath : option string;
  data_valuePath : option string;
  data_valueType : option string;
  data_helperName : option string;
  data_referenceCount : option nat;
  data_isHighlighted : option bool;
}.

Record GraphNode := {
  node_id : string;
  node_type : NodeType;
  node_position : Position;
  node_data : NodeData;
}.

Record EdgeData := {
  data_referenceType : ReferenceType;
  data_expression : string;
}.

Record GraphEdge := {
  edge_id : string;
  edge_source : string;
  edge_target : string;
  edge_label : option string;
  edge_type : option string;
  edge_animated : option bool;
  edge_data : option EdgeData;
}.

Record GraphData := {
  graph_nodes : list GraphNode;
  graph_edges : list GraphEdge;
}.

(** ** Numbers of the layout *)

Set Warnings "-inexact-float".

Definition verticalSpacing : float := 100%float.
Definition groupPadding : float := 50%float.
(** [DEFAULT_LAYOUT.verticalSpacing * 0.7] *)
Definition groupSpacing : float := (verticalSpacing * 0.7)%float.

(** [v || 0] for a number that may be [undefined] *)
Definition numberOrZero (v : option float) : float :=
  match v with
  | Some n => if PrimFloat.eqb n 0 || isNaN n then 0%float else n
  | None => 0%float
  end.

Definition isNegativeZero (v : float) : bool :=
  PrimFloat.eqb v 0 && PrimFloat.ltb (1 / v) 0.

Definition Math_min (a b : float) : float :=
  if isNaN a || isNaN b then nan
  else if PrimFloat.ltb a b then a
  else if PrimFloat.ltb b a then b
  else if isNegativeZero a then a else b.

Definition Math_max (a b : float) : float :=
  if isNaN a || isNaN b then nan
  else if PrimFloat.ltb a b then b
  else if PrimFloat.ltb b a then a
  else if isNegativeZero a then b else a.

(** The sign a sort takes from the number its comparator returns; [NaN]
    counts as zero. *)
Definition signOf (v : float) : Z :=
  if PrimFloat.ltb v 0 then (-1)%Z
  else if PrimFloat.ltb 0 v then 1%Z
  else 0%Z.

(** ** Arrays *)

(** [Array.prototype.sort], which is stable: an element goes behind the
    elements that compare lower, and keeps its place among equals. *)
Fixpoint insertBy {A} (cmp : A -> A -> Z) (x : A) (l : list A) : list A :=
  match l with
  | [] => [x]
  | y :: l' => if (0 <? cmp x y)%Z then y :: insertBy cmp x l' else x :: l
  end.

Fixpoint sortBy {A} (cmp : A -> A -> Z) (l : list A) : list A :=
  match l with
  | [] => []
  | x :: l' => insertBy cmp x (sortBy cmp l')
  end.

(** [l.forEach((a, index) => ...)] over a state. *)
Fixpoint forEachIndexed {A St} (f : St -> A -> nat -> St) (l : list A)
    (index : nat) (s : St) : St :=
  match l with
  | [] => s
  | a :: l' => forEachIndexed f l' (S index) (f s a index)
  end.

(** [Array.from(set)] after [set.add] of each element: first occurrences,
    in order. *)
Fixpoint distinct (seen l : list string) : list string :=
  match l with
  | [] => []
  | a :: l' =>
      if existsb (String.eqb a) seen then distinct seen l'
      else a :: distinct (a :: seen) l'
  end.

(** ** Graph construction ([graph-builder.ts]) *)

Definition zeroPosition : Position := {| pos_x := 0; pos_y := 0 |}.

Definition createFileNode (path name : string) (fileType : FileType)
    (x y : float) : GraphNode :=
  {| node_id := "file:" +:+ path;
     node_type := NT_file;
     node_position := {| pos_x := x; pos_y := y |};
     node_data := {| data_label := name;
                     data_fileType := Some fileType;
                     data_filePath := Some path;
                     data_valuePath := None;
                     data_valueType := None;
                     data_helperName := None;
                     data_referenceCount := None;
                     data_isHighlighted := None |} |}.

Definition createValueNode (path label : string) (x y : float) : GraphNode :=
  {| node_id := "value:" +:+ path;
     node_type := NT_value;
     node_position := {| pos_x := x; pos_y := y |};
     node_data := {| data_label := label;
                     data_fileType := None;
                     data_filePath := None;
                     data_valuePath := Some path;
                     data_valueType := None;
                     data_helperName := None;
                     data_referenceCount := None;
                     data_isHighlighted := None |} |}.

Definition createHelperNode (name : string) (x y : float) : GraphNode :=
  {| node_id := "helper:" +:+ name;
     node_type := NT_helper;
     node_position := {| pos_x := x; pos_y := y |};
     node_data := {| data_label := name;
                     data_fileType := None;
                     data_filePath := None;
                     data_valuePath := None;
                     data_valueType := None;
                     data_helperName := Some name;
                     data_referenceCount := None;
                     data_isHighlighted := None |} |}.

Definition createReleaseNode (x y : float) : GraphNode :=
  {| node_id := "release:info";
     node_type := NT_release;
     node_position := {| pos_x := x; pos_y := y |};
     node_data := {| data_label := ".Release";
                     data_fileType := None;
                     data_filePath := None;
                     data_valuePath := None;
                     data_valueType := None;
                     data_helperName := None;
                     data_referenceCount := None;
                     data_isHighlighted := None |} |}.

Definition isChartFile (f : HelmFile) : bool :=
  bool_decide (file_type f = FT_chart).

Definition isValuesFile (f : HelmFile) : bool :=
  bool_decide (file_type f = FT_values).

Definition isSourceFile (f : HelmFile) : bool :=
  bool_decide (file_type f = FT_template)
  || bool_decide (file_type f = FT_helper)
  || bool_decide (file_type f = FT_notes).

(** [createEdge], with [None] for [null]. *)
Definition createEdge (ref : Reference) (chart : HelmChart)
  : option GraphEdge :=
  let sourceId := "file:" +:+ src_file (ref_source ref) in
  let targetId : option string :=
    match ref_type ref with
    | RT_values => Some ("value:" +:+ tgt_path (ref_target ref))
    | RT_include | RT_template =>
        Some ("helper:" +:+ tgt_path (ref_target ref))
    | RT_chart =>
        match List.find isChartFile (chart_files chart) with
        | Some chartFile => Some ("file:" +:+ file_path chartFile)
        | None => Some EmptyString
        end
    | RT_release => Some "release:info"
    | RT_files | RT_capabilities => None      (* default: return null *)
    end in
  match targetId with
  | None => None
  | Some targetId =>
      if isEmpty targetId then None
      else Some {| edge_id := ref_id ref;
                   edge_source := sourceId;
                   edge_target := targetId;
                   edge_label := Some (ref_expression ref);
                   edge_type := Some "smoothstep";
                   edge_animated := Some false;
                   edge_data :=
                     Some {| data_referenceType := ref_type ref;
                             data_expression := ref_expression ref |} |}
  end.

Definition getReferencedValuePaths (chart : HelmChart) : list string :=
  distinct []
    (map (fun ref => tgt_path (ref_target ref))
         (filter (fun ref => ref_type ref = RT_values)
                 (chart_references chart))).

(** [path.includes('.') ? path.split('.').pop() || path : path] *)
Definition valueLabel (path : string) : string :=
  if includes path "." then
    let lastPart := List.last (split "." path) EmptyString in
    if isEmpty lastPart then path else lastPart
  else path.

(** The nodes of [buildGraphData] in the order they are pushed. *)
Definition buildNodes (chart : HelmChart) : list GraphNode :=
  map (fun file =>
         createFileNode (file_path file) (file_name file) (file_type file) 0 0)
      (List.filter isSourceFile (chart_files chart))
  ++ match List.find isChartFile (chart_files chart) with
     | Some chartFile =>
         [createFileNode (file_path chartFile) (file_name chartFile)
                         FT_chart 0 0]
     | None => []
     end
  ++ [createReleaseNode 0 0]
  ++ match List.find isValuesFile (chart_files chart) with
     | Some valuesFile =>
         [createFileNode (file_path valuesFile) (file_name valuesFile)
                         FT_values 0 0]
     | None => []
     end
  ++ map (fun path => createValueNode path (valueLabel path) 0 0)
         (getReferencedValuePaths chart)
  ++ map (fun helper => createHelperNode (helper_name helper) 0 0)
         (chart_helpers chart).

(** The edges of [buildGraphData]: one per reference whose edge is not
    [null]. *)
Definition buildEdges (chart : HelmChart) : list GraphEdge :=
  omap (fun ref => createEdge ref chart) (chart_references chart).

(** ** Layout ([autoOrganizeLayout]) *)

(** [outgoingEdges] and [incomingEdges] *)
Definition Adjacency : Type := gmap string (list string) * gmap string (list string).

Definition addEdge (adj : Adjacency) (edge : GraphEdge) : Adjacency :=
  let (outgoingEdges, incomingEdges) := adj in
  let sources := default [] (outgoingEdges !! edge_source edge) in
  let outgoingEdges :=
    <[edge_source edge := sources ++ [edge_target edge]]> outgoingEdges in
  let targets := default [] (incomingEdges !! edge_target edge) in
  let incomingEdges :=
    <[edge_target edge := targets ++ [edge_source edge]]> incomingEdges in
  (outgoingEdges, incomingEdges).

Definition buildAdjacency (edges : list GraphEdge) : Adjacency :=
  fold_left addEdge edges (∅, ∅).

(** The [x] of the four columns. *)
Definition columnX : list float := [0; 500; 1000; 1600]%float.

Definition columnIndex (node : GraphNode) : nat :=
  match node_type node with
  | NT_file =>
      match data_fileType (node_data node) with
      | Some FT_chart | Some FT_values => 1
      | _ => 0
      end
  | NT_chart | NT_release => 1
  | NT_value => 2
  | NT_helper => 3
  end.

(** [columnNodes] after [nodes.forEach(node => columnNodes[columnIndex].push(node))]:
    column [k] holds the nodes of index [k] in the order of [nodes]. *)
Definition groupIntoColumns (nodes : list GraphNode) : list (list GraphNode) :=
  map (fun k => List.filter (fun node => columnIndex node =? k) nodes)
      [0; 1; 2; 3].

(** [(outgoingEdges.get(id)?.length || 0) + (incomingEdges.get(id)?.length || 0)] *)
Definition connections (adj : Adjacency) (id : string) : nat :=
  length (default [] (adj.1 !! id)) + length (default [] (adj.2 !! id)).

Definition byConnections (adj : Adjacency) (a b : GraphNode) : Z :=
  Z.of_nat (connections adj (node_id b)) - Z.of_nat (connections adj (node_id a)).

Definition PositionMap : Type := gmap string Position.

Definition assignInitial (columns : list (list GraphNode)) : PositionMap :=
  forEachIndexed
    (fun nodePositions col colIndex =>
       let x := nth colIndex columnX 0%float in
       forEachIndexed
         (fun nodePositions node rowIndex =>
            <[node_id node :=
                {| pos_x := x;
                   pos_y := natToFloat rowIndex * verticalSpacing |}]>
              nodePositions)
         col 0 nodePositions)
    columns 0 ∅.

Definition barycenterOf (adj : Adjacency) (nodePositions : PositionMap)
    (node : GraphNode) : float :=
  let connectedNodes :=
    default [] (adj.2 !! node_id node) ++ default [] (adj.1 !! node_id node) in
  match connectedNodes with
  | [] => infinity
  | _ =>
      let sum :=
        fold_left
          (fun acc connectedId =>
             (acc + numberOrZero (pos_y <$> nodePositions !! connectedId))%float)
          connectedNodes 0%float in
      (sum / natToFloat (length connectedNodes))%float
  end.

Definition optimizeColumnOrder (columnNodes : list GraphNode)
    (nodePositions : PositionMap) (adj : Adjacency) : PositionMap :=
  let barycenters :=
    map (fun node => (node, barycenterOf adj nodePositions node)) columnNodes in
  let barycenters :=
    sortBy (fun a b => signOf (a.2 - b.2)%float) barycenters in
  let x :=
    match columnNodes with
    | first :: _ => numberOrZero (pos_x <$> nodePositions !! node_id first)
    | [] => 0%float
    end in
  forEachIndexed
    (fun nodePositions entry index =>
       <[node_id entry.1 :=
           {| pos_x := x; pos_y := natToFloat index * verticalSpacing |}]>
         nodePositions)
    barycenters 0 nodePositions.

(** One round of the refinement: columns 1, 2, 3, then 2, 1, 0. *)
Definition sweep (columns : list (list GraphNode)) (adj : Adjacency)
    (nodePositions : PositionMap) : PositionMap :=
  fold_left
    (fun nodePositions colIndex =>
       optimizeColumnOrder (nth colIndex columns []) nodePositions adj)
    ([1; 2; 3] ++ [2; 1; 0]) nodePositions.

(** [groups.set(topLevel, group)] on a [Map] that keeps insertion order. *)
Fixpoint pushToGroup (topLevel : string) (node : GraphNode)
    (groups : list (string * list GraphNode))
  : list (string * list GraphNode) :=
  match groups with
  | [] => [(topLevel, [node])]
  | (key, group) :: rest =>
      if String.eqb key topLevel then (key, group ++ [node]) :: rest
      else (key, group) :: pushToGroup topLevel node rest
  end.

(** [path.split('.').length] *)
Definition pathDepth (path : string) : nat := length (split "." path).

Section Layout.
Context `{Host}.

Definition groupValueNodesByPrefix (nodes : list GraphNode)
  : list (list GraphNode) :=
  let groups :=
    fold_left
      (fun groups node =>
         let path := default EmptyString (data_valuePath (node_data node)) in
         let first := List.hd EmptyString (split "." path) in
         let topLevel := if isEmpty first then "other" else first in
         pushToGroup topLevel node groups)
      nodes [] in
  map snd (sortBy (fun a b => localeCompare a.1 b.1) groups).

Definition byDepthThenPath (a b : GraphNode) : Z :=
  let aPath := default EmptyString (data_valuePath (node_data a)) in
  let bPath := default EmptyString (data_valuePath (node_data b)) in
  let aDepth := pathDepth aPath in
  let bDepth := pathDepth bPath in
  if negb (aDepth =? bDepth) then Z.of_nat aDepth - Z.of_nat bDepth
  else localeCompare aPath bPath.

(** [(node.data.valuePath?.split('.').length || 1) > 1 ? 30 : 0] *)
Definition indentOf (node : GraphNode) : float :=
  match data_valuePath (node_data node) with
  | Some path => if 1 <? pathDepth path then 30%float else 0%float
  | None => 0%float
  end.

(** The block [if (valueNodes.length > 0) { ... }]; the state of the
    outer [forEach] is the position map and [currentY]. A node of the
    column always has a position when this runs (see [assignInitial]);
    the model leaves the map alone otherwise. *)
Definition layoutValueGroups (valueNodes : list GraphNode)
    (nodePositions : PositionMap) : PositionMap :=
  match valueNodes with
  | [] => nodePositions
  | _ =>
      let valueGroups := groupValueNodesByPrefix valueNodes in
      fst
        (fold_left
           (fun (state : PositionMap * float) group =>
              let (nodePositions, currentY) := state in
              let group := sortBy byDepthThenPath group in
              let nodePositions :=
                forEachIndexed
                  (fun nodePositions node idx =>
                     match nodePositions !! node_id node with
                     | Some pos =>
                         <[node_id node :=
                             {| pos_x := pos_x pos + indentOf node;
                                pos_y := currentY + natToFloat idx * groupSpacing |}]>
                           nodePositions
                     | None => nodePositions
                     end)
                  group 0 nodePositions in
              (nodePositions,
               (currentY + (natToFloat (length group) * groupSpacing
                            + groupPadding))%float))
           valueGroups (nodePositions, 0%float))
  end.

(** [minY] and [maxY] of a column. *)
Definition columnExtent (col : list GraphNode) (nodePositions : PositionMap)
  : float * float :=
  fold_left
    (fun (ext : float * float) node =>
       match nodePositions !! node_id node with
       | Some pos => (Math_min ext.1 (pos_y pos), Math_max ext.2 (pos_y pos))
       | None => ext
       end)
    col (infinity, neg_infinity).

Definition centerColumnsVertically (columns : list (list GraphNode))
    (nodePositions : PositionMap) : PositionMap :=
  let maxHeight :=
    fold_left
      (fun maxHeight col =>
         match col with
         | [] => maxHeight
         | _ =>
             let (minY, maxY) := columnExtent col nodePositions in
             Math_max maxHeight (maxY - minY)
         end)
      columns 0%float in
  fold_left
    (fun nodePositions col =>
       match col with
       | [] => nodePositions
       | _ =>
           let (minY, maxY) := columnExtent col nodePositions in
           let colHeight := (maxY - minY)%float in
           let offset := ((maxHeight - colHeight) / 2 - minY)%float in
           fold_left
             (fun nodePositions node =>
                match nodePositions !! node_id node with
                | Some pos =>
                    <[node_id node :=
                        {| pos_x := pos_x pos;
                           pos_y := pos_y pos + offset |}]>
                      nodePositions
                | None => nodePositions
                end)
             col nodePositions
       end)
    columns nodePositions.

(** The position map that [autoOrganizeLayout] computes before it maps
    over [nodes]. *)
Definition computePositions (nodes : list GraphNode)
    (edges : list GraphEdge) : PositionMap :=
  let adj := buildAdjacency edges in
  let columnNodes := groupIntoColumns nodes in
  let columnNodes := map (sortBy (byConnections adj)) columnNodes in
  let nodePositions := assignInitial columnNodes in
  let nodePositions := Nat.iter 5 (sweep columnNodes adj) nodePositions in
  let nodePositions :=
    layoutValueGroups (nth 2 columnNodes []) nodePositions in
  centerColumnsVertically columnNodes nodePositions.

(** [{ ...node, position: nodePositions.get(node.id) || node.position }] *)
Definition withPosition (nodePositions : PositionMap) (node : GraphNode)
  : GraphNode :=
  {| node_id := node_id node;
     node_type := node_type node;
     node_position :=
       default (node_position node) (nodePositions !! node_id node);
     node_data := node_data node |}.

Definition autoOrganizeLayout (nodes : list GraphNode)
    (edges : list GraphEdge) : list GraphNode :=
  map (withPosition (computePositions nodes edges)) nodes.

Definition buildGraphData (chart : HelmChart) : GraphData :=
  let nodes := buildNodes chart in
  let edges := buildEdges chart in
  let layoutedNodes := autoOrganizeLayout nodes edges in
  {| graph_nodes := layoutedNodes; graph_edges := edges |}.

End Layout.

(** ** Drop validation ([DropZone.tsx], [handleDrop]) *)

(** [Array.from(files.keys()).some(path => ...)] *)
Definition hasChartYaml (paths : list string) : bool :=
  existsb
    (fun path =>
       endsWith (toLowerCase path) "chart.yaml"
       || endsWith (toLowerCase path) "chart.yml")
    paths.

Inductive DropOutcome :=
  | Rejected (error : string)
  | FilesDropped (files : list (string * string)).

(** What [handleDrop] does with the files it has read: [setError] and
    return, or [onFilesDropped(files)]. *)
Definition handleDrop (files : list (string * string)) : DropOutcome :=
  if negb (hasChartYaml (map fst files))
  then Rejected "No Chart.yaml found. Please drop a valid Helm chart folder."
  else FilesDropped files.

(** The contract the ingestion is specified to have: some path whose file
    name, lower-cased, is [chart.yaml] or [chart.yml]. *)
Definition hasChartFileName (paths : list string) : bool :=
  existsb
    (fun path =>
       let fileName := toLowerCase (getFileName path) in
       String.eqb fileName "chart.yaml" || String.eqb fileName "chart.yml")
    paths.

(** ** Sample inputs *)

Definition quoted (s : string) : string :=
  String dquote s +:+ String dquote EmptyString.

Definition lines (ls : list string) : string :=
  join (String newline EmptyString) ls.

Definition sampleChartYaml : string :=
  lines ["name: mychart"; "version: 1.0.0"; "apiVersion: v2"].

Definition unclosedChartYaml : string := "name: [unclosed".

(** What [yaml.load] gives on the sample documents. *)
Definition sampleDocuments : list (string * Completion JsValue) :=
  [ (sampleChartYaml,
     Normal (JObj [("name", JStr "mychart"); ("version", JStr "1.0.0");
                   ("apiVersion", JStr "v2")]));
    ("replicaCount: 1", Normal (JObj [("replicaCount", JNum 1)]));
    (EmptyString, Normal JUndefined);
    (unclosedChartYaml, Throw YAMLException) ].

Fixpoint lookupDocument {A} (table : list (string * A)) (text : string)
  : option A :=
  match table with
  | [] => None
  | (k, a) :: rest => if String.eqb k text then Some a else lookupDocument rest text
  end.

(** A host that knows the sample documents, prints the number 1, and
    compares strings by code unit. *)
Definition sampleHost : Host :=
  {| yaml_load := fun text =>
       default (Throw YAMLException) (lookupDocument sampleDocuments text);
     numberToString := fun n =>
       if PrimFloat.eqb n 1 then "1" else "NaN";
     localeCompare := fun a b =>
       match String.compare a b with
       | Lt => (-1)%Z
       | Eq => 0%Z
       | Gt => 1%Z
       end |}.

Definition sampleFiles : list (string * string) :=
  [ ("/mychart/Chart.yaml", sampleChartYaml);
    ("/mychart/values.yaml", "replicaCount: 1");
    ("/mychart/templates/deploy.yaml", "replicas: {{ .Values.replicaCount }}") ].

Definition repeatedValueLine : string := "{{ .Values.a.b }}-{{ .Values.a.b }}".

Definition missingHelperFiles : list (string * string) :=
  [ ("/mychart/templates/deploy.yaml",
     "labels: {{ include " +:+ quoted "missing" +:+ " . }}") ].

(** The chart of [missingHelperFiles], and the edge of its one reference. *)
Definition missingHelperReference : Reference :=
  mkReference "templates/deploy.yaml" 1 RT_include "missing" TT_helper
              "missing" ("{{ include " +:+ quoted "missing").

Definition missingHelperChart : HelmChart :=
  {| chart_name := "unknown-chart";
     chart_version := "0.0.0";
     chart_description := None;
     chart_files :=
       [{| file_path := "templates/deploy.yaml";
           file_name := "deploy.yaml";
           file_type := FT_template;
           file_content := "labels: {{ include " +:+ quoted "missing" +:+ " . }}" |}];
     chart_values := {| raw := JObj []; flatKeys := [] |};
     chart_chartYaml := defaultChartYaml;
     chart_references := [missingHelperReference];
     chart_helpers := [];
     chart_dependencies := [] |}.

Definition missingHelperEdge : GraphEdge :=
  {| edge_id := ref_id missingHelperReference;
     edge_source := "file:templates/deploy.yaml";
     edge_target := "helper:missing";
     edge_label := Some (ref_expression missingHelperReference);
     edge_type := Some "smoothstep";
     edge_animated := Some false;
     edge_data :=
       Some {| data_referenceType := RT_include;
               data_expression := ref_expression missingHelperReference |} |}.

(** ** Configuration trees that the path lookup can address *)

Fixpoint distinctKeys (keys : list string) : bool :=
  match keys with
  | [] => true
  | k :: rest => negb (existsb (String.eqb k) rest) && distinctKeys rest
  end.

(** The keys of every mapping that is reached through mappings only are
    distinct (they are the own properties of one object) and hold no dot.
    Nothing is asked below an array. *)
Fixpoint plainMapping (v : JsValue) : bool :=
  match v with
  | JObj props =>
      distinctKeys (map fst props)
      && (fix all (props : list (string * JsValue)) : bool :=
            match props with
            | [] => true
            | (key, value) :: rest =>
                negb (includes key ".") && plainMapping value && all rest
            end) props
  | _ => true
  end.

Definition nonEmptyKeys (props : list (string * JsValue)) : bool :=
  forallb (fun kv => negb (isEmpty kv.1)) props.

(** An entry whose path is free of brackets, that is, one that is not an
    element of an array, is found again by the lookup. *)
Definition foundAgain (root : JsValue) (e : ValueKey) : Prop :=
  includes (vk_path e) "[" = false ->
  getValueByPath root (vk_path e) = Data (vk_value e).

(** The path of an entry continues [prefix]. *)
Definition continues (prefix : string) (e : ValueKey) : Prop :=
  exists rest, vk_path e = prefix +:+ rest.

Definition sampleEntry : ValueKey :=
  {| vk_path := "image.tag";
     vk_fullPath := ".Values.image.tag";
     vk_value := JStr "1.25";
     vk_type := VT_string |}.

Definition sampleValues : list (string * JsValue) :=
  [ ("replicaCount", JNum 1);
    ("image", JObj [("repository", JStr "nginx"); ("tag", JStr "1.25")]);
    ("ports", JArr [JNum 80; JNum 443]) ].

(** ** Template text with known occurrences

    A line of template text written as what stands between the
    expressions and the expressions themselves: [.Values] followed by a
    chain of segments, or a bare [.Values]. The text next to an expression
    is free of [.Values], and every chain is as long as it can be: what
    follows it on the line starts with no further segment and does not
    lengthen its last identifier. Every line of text can be written so
    (lemma [line_reading]). *)

Inductive Segment :=
  | SegIdent (name : string)      (* .name *)
  | SegIndex (inner : string).    (* [inner] *)

Inductive Piece :=
  | Bare                                  (* .Values, nothing after it *)
  | Occurrence (chain : list Segment).    (* .Values and one segment or more *)

Record TemplateLine := {
  lead : string;
  body : list (Piece * string);
}.

Fixpoint forallChars (p : ascii -> bool) (s : string) : bool :=
  match s with
  | EmptyString => true
  | String c s' => p c && forallChars p s'
  end.

Definition notNewline (c : ascii) : bool := negb (Ascii.eqb c newline).

Definition renderSegment (seg : Segment) : string :=
  match seg with
  | SegIdent name => String "." name
  | SegIndex inner => String "[" (inner +:+ "]")
  end.

Fixpoint renderChain (chain : list Segment) : string :=
  match chain with
  | [] => EmptyString
  | seg :: rest => renderSegment seg +:+ renderChain rest
  end.

Definition renderPiece (p : Piece) : string :=
  match p with
  | Bare => ".Values"
  | Occurrence chain => ".Values" +:+ renderChain chain
  end.

Fixpoint renderBody (body : list (Piece * string)) : string :=
  match body with
  | [] => EmptyString
  | (p, gap) :: rest => renderPiece p +:+ gap +:+ renderBody rest
  end.

Definition renderLine (l : TemplateLine) : string :=
  lead l +:+ renderBody (body l).

Definition renderDocument (doc : list TemplateLine) : string :=
  lines (map renderLine doc).

Definition validSegment (seg : Segment) : bool :=
  match seg with
  | SegIdent (String c rest) => isIdentStart c && forallChars isIdentChar rest
  | SegIdent EmptyString => false
  | SegIndex inner =>
      negb (isEmpty inner) && forallChars notRBracket inner
      && forallChars notNewline inner
  end.

Definition validPiece (p : Piece) : bool :=
  match p with
  | Bare => true
  | Occurrence chain => negb (bool_decide (chain = [])) && forallb validSegment chain
  end.

Definition validGap (gap : string) : bool :=
  negb (includes gap ".Values") && forallChars notNewline gap.

(** The text starts with a segment: a dot and the first character of an
    identifier, or a bracket, one character or more that are no closing
    bracket, and the closing bracket. *)
Definition startsSegment (t : string) : bool :=
  match t with
  | String "." (String c _) => isIdentStart c
  | String "[" t' =>
      match span notRBracket t' with
      | (String _ _, String _ _) => true
      | _ => false
      end
  | _ => false
  end.

(** [b] is empty or starts outside the class [p]. *)
Definition startsOutside (p : ascii -> bool) (b : string) : bool :=
  match b with
  | EmptyString => true
  | String c _ => negb (p c)
  end.

(** The last segment of the chain is an identifier. *)
Definition endsWithIdent (chain : list Segment) : bool :=
  match List.last chain (SegIndex EmptyString) with
  | SegIdent _ => true
  | SegIndex _ => false
  end.

(** What follows an expression on its line, up to the end of the line,
    does not continue the expression: it starts with no segment, and with
    no character of an identifier when the chain ends with an
    identifier. *)
Definition endsExpression (p : Piece) (after : string) : bool :=
  negb (startsSegment after)
  && match p with
     | Occurrence chain =>
         negb (endsWithIdent chain) || startsOutside isIdentChar after
     | Bare => true
     end.

Fixpoint validBody (body : list (Piece * string)) : bool :=
  match body with
  | [] => true
  | (p, gap) :: rest =>
      validPiece p && validGap gap
      && endsExpression p (gap +:+ renderBody rest) && validBody rest
  end.

Definition validLine (l : TemplateLine) : bool :=
  validGap (lead l) && validBody (body l).

Definition chainsOf (l : TemplateLine) : list (list Segment) :=
  omap (fun pg : Piece * string =>
          match pg.1 with
          | Occurrence chain => Some chain
          | Bare => None
          end) (body l).

(** The path that a chain names: the chain as written, brackets and dots
    included, without the dot in front of a first identifier. *)
Definition chainPath (chain : list Segment) : string :=
  match chain with
  | SegIdent name :: rest => name +:+ renderChain rest
  | _ => renderChain chain
  end.

(** The reference that the occurrence [.Values<chain>] on line [lineNum]
    is to give. *)
Definition valuesReference (filePath : string) (lineNum : nat)
    (chain : list Segment) : Reference :=
  let path := chainPath chain in
  {| ref_id := referenceId filePath lineNum RT_values path;
     ref_type := RT_values;
     ref_source := {| src_file := filePath; src_line := Some lineNum |};
     ref_target := {| tgt_type := TT_value; tgt_path := path |};
     ref_expression := ".Values" +:+ renderChain chain;
     ref_line := Some lineNum |}.

Fixpoint expectedValuesReferences (filePath : string) (lineIndex : nat)
    (doc : list TemplateLine) : list Reference :=
  match doc with
  | [] => []
  | l :: rest =>
      map (valuesReference filePath (lineIndex + 1)) (chainsOf l)
      ++ expectedValuesReferences filePath (S lineIndex) rest
  end.

Definition countOccurrences (doc : list TemplateLine) : nat :=
  length (concat (map chainsOf doc)).

Definition isValuesReference (r : Reference) : bool :=
  bool_decide (ref_type r = RT_values).

Definition sampleDocument : list TemplateLine :=
  [ {| lead := "replicas: {{ ";
       body := [(Occurrence [SegIdent "replicaCount"], " }}")] |};
    {| lead := "image: {{ ";
       body := [(Occurrence [SegIdent "image"; SegIdent "tags"; SegIndex "0"],
                 " }}:{{ ");
                (Bare, " }} # ");
                (Occurrence [SegIdent "image"; SegIdent "tags"; SegIndex "0"],
                 EmptyString)] |};
    {| lead := "# see ";
       body := [(Occurrence [SegIndex "0"; SegIdent "port"], ".1 and ");
                (Occurrence [SegIdent "tls"; SegIndex "0"], "x or ");
                (Occurrence [SegIdent "host"], ". [x")] |} ].

(** ** Vocabulary of the proofs *)

Definition fromFile (filePath : string) (r : Reference) : Prop :=
  src_file (ref_source r) = filePath.

(** Every reference collected so far names a file that has been kept, and
    that file is a template, a helper file or the notes. *)
Definition referencesHaveFiles (refs : list Reference)
    (files : list HelmFile) : Prop :=
  Forall (fun r =>
            exists file, file ∈ files
                         /\ file_path file = src_file (ref_source r)
                         /\ isSourceFile file = true)
         refs.

(** The groups of value nodes with [f] applied to every node. *)
Definition mapGroups (f : GraphNode -> GraphNode)
    (groups : list (string * list GraphNode))
  : list (string * list GraphNode) :=
  map (fun kg => (kg.1, map f kg.2)) groups.

Section JsValueInduction.
Variable P : JsValue -> Prop.
Hypothesis P_undefined : P JUndefined.
Hypothesis P_null : P JNull.
Hypothesis P_bool : forall b, P (JBool b).
Hypothesis P_num : forall n, P (JNum n).
Hypothesis P_str : forall s, P (JStr s).
Hypothesis P_arr : forall items, Forall P items -> P (JArr items).
Hypothesis P_obj :
  forall props, Forall (fun kv : string * JsValue => P kv.2) props ->
                P (JObj props).

Fixpoint JsValue_nested_ind (v : JsValue) : P v :=
  match v with
  | JUndefined => P_undefined
  | JNull => P_null
  | JBool b => P_bool b
  | JNum n => P_num n
  | JStr s => P_str s
  | JArr items =>
      P_arr items
        ((fix all (l : list JsValue) : Forall P l :=
            match l with
            | [] => @List.Forall_nil _ P
            | x :: l' =>
                @List.Forall_cons _ P x l' (JsValue_nested_ind x) (all l')
            end) items)
  | JObj props =>
      P_obj props
        ((fix all (l : list (string * JsValue))
            : Forall (fun kv : string * JsValue => P kv.2) l :=
            match l with
            | [] => @List.Forall_nil _ (fun kv : string * JsValue => P kv.2)
            | (key, value) :: l' =>
                @List.Forall_cons _ (fun kv : string * JsValue => P kv.2)
                                  (key, value) l'
                                  (JsValue_nested_ind value) (all l')
            end) props)
  end.
End JsValueInduction.

(** The matches from a position on, [skip] characters being covered by
    the match before. *)
Definition scan (re : Pattern) (skip : nat) (s : string) : list MatchAt :=
  map snd (execAll re skip 0 s).

(** No match starts inside [u] when [t] follows it. *)
Fixpoint noMatchIn (re : Pattern) (u t : string) : Prop :=
  match u with
  | EmptyString => True
  | String c u' => re (u +:+ t) = None /\ noMatchIn re u' t
  end.

(** The text is empty or starts with a dot, as the text of an expression
    does. *)
Definition dotStart (t : string) : bool :=
  match t with
  | EmptyString => true
  | String c _ => Ascii.eqb c "."
  end.

Definition notDot (c : ascii) : bool := negb (Ascii.eqb c ".").

Definition occurrenceMatch (chain : list Segment) : MatchAt :=
  {| matched := ".Values" +:+ renderChain chain;
     group1 := renderChain chain;
     group2 := None |}.

Definition bodyChains (body : list (Piece * string)) : list (list Segment) :=
  omap (fun pg : Piece * string =>
          match pg.1 with
          | Occurrence chain => Some chain
          | Bare => None
          end) body.

(** ** The other operations of [template-parser.ts] *)

(** [Array.from(set)] after [set.add] of each element of [l], for any
    type with decidable equality. *)
Fixpoint setElements {A} `{EqDecision A} (seen l : list A) : list A :=
  match l with
  | [] => []
  | a :: l' =>
      if bool_decide (a ∈ seen) then setElements seen l'
      else a :: setElements (a :: seen) l'
  end.

Definition getUniqueReferenceTypes (references : list Reference)
  : list ReferenceType :=
  setElements [] (map ref_type references).

(** [const existing = grouped.get(key) || []; existing.push(a);
    grouped.set(key, existing)] on a [Map], which keeps the keys in the
    order of their first insertion. *)
Fixpoint pushGrouped {K A} `{EqDecision K} (key : K) (a : A)
    (grouped : list (K * list A)) : list (K * list A) :=
  match grouped with
  | [] => [(key, [a])]
  | (k, existing) :: rest =>
      if bool_decide (k = key) then (k, existing ++ [a]) :: rest
      else (k, existing) :: pushGrouped key a rest
  end.

(** [grouped.get(key)] *)
Fixpoint groupedGet {K A} `{EqDecision K} (key : K)
    (grouped : list (K * list A)) : option (list A) :=
  match grouped with
  | [] => None
  | (k, existing) :: rest =>
      if bool_decide (k = key) then Some existing else groupedGet key rest
  end.

Definition groupReferencesByType (references : list Reference)
  : list (ReferenceType * list Reference) :=
  fold_left (fun grouped ref => pushGrouped (ref_type ref) ref grouped)
            references [].

Definition groupReferencesBySourceFile (references : list Reference)
  : list (string * list Reference) :=
  fold_left
    (fun grouped ref => pushGrouped (src_file (ref_source ref)) ref grouped)
    references [].

Definition isHelperCall (ref : Reference) : bool :=
  bool_decide (ref_type ref = RT_include)
  || bool_decide (ref_type ref = RT_template).

Definition getReferencedHelperNames (chart : HelmChart) : list string :=
  setElements []
    (map (fun ref => tgt_path (ref_target ref))
         (List.filter isHelperCall (chart_references chart))).

Definition getReferencesFromFile (chart : HelmChart) (filePath : string)
  : list Reference :=
  List.filter (fun ref => String.eqb (src_file (ref_source ref)) filePath)
              (chart_references chart).

Definition getReferencesToValue (chart : HelmChart) (valuePath : string)
  : list Reference :=
  List.filter
    (fun ref => bool_decide (ref_type ref = RT_values)
                && String.eqb (tgt_path (ref_target ref)) valuePath)
    (chart_references chart).

Definition getReferencesToHelper (chart : HelmChart) (helperName : string)
  : list Reference :=
  List.filter
    (fun ref => isHelperCall ref
                && String.eqb (tgt_path (ref_target ref)) helperName)
    (chart_references chart).

(** ** The other operations of [graph-builder.ts] *)

Definition touches (fileNodeId : string) (edge : GraphEdge) : bool :=
  String.eqb (edge_source edge) fileNodeId
  || String.eqb (edge_target edge) fileNodeId.

(** [connectedNodeIds]: the file node and both ends of every kept edge. *)
Definition connectedIds (fileNodeId : string) (connectedEdges : list GraphEdge)
  : gset string :=
  fold_left
    (fun ids edge => ids ∪ {[edge_source edge]} ∪ {[edge_target edge]})
    connectedEdges {[fileNodeId]}.

Definition filterGraphByFile (graphData : GraphData) (filePath : string)
  : GraphData :=
  let fileNodeId := "file:" +:+ filePath in
  let connectedEdges :=
    List.filter (touches fileNodeId) (graph_edges graphData) in
  let connectedNodeIds := connectedIds fileNodeId connectedEdges in
  let filteredNodes :=
    List.filter (fun node => bool_decide (node_id node ∈ connectedNodeIds))
                (graph_nodes graphData) in
  {| graph_nodes := filteredNodes; graph_edges := connectedEdges |}.

Definition nodeTypeName (t : NodeType) : string :=
  match t with
  | NT_file => "file"
  | NT_value => "value"
  | NT_chart => "chart"
  | NT_release => "release"
  | NT_helper => "helper"
  end.

(** [const count = counts.get(key) || 0; counts.set(key, count + 1)] *)
Fixpoint countUp (key : string) (counts : list (string * nat))
  : list (string * nat) :=
  match counts with
  | [] => [(key, 0 + 1)]
  | (k, count) :: rest =>
      if String.eqb k key then (k, count + 1) :: rest
      else (k, count) :: countUp key rest
  end.

Record GraphStats := {
  totalNodes : nat;
  totalEdges : nat;
  nodesByType : list (string * nat);
  edgesByType : list (string * nat);
}.

(** [edge.data?.referenceType || 'unknown'] *)
Definition edgeTypeName (edge : GraphEdge) : string :=
  match edge_data edge with
  | Some data => referenceTypeName (data_referenceType data)
  | None => "unknown"
  end.

Definition getGraphStats (graphData : GraphData) : GraphStats :=
  let nodesByType :=
    fold_left (fun counts node => countUp (nodeTypeName (node_type node)) counts)
              (graph_nodes graphData) [] in
  let edgesByType :=
    fold_left (fun counts edge => countUp (edgeTypeName edge) counts)
              (graph_edges graphData) [] in
  {| totalNodes := length (graph_nodes graphData);
     totalEdges := length (graph_edges graphData);
     nodesByType := nodesByType;
     edgesByType := edgesByType |}.

(** [calculateLayout], kept for compatibility. *)
Definition calculateLayout `{Host} (nodes : list GraphNode)
    (edges : list GraphEdge) : list GraphNode :=
  autoOrganizeLayout nodes edges.


(** ** Vocabulary of the further properties *)

Definition isNullish (v : JsValue) : bool :=
  match v with
  | JUndefined | JNull => true
  | _ => false
  end.

(** The [HelmFile] that [parseHelmChart] makes of an entry of [files]. *)
Definition toHelmFile (entry : string * string) : HelmFile :=
  let path := normalizePath entry.1 in
  {| file_path := path;
     file_name := getFileName path;
     file_type := determineFileType path;
     file_content := entry.2 |}.

Definition isRelevantEntry (entry : string * string) : bool :=
  isRelevantFile (normalizePath entry.1).

Definition entryType (entry : string * string) : FileType :=
  determineFileType (normalizePath entry.1).

Definition isChartEntry (entry : string * string) : bool :=
  bool_decide (entryType entry = FT_chart).

Definition isValuesEntry (entry : string * string) : bool :=
  bool_decide (entryType entry = FT_values).

(** The last element of a list, if any. *)
Definition lastOf {A} (l : list A) : option A := List.last (map Some l) None.


(** A pattern takes what it matches from the start of the subject, and
    takes at least one character. *)
Definition takesPrefix (re : Pattern) : Prop :=
  forall s m, re s = Some m ->
              matched m <> EmptyString /\ exists rest, s = matched m +:+ rest.

(** [r] is what is left of [s] after some prefix. *)
Definition suffixOf (r s : string) : Prop := exists x, s = x +:+ r.


(** The reference [r] stands on line [n], and its expression is a
    nonempty piece of the text [line]. *)
Definition pointsAt (line : string) (n : nat) (r : Reference) : Prop :=
  ref_line r = Some n
  /\ src_line (ref_source r) = Some n
  /\ ref_expression r <> EmptyString
  /\ exists before after, line = before +:+ ref_expression r +:+ after.

(** A character that starts no expression. *)
Definition isPlain (c : ascii) : bool :=
  negb (Ascii.eqb c "." || Ascii.eqb c "{").


(** The references that [createEdge] turns into an edge. *)
Definition isDrawn (chart : HelmChart) (ref : Reference) : bool :=
  match ref_type ref with
  | RT_values | RT_include | RT_template | RT_release => true
  | RT_chart =>
      match List.find isChartFile (chart_files chart) with
      | Some _ => true
      | None => false
      end
  | RT_files | RT_capabilities => false
  end.

Definition hasNodeType (t : NodeType) (node : GraphNode) : bool :=
  bool_decide (node_type node = t).


(** What holds of every entry that [flattenValues] pushes. *)
Definition wellFormedKey (e : ValueKey) : Prop :=
  vk_fullPath e = ".Values." +:+ vk_path e
  /\ vk_type e = getValueType (vk_value e)
  /\ vk_type e <> VT_null
  /\ vk_value e <> JUndefined.

Definition isScalar (v : JsValue) : bool :=
  match v with
  | JArr _ | JObj _ => false
  | _ => true
  end.


(** [counts[key] || 0] on the counts of [getGraphStats]. *)
Fixpoint countOf (key : string) (counts : list (string * nat)) : nat :=
  match counts with
  | [] => 0
  | (k, count) :: rest => if String.eqb k key then count else countOf key rest
  end.

(** A node as the caller may have moved it: the same but for [position]. *)
Definition moveTo (x y : float) (node : GraphNode) : GraphNode :=
  {| node_id := node_id node;
     node_type := node_type node;
     node_position := {| pos_x := x; pos_y := y |};
     node_data := node_data node |}.

Definition sampleNodes : list GraphNode :=
  [ createValueNode "image.tag" "tag" 0 0;
    createHelperNode "mychart.name" 0 0;
    createReleaseNode 0 0 ].


(** A path with its backslashes converted, as [normalizePath] does. *)
Definition slashed (path : string) : string :=
  mapChars (fun c => if Ascii.eqb c "\" then "/"%char else c) path.


(** [String(v)] returns for [v]: neither [v] nor, through arrays, an
    element of it is a mapping with an own property [toString]. *)
Fixpoint stringable (v : JsValue) : bool :=
  match v with
  | JArr items => forallb stringable items
  | JObj props => negb (hasOwn props "toString")
  | _ => true
  end.

(** The properties that [parseChartYaml] and [parseDependencies] convert
    to text. *)
Definition chartFields : list Field :=
  [F_name; F_version; F_apiVersion; F_description; F_type; F_appVersion].

Definition dependencyFields : list Field :=
  [F_name; F_version; F_repository; F_condition; F_alias].

(** An entry of [dependencies] that can be read: not [null] or
    [undefined], and with properties that can be converted. *)
Definition readableDependency (d : JsValue) : bool :=
  negb (isNullish d)
  && forallb (fun f => stringable (field d f)) dependencyFields.

(** A document that [parseChartYaml] can read. *)
Definition readableChart (parsed : JsValue) : bool :=
  negb (isNullish parsed)
  && forallb (fun f => stringable (field parsed f)) chartFields
  && match field parsed F_dependencies with
     | JArr items => forallb readableDependency items
     | _ => true
     end.


(** A chart whose [Chart.yaml] is an empty file. *)
Definition emptyChartFiles : list (string * string) :=
  [ ("/mychart/values.yaml", "replicaCount: 1");
    ("/mychart/Chart.yaml", EmptyString);
    ("/mychart/templates/deploy.yaml", "replicas: {{ .Values.replicaCount }}") ].


(** The method of a [.Files] expression: the word after [.Files.]. *)
Definition filesMethod (expression : string) : string :=
  fst (span isLetter (dropString 7 expression)).

(** The key that tells the references of one type apart: the target path
    and, for a [files] reference, the method with the quoted argument,
    which is the target path when the expression has one. *)
Definition subKey (r : Reference) : string :=
  match ref_type r with
  | RT_files =>
      filesMethod (ref_expression r) +:+ ":"
        +:+ (if includes (ref_expression r) (String dquote EmptyString)
             then tgt_path (ref_target r) else EmptyString)
  | _ => tgt_path (ref_target r)
  end.


(* ===================================================================== *)
(** * Part II. Properties                                                  *)
(* ===================================================================== *)

(** ** Reference identifiers *)

Lemma mkReference_id filePath lineNum t key tt path expression :
  ref_id (mkReference filePath lineNum t key tt path expression)
  = referenceId filePath lineNum t key.
Proof. reflexivity. Qed.

(** The claim C1 as it was stated fails where one expression stands twice
    on a line: the two references, both with target path [a.b], carry the
    same [id]. *)
Lemma repeated_expression_shares_id :
  exists r1 r2,
    extractValuesReferences repeatedValueLine "templates/deploy.yaml" 1
    = [r1; r2]
    /\ tgt_path (ref_target r1) = "a.b"
    /\ tgt_path (ref_target r2) = "a.b"
    /\ ref_expression r1 = ".Values.a.b"
    /\ ref_expression r2 = ".Values.a.b"
    /\ ref_id r1 = ref_id r2.
Proof.
  do 2 eexists. split; [reflexivity|]. repeat split.
Qed.

Lemma append_cancel_l (p a b : string) : p +:+ a = p +:+ b -> a = b.
Proof.
  induction p as [|c p IH]; [auto|].
  intros Heq. apply IH. now injection Heq.
Qed.

Lemma referenceTypeName_key_inj t1 key1 t2 key2 :
  referenceTypeName t1 +:+ ":" +:+ key1 = referenceTypeName t2 +:+ ":" +:+ key2 ->
  t1 = t2 /\ key1 = key2.
Proof.
  destruct t1, t2; intros Heq; try discriminate Heq;
    (split; [reflexivity | now injection Heq]).
Qed.

Lemma referenceId_inj filePath lineNum t1 key1 t2 key2 :
  referenceId filePath lineNum t1 key1 = referenceId filePath lineNum t2 key2
  <-> t1 = t2 /\ key1 = key2.
Proof.
  split; [|now intros [-> ->]].
  unfold referenceId. intros Heq.
  apply append_cancel_l in Heq.
  apply (append_cancel_l ":") in Heq.
  apply append_cancel_l in Heq.
  apply (append_cancel_l ":") in Heq.
  now apply referenceTypeName_key_inj.
Qed.

(** ** Relevance filter *)

(** C4. [isRelevantFile] admits a hidden file under [templates/] and a
    subchart file under [charts/.../templates/]: both exclusions stand
    after the [return true] of the template test and are never reached by
    such a path. The chart assembler keeps both files. *)
Theorem isRelevantFile_admits_hidden_and_subchart :
  isRelevantFile "templates/.hidden.yaml" = true
  /\ isRelevantFile "charts/sub/templates/deploy.yaml" = true
  /\ isRelevantFile "charts/sub/Chart.yaml" = true
  /\ (forall `{Host} (content : string),
        exists chart,
          parseHelmChart [("/mychart/templates/.hidden.yaml", content);
                          ("/mychart/charts/sub/templates/deploy.yaml", content)]
          = Normal chart
          /\ map file_path (chart_files chart)
             = ["templates/.hidden.yaml"; "charts/sub/templates/deploy.yaml"]).
Proof.
  repeat split; try reflexivity.
  intros H content. eexists. split; reflexivity.
Qed.

(** ** Drop validation *)

(** C8. [handleDrop] hands a drop to the parser although no dropped path
    has the file name [chart.yaml] or [chart.yml]: the test is on the end of
    the whole lower-cased path, and [notchart.yaml] ends in [chart.yaml]. *)
Theorem handleDrop_accepts_without_chart_file :
  let files := [("/mychart/notchart.yaml", "a: 1")] in
  hasChartFileName (map fst files) = false
  /\ handleDrop files = FilesDropped files.
Proof. split; reflexivity. Qed.

(** What does hold: a drop with a chart file name is accepted. *)
Lemma length_append (a b : string) :
  String.length (a +:+ b) = String.length a + String.length b.
Proof. induction a as [|c a IH]; simpl; [reflexivity | now rewrite IH]. Qed.

Lemma dropString_append (a b : string) :
  dropString (String.length a) (a +:+ b) = b.
Proof. induction a as [|c a IH]; simpl; [now destruct b | exact IH]. Qed.

Lemma endsWith_append (a b : string) : endsWith (a +:+ b) b = true.
Proof.
  unfold endsWith. rewrite length_append.
  replace (String.length a + String.length b - String.length b)
    with (String.length a) by lia.
  rewrite dropString_append, String.eqb_refl, andb_true_r.
  apply Nat.leb_le. lia.
Qed.

Lemma toLowerCase_append (a b : string) :
  toLowerCase (a +:+ b) = toLowerCase a +:+ toLowerCase b.
Proof. induction a as [|c a IH]; simpl; [reflexivity | now rewrite IH]. Qed.

Lemma split_nonempty (sep : ascii) (s : string) : split sep s <> [].
Proof.
  destruct s as [|c s]; simpl; [discriminate|].
  destruct (Ascii.eqb c sep); [discriminate|].
  destruct (split sep s); discriminate.
Qed.

Lemma split_last_suffix (sep : ascii) (s : string) :
  exists pre,
    s = pre +:+ List.last (split sep s) EmptyString
    /\ (forall h, split sep s = [h] -> pre = EmptyString).
Proof.
  induction s as [|c s (pre & Hs & Hone)].
  - exists EmptyString. split; [reflexivity | auto].
  - simpl. destruct (Ascii.eqb c sep).
    + exists (String c pre). split.
      * destruct (split sep s) as [|h t] eqn:E; [now apply split_nonempty in E|].
        change (List.last (EmptyString :: h :: t) EmptyString)
          with (List.last (h :: t) EmptyString).
        rewrite Hs at 1. reflexivity.
      * intros h Hh. injection Hh as _ Hh. now apply split_nonempty in Hh.
    + destruct (split sep s) as [|h [|h' t]] eqn:E.
      * now apply split_nonempty in E.
      * exists EmptyString. split; [|auto].
        rewrite (Hone h eq_refl) in Hs. simpl in *. now rewrite Hs.
      * exists (String c pre). split; [|discriminate].
        change (List.last (String c h :: h' :: t) EmptyString)
          with (List.last (h :: h' :: t) EmptyString).
        rewrite Hs at 1. reflexivity.
Qed.

Lemma hasChartFileName_accepted (paths : list string) :
  hasChartFileName paths = true -> hasChartYaml paths = true.
Proof.
  unfold hasChartFileName, hasChartYaml. rewrite !existsb_exists.
  intros (path & Hin & Hname). exists path. split; [exact Hin|].
  destruct (split_last_suffix "/" path) as (pre & Hpath & _).
  fold (getFileName path) in Hpath.
  rewrite Hpath at 1 2. rewrite toLowerCase_append.
  apply orb_true_iff in Hname as [Hn|Hn]; apply String.eqb_eq in Hn;
    rewrite Hn, endsWith_append; [reflexivity | apply orb_true_r].
Qed.

(** ** Arrays under a change of representation *)

Lemma insertBy_map {A B} (f : A -> B) (cmp : A -> A -> Z) (cmp' : B -> B -> Z) :
  (forall a b, cmp' (f a) (f b) = cmp a b) ->
  forall x l, insertBy cmp' (f x) (map f l) = map f (insertBy cmp x l).
Proof.
  intros Hcmp x l. induction l as [|y l IH]; simpl; [reflexivity|].
  rewrite Hcmp. destruct (0 <? cmp x y)%Z; simpl; [now rewrite IH | reflexivity].
Qed.

Lemma sortBy_map {A B} (f : A -> B) (cmp : A -> A -> Z) (cmp' : B -> B -> Z) :
  (forall a b, cmp' (f a) (f b) = cmp a b) ->
  forall l, sortBy cmp' (map f l) = map f (sortBy cmp l).
Proof.
  intros Hcmp l. induction l as [|x l IH]; simpl; [reflexivity|].
  rewrite IH. now apply insertBy_map.
Qed.

Lemma insertBy_length {A} (cmp : A -> A -> Z) x l :
  length (insertBy cmp x l) = S (length l).
Proof.
  induction l as [|y l IH]; simpl; [reflexivity|].
  destruct (0 <? cmp x y)%Z; simpl; [now rewrite IH | reflexivity].
Qed.

Lemma sortBy_length {A} (cmp : A -> A -> Z) (l : list A) :
  length (sortBy cmp l) = length l.
Proof.
  induction l as [|x l IH]; simpl; [reflexivity|].
  now rewrite insertBy_length, IH.
Qed.

Lemma forEachIndexed_map {A B St} (f : A -> B)
    (g : St -> A -> nat -> St) (g' : St -> B -> nat -> St) :
  (forall s a i, g' s (f a) i = g s a i) ->
  forall l i s, forEachIndexed g' (map f l) i s = forEachIndexed g l i s.
Proof.
  intros Hg l. induction l as [|a l IH]; intros i s; simpl; [reflexivity|].
  now rewrite Hg, IH.
Qed.

Lemma fold_left_map_state {A B St} (f : A -> B)
    (g : St -> A -> St) (g' : St -> B -> St) :
  (forall s a, g' s (f a) = g s a) ->
  forall l s, fold_left g' (map f l) s = fold_left g l s.
Proof.
  intros Hg l. induction l as [|a l IH]; intros s; simpl; [reflexivity|].
  now rewrite Hg, IH.
Qed.

Lemma fold_left_pointwise {A St} (g g' : St -> A -> St) :
  (forall s a, g' s a = g s a) ->
  forall l s, fold_left g' l s = fold_left g l s.
Proof.
  intros Hg l. induction l as [|a l IH]; intros s; simpl; [reflexivity|].
  now rewrite Hg, IH.
Qed.

Lemma filter_map_commute {A B} (f : A -> B) (p : B -> bool) (l : list A) :
  List.filter p (map f l) = map f (List.filter (fun a => p (f a)) l).
Proof.
  induction l as [|a l IH]; simpl; [reflexivity|].
  destruct (p (f a)); simpl; now rewrite IH.
Qed.

Lemma iter_ext {A} (f g : A -> A) (n : nat) (a : A) :
  (forall x, f x = g x) -> Nat.iter n f a = Nat.iter n g a.
Proof.
  intros Hfg. induction n as [|n IH]; simpl; [reflexivity|].
  now rewrite IH, Hfg.
Qed.

(** ** The layout reads identity, type and data of a node *)

Section LayoutReads.
Context `{Host}.

(** [f] may change the position of a node and nothing else. *)
Variable f : GraphNode -> GraphNode.
Hypothesis f_id : forall n, node_id (f n) = node_id n.
Hypothesis f_type : forall n, node_type (f n) = node_type n.
Hypothesis f_data : forall n, node_data (f n) = node_data n.

Lemma columnIndex_reads n : columnIndex (f n) = columnIndex n.
Proof. unfold columnIndex. now rewrite f_type, f_data. Qed.

Lemma groupIntoColumns_reads nodes :
  groupIntoColumns (map f nodes) = map (map f) (groupIntoColumns nodes).
Proof.
  assert (Hcol : forall k,
    List.filter (fun node => columnIndex node =? k) (map f nodes)
    = map f (List.filter (fun node => columnIndex node =? k) nodes)).
  { intros k. rewrite filter_map_commute. f_equal.
    apply List.filter_ext. intros n. now rewrite columnIndex_reads. }
  unfold groupIntoColumns. simpl. now rewrite !Hcol.
Qed.

Lemma sort_by_connections_reads adj col :
  sortBy (byConnections adj) (map f col)
  = map f (sortBy (byConnections adj) col).
Proof.
  apply sortBy_map. intros a b. unfold byConnections. now rewrite !f_id.
Qed.

Lemma assignInitial_reads columns :
  assignInitial (map (map f) columns) = assignInitial columns.
Proof.
  unfold assignInitial. apply forEachIndexed_map.
  intros s col i. apply forEachIndexed_map.
  intros s' n j. now rewrite f_id.
Qed.

Lemma barycenterOf_reads adj pos n :
  barycenterOf adj pos (f n) = barycenterOf adj pos n.
Proof. unfold barycenterOf. now rewrite f_id. Qed.

Lemma optimizeColumnOrder_reads col pos adj :
  optimizeColumnOrder (map f col) pos adj = optimizeColumnOrder col pos adj.
Proof.
  unfold optimizeColumnOrder.
  set (F := fun entry : GraphNode * float => (f entry.1, entry.2)).
  assert (Hbary :
    map (fun node => (node, barycenterOf adj pos node)) (map f col)
    = map F (map (fun node => (node, barycenterOf adj pos node)) col)).
  { rewrite !map_map. apply map_ext. intros n. unfold F. simpl.
    now rewrite barycenterOf_reads. }
  rewrite Hbary.
  rewrite (sortBy_map F (fun a b => signOf (a.2 - b.2)%float)
                        (fun a b => signOf (a.2 - b.2)%float))
    by reflexivity.
  assert (Hx :
    match map f col with
    | first :: _ => numberOrZero (pos_x <$> pos !! node_id first)
    | [] => 0%float
    end
    = match col with
      | first :: _ => numberOrZero (pos_x <$> pos !! node_id first)
      | [] => 0%float
      end).
  { destruct col; simpl; [reflexivity | now rewrite f_id]. }
  rewrite Hx. apply forEachIndexed_map.
  intros s entry i. unfold F. simpl. now rewrite f_id.
Qed.

Lemma sweep_reads columns adj pos :
  sweep (map (map f) columns) adj pos = sweep columns adj pos.
Proof.
  unfold sweep. apply fold_left_pointwise. intros s k.
  change (@nil GraphNode) with (map f []) at 1.
  now rewrite map_nth, optimizeColumnOrder_reads.
Qed.

Lemma pushToGroup_reads key n groups :
  pushToGroup key (f n) (mapGroups f groups)
  = mapGroups f (pushToGroup key n groups).
Proof.
  induction groups as [|[k g] groups IH]; simpl; [reflexivity|].
  destruct (String.eqb k key); simpl.
  - now rewrite map_app.
  - now rewrite IH.
Qed.

Lemma groupValueNodesByPrefix_reads nodes :
  groupValueNodesByPrefix (map f nodes)
  = map (map f) (groupValueNodesByPrefix nodes).
Proof.
  unfold groupValueNodesByPrefix.
  set (step := fun groups node =>
         let path := default EmptyString (data_valuePath (node_data node)) in
         let first := List.hd EmptyString (split "." path) in
         let topLevel := if isEmpty first then "other" else first in
         pushToGroup topLevel node groups).
  assert (Hfold : forall l acc,
    fold_left step (map f l) (mapGroups f acc) = mapGroups f (fold_left step l acc)).
  { induction l as [|n l IH]; intros acc; simpl; [reflexivity|].
    rewrite <- IH. f_equal. unfold step. simpl.
    rewrite f_data. apply pushToGroup_reads. }
  specialize (Hfold nodes []). simpl in Hfold. rewrite Hfold.
  unfold mapGroups.
  rewrite (sortBy_map (fun kg => (kg.1, map f kg.2))
                      (fun a b => localeCompare a.1 b.1)
                      (fun a b => localeCompare a.1 b.1))
    by reflexivity.
  rewrite !map_map. reflexivity.
Qed.

Lemma byDepthThenPath_reads a b :
  byDepthThenPath (f a) (f b) = byDepthThenPath a b.
Proof. unfold byDepthThenPath. now rewrite !f_data. Qed.

Lemma indentOf_reads n : indentOf (f n) = indentOf n.
Proof. unfold indentOf. now rewrite f_data. Qed.

Lemma layoutValueGroups_reads valueNodes pos :
  layoutValueGroups (map f valueNodes) pos = layoutValueGroups valueNodes pos.
Proof.
  unfold layoutValueGroups.
  destruct valueNodes as [|n valueNodes]; [reflexivity|].
  change (map f (n :: valueNodes)) with (f n :: map f valueNodes).
  cbv iota. change (f n :: map f valueNodes) with (map f (n :: valueNodes)).
  rewrite groupValueNodesByPrefix_reads. f_equal.
  apply fold_left_map_state. intros [st y] group.
  rewrite (sortBy_map f byDepthThenPath byDepthThenPath)
    by apply byDepthThenPath_reads.
  rewrite length_map. f_equal.
  apply forEachIndexed_map. intros s a i.
  now rewrite f_id, indentOf_reads.
Qed.

Lemma columnExtent_reads col pos :
  columnExtent (map f col) pos = columnExtent col pos.
Proof.
  unfold columnExtent. apply fold_left_map_state.
  intros s a. now rewrite f_id.
Qed.

Lemma centerColumnsVertically_reads columns pos :
  centerColumnsVertically (map (map f) columns) pos
  = centerColumnsVertically columns pos.
Proof.
  unfold centerColumnsVertically.
  assert (Hmax : forall init,
    fold_left
      (fun maxHeight col =>
         match col with
         | [] => maxHeight
         | _ => let (minY, maxY) := columnExtent col pos in
                Math_max maxHeight (maxY - minY)
         end) (map (map f) columns) init
    = fold_left
        (fun maxHeight col =>
           match col with
           | [] => maxHeight
           | _ => let (minY, maxY) := columnExtent col pos in
                  Math_max maxHeight (maxY - minY)
           end) columns init).
  { intros init. apply fold_left_map_state. intros s col.
    destruct col as [|n col]; [reflexivity|].
    change (map f (n :: col)) with (f n :: map f col). cbv iota.
    change (f n :: map f col) with (map f (n :: col)).
    now rewrite columnExtent_reads. }
  rewrite Hmax. apply fold_left_map_state. intros s col.
  destruct col as [|n col]; [reflexivity|].
  change (map f (n :: col)) with (f n :: map f col). cbv iota.
  change (f n :: map f col) with (map f (n :: col)).
  rewrite columnExtent_reads.
  destruct (columnExtent (n :: col) s) as [minY maxY].
  apply fold_left_map_state. intros s' a. now rewrite f_id.
Qed.

Lemma computePositions_reads nodes edges :
  computePositions (map f nodes) edges = computePositions nodes edges.
Proof.
  unfold computePositions.
  rewrite groupIntoColumns_reads.
  set (adj := buildAdjacency edges).
  assert (Hsorted :
    map (sortBy (byConnections adj)) (map (map f) (groupIntoColumns nodes))
    = map (map f) (map (sortBy (byConnections adj)) (groupIntoColumns nodes))).
  { rewrite !map_map. apply map_ext. intros col.
    apply sort_by_connections_reads. }
  rewrite Hsorted.
  set (columns := map (sortBy (byConnections adj)) (groupIntoColumns nodes)).
  rewrite assignInitial_reads.
  rewrite (iter_ext (sweep (map (map f) columns) adj) (sweep columns adj))
    by (intros x; apply sweep_reads).
  change (@nil GraphNode) with (map f []) at 1.
  rewrite map_nth, layoutValueGroups_reads.
  apply centerColumnsVertically_reads.
Qed.

End LayoutReads.

(** ** Layout: frame and idempotence *)

Section LayoutProperties.
Context `{Host}.

Lemma withPosition_id pos n : node_id (withPosition pos n) = node_id n.
Proof. reflexivity. Qed.

Lemma withPosition_type pos n : node_type (withPosition pos n) = node_type n.
Proof. reflexivity. Qed.

Lemma withPosition_data pos n : node_data (withPosition pos n) = node_data n.
Proof. reflexivity. Qed.

Lemma withPosition_twice pos n :
  withPosition pos (withPosition pos n) = withPosition pos n.
Proof.
  unfold withPosition. simpl. f_equal.
  now destruct (pos !! node_id n).
Qed.

Lemma buildGraphData_edges chart :
  graph_edges (buildGraphData chart) = buildEdges chart.
Proof. reflexivity. Qed.

Lemma buildGraphData_nodes chart :
  graph_nodes (buildGraphData chart)
  = autoOrganizeLayout (buildNodes chart) (buildEdges chart).
Proof. reflexivity. Qed.

Lemma autoOrganizeLayout_ids nodes edges :
  map node_id (autoOrganizeLayout nodes edges) = map node_id nodes.
Proof. unfold autoOrganizeLayout. rewrite map_map. reflexivity. Qed.

(** C9. Layout keeps the number and the order of the nodes, and the
    [id], the [type] and the [data] of each; only [position] can differ.
    The edges are an input that the layout returns nothing of:
    [buildGraphData] hands on the edges it built before the layout. *)
Theorem autoOrganizeLayout_frame (nodes : list GraphNode)
    (edges : list GraphEdge) :
  length (autoOrganizeLayout nodes edges) = length nodes
  /\ Forall2
       (fun node node' =>
          node_id node' = node_id node
          /\ node_type node' = node_type node
          /\ node_data node' = node_data node)
       nodes (autoOrganizeLayout nodes edges)
  /\ (forall chart,
        graph_edges (buildGraphData chart) = buildEdges chart
        /\ graph_nodes (buildGraphData chart)
           = autoOrganizeLayout (buildNodes chart) (buildEdges chart)).
Proof.
  split; [|split].
  - unfold autoOrganizeLayout. apply length_map.
  - unfold autoOrganizeLayout.
    generalize (computePositions nodes edges). intros pos.
    induction nodes as [|n nodes IH]; simpl; constructor; auto.
  - intros chart. split; reflexivity.
Qed.

(** C7. Laying out the output of the layout, with the same edges, gives
    that output again: the positions are computed from the order, the
    identities, the types and the data of the nodes and from the edges,
    none of which the first run changed. Both sorts are insertions into a
    sorted list, so equal keys keep their order. *)
Theorem autoOrganizeLayout_idempotent (nodes : list GraphNode)
    (edges : list GraphEdge) :
  autoOrganizeLayout (autoOrganizeLayout nodes edges) edges
  = autoOrganizeLayout nodes edges.
Proof.
  set (pos := computePositions nodes edges).
  assert (Hsame :
    computePositions (map (withPosition pos) nodes) edges = pos).
  { unfold pos. now apply computePositions_reads. }
  unfold autoOrganizeLayout. fold pos. rewrite Hsame, map_map.
  apply map_ext. intros n. apply withPosition_twice.
Qed.

End LayoutProperties.

(** ** Chart assembly: what is caught and what is not *)

Section Assembly.
Context `{Host}.

(** Malformed values text is caught: the values are the empty mapping. *)
Lemma parseValuesYaml_malformed (content : string) (e : JsError) :
  yaml_load content = Throw e ->
  parseValuesYaml content = {| raw := JObj []; flatKeys := [] |}.
Proof. intros Hload. unfold parseValuesYaml. now rewrite Hload. Qed.

(** Without a chart file the default stub is used. *)
Lemma parseHelmChart_values_only (content : string) :
  exists chart,
    parseHelmChart [("/mychart/values.yaml", content)] = Normal chart
    /\ chart_chartYaml chart = defaultChartYaml
    /\ chart_name chart = "unknown-chart"
    /\ chart_version chart = "0.0.0".
Proof. eexists. split; [reflexivity|]. repeat split. Qed.

(** C2. The assembler does not survive a malformed [Chart.yaml]: when
    [yaml.load] throws on the text of the chart file, [parseChartYaml]
    has no [try] around it and [parseHelmChart] ends with that
    exception, where the values file next to it is read inside
    [try]/[catch]. *)
Theorem parseHelmChart_throws_on_malformed_chart (content : string)
    (e : JsError) :
  yaml_load content = Throw e ->
  parseChartYaml content = Throw e
  /\ parseHelmChart [("/mychart/Chart.yaml", content)] = Throw e.
Proof.
  intros Hload.
  assert (Hchart : parseChartYaml content = Throw e).
  { unfold parseChartYaml. now rewrite Hload. }
  split; [exact Hchart|].
  unfold parseHelmChart.
  change (parseEntries initialParseState [("/mychart/Chart.yaml", content)])
    with (let* st' := (let* cy := parseChartYaml content in
                       Normal {| st_helmFiles :=
                                   [{| file_path := "Chart.yaml";
                                       file_name := "Chart.yaml";
                                       file_type := FT_chart;
                                       file_content := content |}];
                                 st_chartYaml := Some cy;
                                 st_values := st_values initialParseState;
                                 st_allReferences := [];
                                 st_allHelpers := [] |}) in
          Normal st').
  now rewrite Hchart.
Qed.

(** An empty chart file is as fatal: [yaml.load] gives [undefined], and
    reading [parsed.name] throws. *)
Lemma parseChartYaml_throws_on_undefined (content : string) :
  yaml_load content = Normal JUndefined ->
  parseChartYaml content = Throw TypeError.
Proof. intros Hload. unfold parseChartYaml. now rewrite Hload. Qed.

End Assembly.

Lemma parseHelmChart_throws_on_malformed_chart_witness :
  @yaml_load sampleHost unclosedChartYaml = Throw YAMLException
  /\ @parseChartYaml sampleHost unclosedChartYaml = Throw YAMLException
  /\ @parseHelmChart sampleHost [("/mychart/Chart.yaml", unclosedChartYaml)]
     = Throw YAMLException.
Proof.
  split; [reflexivity|].
  apply (@parseHelmChart_throws_on_malformed_chart sampleHost).
  reflexivity.
Defined.

(** ** Where references come from *)

Lemma Forall_map_mkReference {A} filePath lineNum t tt
    (key path expression : A -> string) (l : list A) :
  Forall (fromFile filePath)
    (map (fun m => mkReference filePath lineNum t (key m) tt (path m)
                               (expression m)) l).
Proof. apply Forall_map, Forall_forall. intros m _. reflexivity. Qed.

Lemma extractLineReferences_fromFile filePath lineIndex line :
  Forall (fromFile filePath) (extractLineReferences filePath lineIndex line).
Proof.
  unfold extractLineReferences, extractValuesReferences,
    extractIncludeReferences, extractChartReferences,
    extractReleaseReferences, extractFilesReferences,
    extractCapabilitiesReferences.
  repeat apply Forall_app_2;
    apply Forall_map, Forall_forall; intros m _; reflexivity.
Qed.

Lemma extractReferences_fromFile content filePath :
  Forall (fromFile filePath) (extractReferences content filePath).
Proof.
  unfold extractReferences. generalize 0 as lineIndex.
  induction (split newline content) as [|line rest IH]; intros lineIndex;
    simpl; [constructor|].
  apply Forall_app_2; [apply extractLineReferences_fromFile | apply IH].
Qed.

Lemma referencesHaveFiles_more refs files file :
  referencesHaveFiles refs files -> referencesHaveFiles refs (files ++ [file]).
Proof.
  unfold referencesHaveFiles. intros Hrefs.
  eapply Forall_impl; [exact Hrefs|].
  intros r (f & Hin & Hpath & Hsrc). exists f.
  split; [|auto]. apply elem_of_app. now left.
Qed.

Lemma referencesHaveFiles_extracted refs files file :
  isSourceFile file = true ->
  referencesHaveFiles refs files ->
  referencesHaveFiles
    (refs ++ extractReferences (file_content file) (file_path file))
    (files ++ [file]).
Proof.
  intros Hsrc Hrefs. apply Forall_app_2.
  - now apply referencesHaveFiles_more.
  - eapply Forall_impl; [apply extractReferences_fromFile|].
    intros r Hr. exists file. split; [|split; [now rewrite Hr | exact Hsrc]].
    apply elem_of_app. right. now apply list_elem_of_singleton.
Qed.

Section Sources.
Context `{Host}.

Lemma parseEntry_referencesHaveFiles st entry st' :
  referencesHaveFiles (st_allReferences st) (st_helmFiles st) ->
  parseEntry st entry = Normal st' ->
  referencesHaveFiles (st_allReferences st') (st_helmFiles st').
Proof.
  intros Hinv. destruct entry as [rawPath content]. unfold parseEntry.
  destruct (negb (isRelevantFile (normalizePath rawPath))).
  { intros [= <-]. exact Hinv. }
  set (path := normalizePath rawPath).
  destruct (determineFileType path) eqn:Htype.
  - destruct (parseChartYaml content); [|discriminate].
    intros [= <-]. simpl. now apply referencesHaveFiles_more.
  - intros [= <-]. simpl. now apply referencesHaveFiles_more.
  - intros [= <-]. simpl.
    apply (referencesHaveFiles_extracted _ _
             {| file_path := path; file_name := getFileName path;
                file_type := FT_template; file_content := content |});
      [reflexivity | exact Hinv].
  - intros [= <-]. simpl.
    apply (referencesHaveFiles_extracted _ _
             {| file_path := path; file_name := getFileName path;
                file_type := FT_helper; file_content := content |});
      [reflexivity | exact Hinv].
  - intros [= <-]. simpl.
    apply (referencesHaveFiles_extracted _ _
             {| file_path := path; file_name := getFileName path;
                file_type := FT_notes; file_content := content |});
      [reflexivity | exact Hinv].
  - intros [= <-]. simpl. now apply referencesHaveFiles_more.
Qed.

Lemma parseEntries_referencesHaveFiles files : forall st st',
  referencesHaveFiles (st_allReferences st) (st_helmFiles st) ->
  parseEntries st files = Normal st' ->
  referencesHaveFiles (st_allReferences st') (st_helmFiles st').
Proof.
  induction files as [|entry files IH]; intros st st' Hinv; simpl.
  - intros [= <-]. exact Hinv.
  - destruct (parseEntry st entry) as [st1|] eqn:Hentry; [|discriminate].
    simpl. apply IH. eapply parseEntry_referencesHaveFiles; eauto.
Qed.

Lemma parseHelmChart_referencesHaveFiles files chart :
  parseHelmChart files = Normal chart ->
  referencesHaveFiles (chart_references chart) (chart_files chart).
Proof.
  unfold parseHelmChart.
  destruct (parseEntries initialParseState files) as [st|] eqn:Hst;
    [|discriminate].
  intros [= <-]. simpl.
  eapply parseEntries_referencesHaveFiles; [|exact Hst]. constructor.
Qed.

Lemma createEdge_source ref chart e :
  createEdge ref chart = Some e ->
  edge_source e = "file:" +:+ src_file (ref_source ref).
Proof.
  unfold createEdge.
  destruct (match ref_type ref with
            | RT_values => _ | RT_include => _ | RT_template => _
            | RT_chart => _ | RT_release => _
            | RT_files => _ | RT_capabilities => _
            end) as [targetId|]; [|discriminate].
  destruct (isEmpty targetId); [discriminate|].
  now intros [= <-].
Qed.

Lemma source_file_has_node chart file :
  file ∈ chart_files chart ->
  isSourceFile file = true ->
  createFileNode (file_path file) (file_name file) (file_type file) 0 0
    ∈ buildNodes chart.
Proof.
  intros Hin Hsrc. unfold buildNodes. apply elem_of_app. left.
  apply list_elem_of_fmap. exists file. split; [reflexivity|].
  apply list_elem_of_In, filter_In. split; [|exact Hsrc].
  now apply list_elem_of_In.
Qed.

(** C10. In the graph of a chart that [parseHelmChart] returned, the
    source of every edge is [file:<path>] for a template, helper or notes
    file of the chart, and a file node with that identifier is among the
    nodes. *)
Theorem edge_sources_are_file_nodes (files : list (string * string))
    (chart : HelmChart) :
  parseHelmChart files = Normal chart ->
  forall e, e ∈ graph_edges (buildGraphData chart) ->
  exists file node,
    file ∈ chart_files chart
    /\ isSourceFile file = true
    /\ edge_source e = "file:" +:+ file_path file
    /\ node ∈ graph_nodes (buildGraphData chart)
    /\ node_id node = edge_source e
    /\ node_type node = NT_file.
Proof.
  intros Hparse e He. simpl in He. unfold buildEdges in He.
  apply list_elem_of_omap in He as (ref & Href & Hedge).
  pose proof (parseHelmChart_referencesHaveFiles _ _ Hparse) as Hinv.
  unfold referencesHaveFiles in Hinv. rewrite Forall_forall in Hinv.
  destruct (Hinv ref Href) as (file & Hfile & Hpath & Hsrc).
  apply createEdge_source in Hedge.
  set (node := createFileNode (file_path file) (file_name file)
                              (file_type file) 0 0).
  exists file,
    (withPosition (computePositions (buildNodes chart) (buildEdges chart))
                  node).
  repeat split; auto.
  - now rewrite Hedge, Hpath.
  - simpl. unfold autoOrganizeLayout. apply list_elem_of_fmap.
    exists node. split; [reflexivity|]. now apply source_file_has_node.
  - simpl. now rewrite Hedge, Hpath.
Qed.

End Sources.

Lemma edge_sources_are_file_nodes_witness :
  exists chart,
    @parseHelmChart sampleHost sampleFiles = Normal chart
    /\ forall e, e ∈ graph_edges (@buildGraphData sampleHost chart) ->
       exists file node,
         file ∈ chart_files chart
         /\ isSourceFile file = true
         /\ edge_source e = "file:" +:+ file_path file
         /\ node ∈ graph_nodes (@buildGraphData sampleHost chart)
         /\ node_id node = edge_source e
         /\ node_type node = NT_file.
Proof.
  eexists. split; [reflexivity|].
  apply (@edge_sources_are_file_nodes sampleHost sampleFiles).
  reflexivity.
Defined.

(** ** Edge targets *)

Section Targets.
Context `{Host}.

(** C3. The graph of a chart whose only template includes a helper that
    no file defines has an edge to [helper:missing] and no node with that
    identifier: [createEdge] gives an [include] or [template] reference
    its target without looking at the helpers of the chart, where a
    [chart] reference is dropped when the chart file is absent. *)
Theorem buildGraphData_keeps_edge_to_missing_helper :
  exists chart e,
    parseHelmChart missingHelperFiles = Normal chart
    /\ chart_helpers chart = []
    /\ e ∈ graph_edges (buildGraphData chart)
    /\ edge_source e = "file:templates/deploy.yaml"
    /\ edge_target e = "helper:missing"
    /\ forall node, node ∈ graph_nodes (buildGraphData chart) ->
                    node_id node <> edge_target e.
Proof.
  exists missingHelperChart, missingHelperEdge.
  split; [vm_compute; reflexivity|].
  split; [reflexivity|].
  rewrite buildGraphData_edges, buildGraphData_nodes.
  split; [vm_compute; apply list_elem_of_here|].
  split; [reflexivity|]. split; [reflexivity|].
  intros node Hnode Hid.
  apply (list_elem_of_fmap_2 node_id) in Hnode.
  rewrite autoOrganizeLayout_ids in Hnode.
  assert (Hids : map node_id (buildNodes missingHelperChart)
                 = ["file:templates/deploy.yaml"; "release:info"])
    by (vm_compute; reflexivity).
  rewrite Hids, Hid in Hnode.
  change (edge_target missingHelperEdge) with "helper:missing" in Hnode.
  repeat match goal with
         | H : _ ∈ _ :: _ |- _ => apply elem_of_cons in H as [H|H]
         | H : _ ∈ [] |- _ => now apply not_elem_of_nil in H
         | H : _ = _ |- _ => discriminate H
         end.
Qed.

Lemma distinct_keeps (l : list string) : forall seen x,
  x ∈ l -> existsb (String.eqb x) seen = true \/ x ∈ distinct seen l.
Proof.
  induction l as [|a l IH]; intros seen x Hx.
  - now apply not_elem_of_nil in Hx.
  - cbn [distinct]. apply elem_of_cons in Hx as [->|Hx].
    + destruct (existsb (String.eqb a) seen) eqn:Hseen; [now left|].
      right. apply list_elem_of_here.
    + destruct (existsb (String.eqb a) seen) eqn:Hseen; [now apply IH|].
      destruct (IH (a :: seen) x Hx) as [Hin|Hin].
      * cbn [existsb] in Hin. apply orb_true_iff in Hin as [Hxa|Hin];
          [|now left].
        apply String.eqb_eq in Hxa as ->. right. apply list_elem_of_here.
      * right. now apply list_elem_of_further.
Qed.

Lemma find_some_elem {A} (p : A -> bool) (l : list A) (a : A) :
  List.find p l = Some a -> a ∈ l.
Proof. intros Hfind. apply list_elem_of_In. now apply find_some in Hfind. Qed.

(** The targets that do resolve: the edge of a [values], [chart] or
    [release] reference always ends at a node; the edge of an [include] or
    [template] reference ends at [helper:<name>], defined or not. *)
Lemma edge_targets_resolve_or_helper (chart : HelmChart) (e : GraphEdge) :
  e ∈ graph_edges (buildGraphData chart) ->
  (exists node, node ∈ graph_nodes (buildGraphData chart)
                /\ node_id node = edge_target e)
  \/ (exists ref, ref ∈ chart_references chart
                  /\ (ref_type ref = RT_include \/ ref_type ref = RT_template)
                  /\ edge_target e = "helper:" +:+ tgt_path (ref_target ref)).
Proof.
  rewrite buildGraphData_edges, buildGraphData_nodes. unfold buildEdges.
  intros He. apply list_elem_of_omap in He as (ref & Href & Hedge).
  assert (Hnode : forall node,
            node ∈ buildNodes chart -> node_id node = edge_target e ->
            exists node', node' ∈ autoOrganizeLayout (buildNodes chart)
                                                     (buildEdges chart)
                          /\ node_id node' = edge_target e).
  { intros node Hin Hid.
    exists (withPosition (computePositions (buildNodes chart) (buildEdges chart))
                         node).
    split; [|exact Hid].
    unfold autoOrganizeLayout. apply list_elem_of_fmap.
    exists node. split; [reflexivity | exact Hin]. }
  unfold createEdge in Hedge.
  destruct (ref_type ref) eqn:Htype; cbn [isEmpty] in Hedge.
  - (* values *)
    injection Hedge as <-. left.
    apply (Hnode (createValueNode (tgt_path (ref_target ref))
                                  (valueLabel (tgt_path (ref_target ref))) 0 0));
      [|reflexivity].
    unfold buildNodes. rewrite !elem_of_app. do 4 right. left.
    apply list_elem_of_fmap. eexists. split; [reflexivity|].
    unfold getReferencedValuePaths.
    destruct (distinct_keeps
                (map (fun r => tgt_path (ref_target r))
                     (filter (fun r => ref_type r = RT_values)
                             (chart_references chart)))
                [] (tgt_path (ref_target ref))) as [Hseen|Hin];
      [|discriminate Hseen|exact Hin].
    apply list_elem_of_fmap. exists ref. split; [reflexivity|].
    now apply list_elem_of_filter.
  - injection Hedge as <-. right. exists ref. auto.
  - injection Hedge as <-. right. exists ref. auto.
  - (* chart *)
    destruct (List.find isChartFile (chart_files chart)) as [chartFile|]
      eqn:Hfind; cbn [isEmpty] in Hedge; [|discriminate].
    injection Hedge as <-. left.
    apply (Hnode (createFileNode (file_path chartFile) (file_name chartFile)
                                 FT_chart 0 0)); [|reflexivity].
    unfold buildNodes. rewrite Hfind, !elem_of_app. right. left.
    apply list_elem_of_here.
  - (* release *)
    injection Hedge as <-. left.
    apply (Hnode (createReleaseNode 0 0)); [|reflexivity].
    unfold buildNodes. rewrite !elem_of_app. do 2 right. left.
    apply list_elem_of_here.
  - discriminate.
  - discriminate.
Qed.

(** The sibling case: a [chart] reference without a chart file gives no
    edge. *)
Lemma createEdge_chart_without_file ref chart :
  ref_type ref = RT_chart ->
  List.find isChartFile (chart_files chart) = None ->
  createEdge ref chart = None.
Proof. intros Ht Hfind. unfold createEdge. now rewrite Ht, Hfind. Qed.

End Targets.

(** ** Flattening and path lookup *)

(** From here on [simpl] computes the concatenation of strings. *)
Arguments String.append !s1 s2 : simpl nomatch.

Lemma append_assoc (a b c : string) : (a +:+ b) +:+ c = a +:+ (b +:+ c).
Proof. induction a as [|x a IH]; simpl; [reflexivity | now rewrite IH]. Qed.

Lemma append_empty_r (a : string) : a +:+ EmptyString = a.
Proof. induction a as [|x a IH]; simpl; [reflexivity | now rewrite IH]. Qed.

Lemma split_append_sep (sep : ascii) (a b : string) :
  split sep (a +:+ String sep b) = split sep a ++ split sep b.
Proof.
  induction a as [|c a IH]; simpl.
  - now rewrite Ascii.eqb_refl.
  - destruct (Ascii.eqb c sep); [now rewrite IH|].
    rewrite IH. destruct (split sep a) as [|h t] eqn:E; [|reflexivity].
    now apply split_nonempty in E.
Qed.

Lemma split_without_sep (sep : ascii) (s : string) :
  includes s (String sep EmptyString) = false -> split sep s = [s].
Proof.
  induction s as [|c s IH]; simpl; [reflexivity|].
  unfold startsWith. simpl. rewrite Ascii.eqb_sym.
  destruct (Ascii.eqb c sep); simpl; [discriminate|].
  intros Hs. now rewrite (IH Hs).
Qed.

Lemma includes_char_middle (c : ascii) (a b : string) :
  includes (a +:+ String c b) (String c EmptyString) = true.
Proof.
  induction a as [|x a IH]; simpl.
  - unfold startsWith. simpl. now rewrite Ascii.eqb_refl.
  - rewrite IH. apply orb_true_r.
Qed.

Lemma getValueByParts_undefined parts :
  getValueByParts (Data JUndefined) parts = Data JUndefined.
Proof. now destruct parts. Qed.

Lemma getValueByParts_app parts : forall current more,
  getValueByParts current (parts ++ more)
  = getValueByParts (getValueByParts current parts) more.
Proof.
  induction parts as [|part parts IH]; intros current more;
    cbn [app getValueByParts]; [reflexivity|].
  destruct (isObject current); [apply IH|].
  now rewrite getValueByParts_undefined.
Qed.

Lemma hasOwn_elem props key value :
  (key, value) ∈ props -> hasOwn props key = true.
Proof.
  intros Hin. unfold hasOwn. apply existsb_exists. exists key.
  split; [|apply String.eqb_refl].
  apply in_map_iff. exists (key, value). split; [reflexivity|].
  now apply list_elem_of_In.
Qed.

Lemma lookupProp_distinct props key value :
  distinctKeys (map fst props) = true ->
  (key, value) ∈ props ->
  lookupProp props key = value.
Proof.
  induction props as [|[k v] props IH]; simpl; intros Hkeys Hin.
  - now apply not_elem_of_nil in Hin.
  - apply andb_true_iff in Hkeys as [Hfresh Hrest].
    apply elem_of_cons in Hin as [[= -> ->]|Hin].
    + now rewrite String.eqb_refl.
    + destruct (String.eqb k key) eqn:Hk; [|now apply IH].
      apply String.eqb_eq in Hk as ->.
      apply negb_true_iff in Hfresh.
      assert (Hex : existsb (String.eqb key) (map fst props) = true).
      { apply existsb_exists. exists key. split; [|apply String.eqb_refl].
        apply in_map_iff. exists (key, value). split; [reflexivity|].
        now apply list_elem_of_In. }
      congruence.
Qed.

Lemma plainMapping_props props :
  plainMapping (JObj props) = true ->
  distinctKeys (map fst props) = true
  /\ Forall (fun kv : string * JsValue =>
               includes kv.1 "." = false /\ plainMapping kv.2 = true) props.
Proof.
  simpl. intros Hp. apply andb_true_iff in Hp as [Hkeys Hall].
  split; [exact Hkeys|]. clear Hkeys.
  induction props as [|[k v] props IH]; [constructor|].
  apply andb_true_iff in Hall as [Hkv Hall].
  apply andb_true_iff in Hkv as [Hk Hv].
  constructor; [|now apply IH].
  split; [now apply negb_true_iff in Hk | exact Hv].
Qed.

Lemma continues_index prefix index e :
  continues (indexPrefix prefix index) e ->
  continues prefix e /\ includes (vk_path e) "[" = true.
Proof.
  intros [rest Hpath]. unfold indexPrefix in Hpath.
  destruct prefix as [|c prefix]; simpl in Hpath.
  - split; [now exists (vk_path e)|].
    rewrite Hpath. apply (includes_char_middle "[" EmptyString).
  - rewrite append_assoc in Hpath. split.
    + eexists. exact Hpath.
    + rewrite Hpath. apply (includes_char_middle "[" (String c prefix)).
Qed.

Lemma continues_key prefix key e :
  continues (keyPrefix prefix key) e -> continues prefix e.
Proof.
  intros [rest Hpath]. unfold keyPrefix in Hpath.
  destruct prefix as [|c prefix]; simpl in Hpath.
  - now exists (vk_path e).
  - rewrite append_assoc in Hpath. eexists. exact Hpath.
Qed.

(** Every entry that [flattenValues] pushes continues the prefix it was
    called with. *)
Lemma flattenValues_continues (Q : ValueKey -> Prop) (v : JsValue) :
  forall prefix result,
    (forall e, continues prefix e -> Q e) ->
    Forall Q result -> Forall Q (flattenValues v prefix result).
Proof.
  induction v as [| |b|n|s|items IH|props IH] using JsValue_nested_ind;
    intros prefix result Hq Hres; simpl; auto.
  1-3: apply Forall_app_2; [exact Hres|]; constructor; [|constructor];
       apply Hq; exists EmptyString; simpl; now rewrite append_empty_r.
  - assert (Hown : Forall Q (result ++ [mkValueKey prefix (JArr items) VT_array])).
    { apply Forall_app_2; [exact Hres|]. constructor; [|constructor].
      apply Hq. exists EmptyString. simpl. now rewrite append_empty_r. }
    revert Hown. generalize (result ++ [mkValueKey prefix (JArr items) VT_array]).
    generalize 0 as index.
    induction IH as [|item items Hitem _ IHitems]; intros index acc Hacc;
      [exact Hacc|].
    apply IHitems. apply Hitem; [|exact Hacc].
    intros e He. apply Hq. now apply continues_index in He.
  - assert (Hown : Forall Q (if isEmpty prefix then result
                             else result ++ [mkValueKey prefix (JObj props) VT_object])).
    { destruct (isEmpty prefix); [exact Hres|].
      apply Forall_app_2; [exact Hres|]. constructor; [|constructor].
      apply Hq. exists EmptyString. simpl. now rewrite append_empty_r. }
    revert Hown.
    generalize (if isEmpty prefix then result
                else result ++ [mkValueKey prefix (JObj props) VT_object]).
    induction IH as [|[key value] props Hvalue _ IHprops]; intros acc Hacc;
      [exact Hacc|].
    apply IHprops. apply Hvalue; [|exact Hacc].
    intros e He. apply Hq. now apply continues_key in He.
Qed.

Lemma foundAgain_own root prefix value t :
  getValueByPath root prefix = Data value ->
  foundAgain root (mkValueKey prefix value t).
Proof. intros Hfound _. exact Hfound. Qed.

(** The loop over the items of an array: every entry it pushes carries a
    bracket in its path. *)
Lemma forEach_foundAgain root prefix items : forall index acc,
  Forall (foundAgain root) acc ->
  Forall (foundAgain root)
    ((fix forEach (items : list JsValue) (index : nat)
          (result : list ValueKey) : list ValueKey :=
        match items with
        | [] => result
        | item :: rest =>
            forEach rest (S index)
                    (flattenValues item (indexPrefix prefix index) result)
        end) items index acc).
Proof.
  induction items as [|item items IH]; intros index acc Hacc; [exact Hacc|].
  apply IH. apply flattenValues_continues; [|exact Hacc].
  intros e He Hbracket. apply continues_index in He as [_ He]. congruence.
Qed.

(** The loop over the keys of a mapping. *)
Lemma forKeys_foundAgain root prefix props :
  Forall (fun kv : string * JsValue =>
            forall acc,
              Forall (foundAgain root) acc ->
              Forall (foundAgain root)
                     (flattenValues kv.2 (keyPrefix prefix kv.1) acc)) props ->
  forall acc,
    Forall (foundAgain root) acc ->
    Forall (foundAgain root)
      ((fix forKeys (props : list (string * JsValue))
            (result : list ValueKey) : list ValueKey :=
          match props with
          | [] => result
          | (key, value) :: rest =>
              forKeys rest (flattenValues value (keyPrefix prefix key) result)
          end) props acc).
Proof.
  intros Hprops.
  induction Hprops as [|[key value] props Hstep _ IH]; intros acc Hacc;
    [exact Hacc|].
  apply IH. now apply Hstep.
Qed.

Lemma getValueByPath_key root prefix props key value :
  prefix <> EmptyString ->
  getValueByPath root prefix = Data (JObj props) ->
  includes key "." = false ->
  hasOwn props key = true ->
  lookupProp props key = value ->
  getValueByPath root (keyPrefix prefix key) = Data value.
Proof.
  intros Hne Hget Hkey Hown Hlookup. unfold getValueByPath, keyPrefix in *.
  destruct prefix as [|c prefix]; [congruence|]. cbn [isEmpty].
  change (String c prefix +:+ "." +:+ key)
    with (String c prefix +:+ String "."%char key).
  rewrite (split_append_sep "." (String c prefix) key), getValueByParts_app.
  rewrite Hget, (split_without_sep "." key Hkey).
  cbn [getValueByParts isObject getMember]. now rewrite Hown, Hlookup.
Qed.

Lemma keyPrefix_nonempty prefix key :
  prefix <> EmptyString -> keyPrefix prefix key <> EmptyString.
Proof. unfold keyPrefix. destruct prefix; [congruence | discriminate]. Qed.

(** Below a nonempty prefix that the lookup resolves to [v], every entry
    of [v] without a bracket is found again. *)
Lemma flattenValues_foundAgain root (v : JsValue) :
  forall prefix acc,
    plainMapping v = true ->
    prefix <> EmptyString ->
    getValueByPath root prefix = Data v ->
    Forall (foundAgain root) acc ->
    Forall (foundAgain root) (flattenValues v prefix acc).
Proof.
  induction v as [| |b|n|s|items _|props IH] using JsValue_nested_ind;
    intros prefix acc Hplain Hne Hget Hacc.
  1-2: exact Hacc.
  1-3: simpl; apply Forall_app_2; [exact Hacc|];
       constructor; [now apply foundAgain_own | constructor].
  - simpl. apply forEach_foundAgain.
    apply Forall_app_2; [exact Hacc|].
    constructor; [now apply foundAgain_own | constructor].
  - cbn [flattenValues].
    destruct prefix as [|c prefix]; [congruence|]. cbn [isEmpty].
    apply forKeys_foundAgain.
    + apply plainMapping_props in Hplain as [Hkeys Hall].
      rewrite Forall_forall in IH, Hall. apply Forall_forall.
      intros [key value] Hin acc' Hacc'.
      destruct (Hall _ Hin) as [Hkey Hvalue]. simpl in *.
      apply (IH _ Hin);
        [exact Hvalue | now apply keyPrefix_nonempty | | exact Hacc'].
      apply (getValueByPath_key root (String c prefix) props key value);
        [exact Hne | exact Hget | exact Hkey | now apply (hasOwn_elem _ _ value) |].
      now apply lookupProp_distinct.
    + apply Forall_app_2; [exact Hacc|].
      constructor; [now apply foundAgain_own | constructor].
Qed.

(** C5, as the code has it. For a configuration mapping whose keys hold
    no dot, and whose top-level keys are not empty, every flattened entry
    whose path holds no bracket is returned unchanged by the path lookup,
    whether the entry is a scalar, an array or a mapping. (An entry with a
    bracket is an element of an array; the lookup splits the path at dots
    only.) *)
Theorem flatten_lookup_roundtrip (props : list (string * JsValue))
    (e : ValueKey) :
  plainMapping (JObj props) = true ->
  nonEmptyKeys props = true ->
  e ∈ flattenValues (JObj props) EmptyString [] ->
  includes (vk_path e) "[" = false ->
  getValueByPath (JObj props) (vk_path e) = Data (vk_value e).
Proof.
  intros Hplain Hnonempty He.
  assert (Hall : Forall (foundAgain (JObj props))
                        (flattenValues (JObj props) EmptyString [])).
  { cbn [flattenValues isEmpty]. apply forKeys_foundAgain; [|constructor].
    apply plainMapping_props in Hplain as [Hkeys Hall].
    unfold nonEmptyKeys in Hnonempty. rewrite forallb_forall in Hnonempty.
    rewrite Forall_forall in Hall. apply Forall_forall.
    intros [key value] Hin acc Hacc.
    destruct (Hall _ Hin) as [Hkey Hvalue]. simpl in *.
    assert (Hne : key <> EmptyString).
    { intros ->. apply list_elem_of_In in Hin.
      now specialize (Hnonempty _ Hin). }
    change (keyPrefix EmptyString key) with key.
    apply flattenValues_foundAgain; [exact Hvalue | exact Hne | | exact Hacc].
    unfold getValueByPath. rewrite (split_without_sep "." key Hkey).
    cbn [getValueByParts isObject getMember].
    rewrite (hasOwn_elem props key value) by exact Hin.
    f_equal. now apply lookupProp_distinct. }
  rewrite Forall_forall in Hall. exact (Hall e He).
Qed.

(** The claim as it was stated fails at the element of an array: the entry
    [a[0]] of [{a: [1]}] holds [1], and the lookup of [a[0]] is
    [undefined]. *)
Lemma flatten_lookup_roundtrip_fails_in_array :
  ~ (forall (raw : JsValue) (e : ValueKey),
       e ∈ flattenValues raw EmptyString [] ->
       getValueByPath raw (vk_path e) = Data (vk_value e)).
Proof.
  intros Hclaim.
  specialize (Hclaim (JObj [("a", JArr [JNum 1])])
                     (mkValueKey "a[0]" (JNum 1) VT_number)).
  assert (Hin : mkValueKey "a[0]" (JNum 1) VT_number
                ∈ flattenValues (JObj [("a", JArr [JNum 1])]) EmptyString []).
  { apply list_elem_of_In. simpl. auto. }
  specialize (Hclaim Hin). discriminate Hclaim.
Qed.

Lemma flatten_lookup_roundtrip_witness :
  plainMapping (JObj sampleValues) = true
  /\ nonEmptyKeys sampleValues = true
  /\ sampleEntry ∈ flattenValues (JObj sampleValues) EmptyString []
  /\ includes (vk_path sampleEntry) "[" = false
  /\ getValueByPath (JObj sampleValues) (vk_path sampleEntry)
     = Data (vk_value sampleEntry).
Proof.
  assert (Hin : sampleEntry ∈ flattenValues (JObj sampleValues) EmptyString []).
  { apply list_elem_of_In. simpl. auto 10. }
  split; [reflexivity|]. split; [reflexivity|]. split; [exact Hin|].
  split; [reflexivity|].
  apply (flatten_lookup_roundtrip sampleValues sampleEntry);
    [reflexivity | reflexivity | exact Hin | reflexivity].
Defined.

(** ** Texts, prefixes and parts *)

Lemma stripPrefix_Some (p s r : string) :
  stripPrefix p s = Some r -> s = p +:+ r.
Proof.
  revert s. induction p as [|a p IH]; intros s; cbn [stripPrefix].
  - now intros [= ->].
  - destruct s as [|b s]; [discriminate|].
    destruct (Ascii.eqb a b) eqn:Hab; [|discriminate].
    apply Ascii.eqb_eq in Hab as ->. intros Hs.
    cbn [String.append]. now rewrite <- (IH s Hs).
Qed.

Lemma span_append (p : ascii -> bool) (s a b : string) :
  span p s = (a, b) -> s = a +:+ b.
Proof.
  revert a b. induction s as [|c s IH]; intros a b; cbn [span].
  - now intros [= <- <-].
  - destruct (p c).
    + destruct (span p s) as [a' b'] eqn:E. intros [= <- <-].
      cbn [String.append]. now rewrite <- (IH a' b' eq_refl).
    + now intros [= <- <-].
Qed.

Lemma split_parts_without_sep (sep : ascii) (s : string) :
  Forall (fun part => includes part (String sep EmptyString) = false)
         (split sep s).
Proof.
  induction s as [|c s IH]; cbn [split].
  - repeat constructor.
  - destruct (Ascii.eqb c sep) eqn:Hc.
    + constructor; [reflexivity | exact IH].
    + destruct (split sep s) as [|h t]; [repeat constructor|].
      * cbn [includes]. unfold startsWith. cbn [stripPrefix].
        rewrite Ascii.eqb_sym, Hc. reflexivity.
      * inversion IH as [|? ? Hh Ht]; subst. constructor; [|exact Ht].
        cbn [includes]. rewrite Hh. unfold startsWith. cbn [stripPrefix].
        rewrite Ascii.eqb_sym, Hc. reflexivity.
Qed.

Lemma join_split (sep : ascii) (s : string) :
  join (String sep EmptyString) (split sep s) = s.
Proof.
  induction s as [|c s IH]; [reflexivity|]. cbn [split].
  destruct (Ascii.eqb c sep) eqn:Hc.
  - apply Ascii.eqb_eq in Hc as ->.
    destruct (split sep s) as [|h t] eqn:E; [now apply split_nonempty in E|].
    change (join (String sep EmptyString) (EmptyString :: h :: t))
      with (String sep (join (String sep EmptyString) (h :: t))).
    now rewrite IH.
  - destruct (split sep s) as [|h [|h' t]] eqn:E.
    + now apply split_nonempty in E.
    + cbn [join] in *. now rewrite IH.
    + change (join (String sep EmptyString) (String c h :: h' :: t))
        with (String c (join (String sep EmptyString) (h :: h' :: t))).
      now rewrite IH.
Qed.

(** ** Scanning a line for [.Values] expressions *)

Lemma execAll_index (re : Pattern) (s : string) : forall skip i j,
  map snd (execAll re skip i s) = map snd (execAll re skip j s).
Proof.
  induction s as [|c s IH]; intros skip i j; simpl; [reflexivity|].
  destruct skip as [|k]; [|apply IH].
  destruct (re (String c s)); simpl; [f_equal|]; apply IH.
Qed.

Lemma scan_skip (re : Pattern) (u t : string) :
  scan re (String.length u) (u +:+ t) = scan re 0 t.
Proof.
  unfold scan. induction u as [|c u IH]; simpl; [reflexivity|].
  rewrite <- IH. apply execAll_index.
Qed.

Lemma scan_match (re : Pattern) (c : ascii) (u t : string) (m : MatchAt) :
  re (String c (u +:+ t)) = Some m ->
  String.length (matched m) = S (String.length u) ->
  scan re 0 (String c (u +:+ t)) = m :: scan re 0 t.
Proof.
  intros Hm Hlen. unfold scan at 1. simpl. rewrite Hm, Hlen. simpl.
  f_equal. rewrite <- (scan_skip re u t). apply execAll_index.
Qed.

Lemma scan_no_match (re : Pattern) (u t : string) :
  noMatchIn re u t -> scan re 0 (u +:+ t) = scan re 0 t.
Proof.
  induction u as [|c u IH]; simpl; [reflexivity|].
  intros [Hnone Hrest]. rewrite <- (IH Hrest).
  unfold scan. simpl in *. rewrite Hnone. apply execAll_index.
Qed.

Lemma stripPrefix_append_none (q : string) : forall g t,
  forallChars notDot q = true ->
  stripPrefix q g = None ->
  dotStart t = true ->
  stripPrefix q (g +:+ t) = None.
Proof.
  induction q as [|a q IH]; intros g t Hq Hnone Ht; [discriminate|].
  simpl in Hq. apply andb_true_iff in Hq as [Ha Hq].
  destruct g as [|b g]; cbn [stripPrefix String.append] in *.
  - destruct t as [|c t]; [reflexivity|]. cbn [dotStart] in Ht.
    apply Ascii.eqb_eq in Ht as ->. unfold notDot in Ha.
    now apply negb_true_iff in Ha as ->.
  - destruct (Ascii.eqb a b); [now apply IH | reflexivity].
Qed.

Lemma valuesRegex_needs_prefix (s : string) :
  stripPrefix ".Values" s = None -> valuesRegex s = None.
Proof. intros Hs. unfold valuesRegex. now rewrite Hs. Qed.

Lemma includes_cons c g sub :
  includes (String c g) sub = false ->
  startsWith (String c g) sub = false /\ includes g sub = false.
Proof. simpl. intros Hs. now apply orb_false_iff in Hs. Qed.

Lemma noMatchIn_gap (g t : string) :
  includes g ".Values" = false ->
  dotStart t = true ->
  noMatchIn valuesRegex g t.
Proof.
  intros Hg Ht. induction g as [|c g IH]; [exact I|].
  apply includes_cons in Hg as [Hstart Hg].
  split; [|now apply IH].
  apply valuesRegex_needs_prefix.
  unfold startsWith in Hstart.
  destruct (stripPrefix ".Values" (String c g)) eqn:Hstrip; [discriminate|].
  change (stripPrefix ".Values" (String c g))
    with (if Ascii.eqb "." c then stripPrefix "Values" g else None) in Hstrip.
  change (stripPrefix ".Values" (String c g +:+ t))
    with (if Ascii.eqb "." c then stripPrefix "Values" (g +:+ t) else None).
  destruct (Ascii.eqb "." c); [|reflexivity].
  now apply stripPrefix_append_none.
Qed.

(** After the dot of a bare [.Values], no match starts in [Values]. *)
Lemma noMatchIn_Values (t : string) : noMatchIn valuesRegex "Values" t.
Proof. repeat split. Qed.

(** ** The match at an occurrence *)

Lemma span_stop (p : ascii -> bool) (a b : string) :
  forallChars p a = true ->
  startsOutside p b = true ->
  span p (a +:+ b) = (a, b).
Proof.
  intros Ha Hb. induction a as [|c a IH]; cbn [String.append span].
  - destruct b as [|c b]; [reflexivity|]. cbn [startsOutside span] in *.
    now apply negb_true_iff in Hb as ->.
  - cbn [forallChars] in Ha. apply andb_true_iff in Ha as [-> Ha].
    now rewrite (IH Ha).
Qed.

Lemma valuesSegment_other (c : ascii) (s : string) :
  Ascii.eqb c "." = false -> Ascii.eqb c "[" = false ->
  valuesSegment (String c s) = None.
Proof.
  destruct c as [[] [] [] [] [] [] [] []]; intros Hdot Hbracket;
    try reflexivity; discriminate.
Qed.

Lemma valuesSegment_none (t : string) :
  startsSegment t = false -> valuesSegment t = None.
Proof.
  destruct t as [|c t]; [reflexivity|].
  destruct (Ascii.eqb c ".") eqn:Hdot.
  - apply Ascii.eqb_eq in Hdot as ->.
    destruct t as [|d t]; [reflexivity|].
    cbn [startsSegment valuesSegment]. intros ->. reflexivity.
  - destruct (Ascii.eqb c "[") eqn:Hbr.
    + apply Ascii.eqb_eq in Hbr as ->.
      cbn [startsSegment valuesSegment].
      destruct (span notRBracket t) as [inner rest] eqn:Hspan.
      destruct inner as [|a inner]; [reflexivity|].
      destruct rest as [|r rest]; [reflexivity | discriminate].
    + intros _. now apply valuesSegment_other.
Qed.

Lemma valuesSegment_render (seg : Segment) (next : string) :
  validSegment seg = true ->
  match seg with
  | SegIdent _ => startsOutside isIdentChar next = true
  | SegIndex _ => True
  end ->
  valuesSegment (renderSegment seg +:+ next) = Some (renderSegment seg, next).
Proof.
  intros Hseg Hnext. destruct seg as [name|inner]; cbn [renderSegment].
  - destruct name as [|c name]; [discriminate|]. cbn [validSegment] in Hseg.
    apply andb_true_iff in Hseg as [Hc Hname].
    change (valuesSegment (String "." (String c name) +:+ next))
      with (if isIdentStart c
            then let (ident, rest) := span isIdentChar (name +:+ next) in
                 Some (String "."%char (String c ident), rest)
            else None).
    now rewrite Hc, (span_stop _ _ _ Hname Hnext).
  - cbn [validSegment] in Hseg.
    apply andb_true_iff in Hseg as [Hseg _].
    apply andb_true_iff in Hseg as [Hne Hinner].
    change (valuesSegment (String "[" (inner +:+ "]") +:+ next))
      with (let (inner', rest) := span notRBracket ((inner +:+ "]") +:+ next) in
            match inner', rest with
            | String _ _, String "]"%char rest' =>
                Some (String "["%char (inner' +:+ "]"), rest')
            | _, _ => None
            end).
    rewrite append_assoc.
    change ("]" +:+ next) with (String "]"%char next).
    rewrite (span_stop notRBracket inner (String "]" next) Hinner eq_refl).
    destruct inner; [discriminate | reflexivity].
Qed.

Lemma segments_chain (chain : list Segment) : forall fuel t,
  forallb validSegment chain = true ->
  valuesSegment t = None ->
  negb (endsWithIdent chain) || startsOutside isIdentChar t = true ->
  length chain <= fuel ->
  segments valuesSegment fuel (renderChain chain +:+ t) = (renderChain chain, t).
Proof.
  induction chain as [|seg chain IH]; intros fuel t Hvalid Hnone Hident Hfuel.
  - cbn [renderChain String.append].
    destruct fuel; cbn [segments]; [reflexivity|]. now rewrite Hnone.
  - destruct fuel as [|fuel]; [simpl in Hfuel; lia|].
    cbn [forallb] in Hvalid. apply andb_true_iff in Hvalid as [Hseg Hvalid].
    cbn [renderChain segments]. rewrite append_assoc.
    rewrite (valuesSegment_render seg _ Hseg).
    + rewrite (IH fuel t Hvalid Hnone); [reflexivity | | simpl in Hfuel; lia].
      destruct chain as [|seg' chain]; [reflexivity | exact Hident].
    + destruct seg as [name|inner]; [|exact I].
      destruct chain as [|[name'|inner'] chain]; [exact Hident | |];
        reflexivity.
Qed.

Lemma renderSegment_length (seg : Segment) :
  1 <= String.length (renderSegment seg).
Proof. destruct seg; simpl; lia. Qed.

Lemma renderChain_length (chain : list Segment) :
  length chain <= String.length (renderChain chain).
Proof.
  induction chain as [|seg chain IH]; simpl; [lia|].
  rewrite length_append. pose proof (renderSegment_length seg). lia.
Qed.

Lemma renderChain_nonempty (chain : list Segment) :
  chain <> [] -> isEmpty (renderChain chain) = false.
Proof.
  destruct chain as [|[name|inner] chain]; [congruence | reflexivity | reflexivity].
Qed.

Lemma valuesRegex_occurrence (chain : list Segment) (t : string) :
  chain <> [] ->
  forallb validSegment chain = true ->
  endsExpression (Occurrence chain) t = true ->
  valuesRegex (".Values" +:+ renderChain chain +:+ t)
  = Some (occurrenceMatch chain).
Proof.
  intros Hne Hvalid Hends. unfold endsExpression in Hends.
  apply andb_true_iff in Hends as [Hseg Hident].
  apply negb_true_iff in Hseg. unfold valuesRegex.
  change (stripPrefix ".Values" (".Values" +:+ renderChain chain +:+ t))
    with (Some (renderChain chain +:+ t)).
  cbv beta iota.
  rewrite (segments_chain chain _ t Hvalid (valuesSegment_none t Hseg) Hident).
  - now rewrite (renderChain_nonempty chain Hne).
  - rewrite length_append. pose proof (renderChain_length chain). lia.
Qed.

Lemma valuesRegex_bare (t : string) :
  endsExpression Bare t = true -> valuesRegex (".Values" +:+ t) = None.
Proof.
  intros Hends. unfold endsExpression in Hends.
  apply andb_true_iff in Hends as [Hseg _]. apply negb_true_iff in Hseg.
  unfold valuesRegex.
  change (stripPrefix ".Values" (".Values" +:+ t)) with (Some t).
  cbv beta iota.
  destruct (String.length t); cbn [segments]; [reflexivity|].
  now rewrite (valuesSegment_none t Hseg).
Qed.

(** ** A line with known occurrences *)

Lemma renderBody_dotStart (body : list (Piece * string)) :
  dotStart (renderBody body) = true.
Proof. destruct body as [|[[|chain] g] rest]; reflexivity. Qed.

Lemma validGap_noMatchIn g t :
  validGap g = true -> dotStart t = true -> noMatchIn valuesRegex g t.
Proof.
  unfold validGap. intros Hg Ht. apply andb_true_iff in Hg as [Hg _].
  apply negb_true_iff in Hg. now apply noMatchIn_gap.
Qed.

Lemma scan_body (body : list (Piece * string)) :
  validBody body = true ->
  scan valuesRegex 0 (renderBody body) = map occurrenceMatch (bodyChains body).
Proof.
  induction body as [|[p g] rest IH]; [reflexivity|].
  cbn [validBody]. intros Hvalid.
  apply andb_true_iff in Hvalid as [Hvalid Hrest].
  apply andb_true_iff in Hvalid as [Hvalid Hends].
  apply andb_true_iff in Hvalid as [Hpiece Hgap].
  pose proof (validGap_noMatchIn g (renderBody rest) Hgap
                (renderBody_dotStart rest)) as Hnone.
  cbn [renderBody]. destruct p as [|chain]; cbn [renderPiece].
  - (* a bare [.Values]: no match at the dot, none inside, none in the gap *)
    change (".Values" +:+ g +:+ renderBody rest)
      with (String "."%char EmptyString
              +:+ ("Values" +:+ (g +:+ renderBody rest))).
    rewrite (scan_no_match valuesRegex (String "." EmptyString)).
    + rewrite (scan_no_match valuesRegex "Values") by apply noMatchIn_Values.
      rewrite (scan_no_match valuesRegex g _ Hnone).
      exact (IH Hrest).
    + split; [|exact I]. now apply (valuesRegex_bare (g +:+ renderBody rest)).
  - (* an occurrence: one match, which ends where the gap starts *)
    cbn [validPiece] in Hpiece. apply andb_true_iff in Hpiece as [Hne Hchain].
    apply negb_true_iff, bool_decide_eq_false in Hne.
    rewrite append_assoc.
    change (".Values" +:+ renderChain chain +:+ g +:+ renderBody rest)
      with (String "."%char
              ("Values" +:+ renderChain chain +:+ g +:+ renderBody rest)).
    rewrite <- (append_assoc "Values" (renderChain chain)).
    rewrite (scan_match valuesRegex "." ("Values" +:+ renderChain chain)
                        (g +:+ renderBody rest) (occurrenceMatch chain)).
    + rewrite (scan_no_match valuesRegex g _ Hnone), (IH Hrest). reflexivity.
    + rewrite (append_assoc "Values" (renderChain chain)).
      now apply (valuesRegex_occurrence chain (g +:+ renderBody rest)).
    + reflexivity.
Qed.

Lemma matchAll_line (l : TemplateLine) :
  validLine l = true ->
  matchAll valuesRegex (renderLine l) = map occurrenceMatch (chainsOf l).
Proof.
  unfold validLine. intros Hl. apply andb_true_iff in Hl as [Hlead Hbody].
  change (matchAll valuesRegex (renderLine l))
    with (scan valuesRegex 0 (lead l +:+ renderBody (body l))).
  rewrite (scan_no_match valuesRegex (lead l)).
  - now apply scan_body.
  - apply validGap_noMatchIn; [exact Hlead | apply renderBody_dotStart].
Qed.

(** The code takes the dot off the front of the chain that it matched;
    that is the path of the chain. *)
Lemma stripLeadingDot_chain (chain : list Segment) :
  stripLeadingDot (renderChain chain) = chainPath chain.
Proof. destruct chain as [|[name|inner] chain]; reflexivity. Qed.

Lemma extractValuesReferences_line (l : TemplateLine) filePath lineNum :
  validLine l = true ->
  extractValuesReferences (renderLine l) filePath lineNum
  = map (valuesReference filePath lineNum) (chainsOf l).
Proof.
  intros Hl. unfold extractValuesReferences.
  rewrite (matchAll_line l Hl), map_map. apply map_ext. intros chain.
  unfold valuesReference, mkReference. cbn [occurrenceMatch group1 matched].
  now rewrite stripLeadingDot_chain.
Qed.

(** ** The values references among all references *)

Lemma filter_map_all {A B} (q : B -> bool) (f : A -> B) (l : list A) :
  (forall a, q (f a) = true) -> List.filter q (map f l) = map f l.
Proof.
  intros Hq. induction l as [|a l IH]; simpl; [reflexivity|].
  now rewrite Hq, IH.
Qed.

Lemma filter_map_none {A B} (q : B -> bool) (f : A -> B) (l : list A) :
  (forall a, q (f a) = false) -> List.filter q (map f l) = [].
Proof.
  intros Hq. induction l as [|a l IH]; simpl; [reflexivity|].
  now rewrite Hq, IH.
Qed.

Lemma filter_values_line filePath lineIndex line :
  List.filter isValuesReference (extractLineReferences filePath lineIndex line)
  = extractValuesReferences line filePath (lineIndex + 1).
Proof.
  unfold extractLineReferences, extractValuesReferences,
    extractIncludeReferences, extractChartReferences,
    extractReleaseReferences, extractFilesReferences,
    extractCapabilitiesReferences.
  rewrite !List.filter_app.
  rewrite filter_map_all by reflexivity.
  rewrite !filter_map_none by reflexivity.
  now rewrite app_nil_r.
Qed.

(** ** Lines of a document *)

Lemma forallChars_append p a b :
  forallChars p (a +:+ b) = forallChars p a && forallChars p b.
Proof.
  induction a as [|c a IH]; cbn [String.append forallChars]; [reflexivity|].
  now rewrite IH, andb_assoc.
Qed.

Lemma forallChars_impl (p q : ascii -> bool) s :
  (forall c, p c = true -> q c = true) ->
  forallChars p s = true -> forallChars q s = true.
Proof.
  intros Hpq. induction s as [|c s IH]; cbn [forallChars]; [auto|].
  intros Hs. apply andb_true_iff in Hs as [Hc Hs].
  now rewrite (Hpq c Hc), (IH Hs).
Qed.

Lemma identChar_notNewline c : isIdentChar c = true -> notNewline c = true.
Proof.
  intros Hc. unfold notNewline.
  destruct (Ascii.eqb c newline) eqn:E; [|reflexivity].
  apply Ascii.eqb_eq in E. subst c. discriminate Hc.
Qed.

Lemma identStart_notNewline c : isIdentStart c = true -> notNewline c = true.
Proof.
  intros Hc. unfold notNewline.
  destruct (Ascii.eqb c newline) eqn:E; [|reflexivity].
  apply Ascii.eqb_eq in E. subst c. discriminate Hc.
Qed.

Lemma renderSegment_notNewline seg :
  validSegment seg = true -> forallChars notNewline (renderSegment seg) = true.
Proof.
  destruct seg as [[|c name]|inner]; cbn [validSegment renderSegment];
    [discriminate| |]; intros Hseg.
  - apply andb_true_iff in Hseg as [Hc Hname]. cbn [forallChars].
    rewrite (identStart_notNewline c Hc).
    now rewrite (forallChars_impl _ _ name identChar_notNewline Hname).
  - apply andb_true_iff in Hseg as [_ Hinner]. cbn [forallChars].
    now rewrite forallChars_append, Hinner.
Qed.

Lemma renderChain_notNewline chain :
  forallb validSegment chain = true ->
  forallChars notNewline (renderChain chain) = true.
Proof.
  induction chain as [|seg chain IH]; cbn [forallb renderChain]; [auto|].
  intros Hchain. apply andb_true_iff in Hchain as [Hseg Hchain].
  now rewrite forallChars_append, (renderSegment_notNewline seg Hseg), IH.
Qed.

Lemma renderBody_notNewline body :
  validBody body = true -> forallChars notNewline (renderBody body) = true.
Proof.
  induction body as [|[p g] rest IH]; cbn [validBody renderBody]; [auto|].
  intros Hvalid.
  apply andb_true_iff in Hvalid as [Hvalid Hrest].
  apply andb_true_iff in Hvalid as [Hvalid _].
  apply andb_true_iff in Hvalid as [Hpiece Hgap].
  unfold validGap in Hgap. apply andb_true_iff in Hgap as [_ Hgap].
  rewrite !forallChars_append, Hgap, (IH Hrest), !andb_true_r.
  destruct p as [|chain]; [reflexivity|].
  cbn [validPiece] in Hpiece. apply andb_true_iff in Hpiece as [_ Hchain].
  cbn [renderPiece]. rewrite forallChars_append.
  now rewrite (renderChain_notNewline chain Hchain).
Qed.

Lemma renderLine_notNewline l :
  validLine l = true -> forallChars notNewline (renderLine l) = true.
Proof.
  unfold validLine, renderLine. intros Hl.
  apply andb_true_iff in Hl as [Hlead Hbody].
  unfold validGap in Hlead. apply andb_true_iff in Hlead as [_ Hlead].
  now rewrite forallChars_append, Hlead, renderBody_notNewline.
Qed.

Lemma notNewline_not_included s :
  forallChars notNewline s = true ->
  includes s (String newline EmptyString) = false.
Proof.
  induction s as [|c s IH]; cbn [forallChars]; [reflexivity|].
  intros Hs. apply andb_true_iff in Hs as [Hc Hs].
  cbn [includes]. rewrite (IH Hs), orb_false_r.
  unfold startsWith. cbn [stripPrefix]. unfold notNewline in Hc.
  apply negb_true_iff in Hc. rewrite Ascii.eqb_sym in Hc. now rewrite Hc.
Qed.

(** Splitting the text of a document at line feeds gives its lines back. *)
Lemma split_lines (ls : list string) :
  ls <> [] ->
  Forall (fun l => forallChars notNewline l = true) ls ->
  split newline (lines ls) = ls.
Proof.
  intros Hne Hls. unfold lines.
  induction Hls as [|l ls Hl Hls IH]; [congruence|].
  destruct ls as [|l2 ls].
  - cbn [join]. apply split_without_sep. now apply notNewline_not_included.
  - change (join (String newline EmptyString) (l :: l2 :: ls))
      with (l +:+ String newline (join (String newline EmptyString) (l2 :: ls))).
    rewrite split_append_sep, IH by discriminate.
    rewrite (split_without_sep newline l); [reflexivity|].
    now apply notNewline_not_included.
Qed.

Lemma forEachLine_values filePath (doc : list TemplateLine) :
  forallb validLine doc = true ->
  forall lineIndex,
    List.filter isValuesReference
                (forEachLine filePath lineIndex (map renderLine doc))
    = expectedValuesReferences filePath lineIndex doc.
Proof.
  induction doc as [|l doc IH]; intros Hdoc lineIndex; [reflexivity|].
  cbn [forallb] in Hdoc. apply andb_true_iff in Hdoc as [Hl Hdoc].
  cbn [map forEachLine expectedValuesReferences].
  rewrite List.filter_app, filter_values_line, (IH Hdoc).
  now rewrite (extractValuesReferences_line l _ _ Hl).
Qed.

Lemma expectedValuesReferences_length filePath (doc : list TemplateLine) :
  forall lineIndex,
    length (expectedValuesReferences filePath lineIndex doc)
    = countOccurrences doc.
Proof.
  unfold countOccurrences.
  induction doc as [|l doc IH]; intros lineIndex; [reflexivity|].
  cbn [expectedValuesReferences map concat].
  now rewrite !length_app, length_map, IH.
Qed.

(** ** Every text is a document *)

Lemma span_forall (p : ascii -> bool) (s : string) :
  forallChars p (fst (span p s)) = true.
Proof.
  induction s as [|c s IH]; cbn [span]; [reflexivity|].
  destruct (p c) eqn:Hc; [|reflexivity].
  destruct (span p s) as [a b]. cbn [fst forallChars] in *. now rewrite Hc, IH.
Qed.

Lemma span_outside (p : ascii -> bool) (s : string) :
  startsOutside p (snd (span p s)) = true.
Proof.
  induction s as [|c s IH]; cbn [span]; [reflexivity|].
  destruct (p c) eqn:Hc.
  - destruct (span p s) as [a b]. exact IH.
  - cbn [snd startsOutside]. now rewrite Hc.
Qed.

Lemma startsSegment_other (c : ascii) (t : string) :
  Ascii.eqb c "." = false -> Ascii.eqb c "[" = false ->
  startsSegment (String c t) = false.
Proof.
  destruct c as [[] [] [] [] [] [] [] []]; intros Hdot Hbracket;
    try reflexivity; discriminate.
Qed.

(** A text that starts with a segment is that segment and a rest. *)
Lemma startsSegment_reading (t : string) :
  startsSegment t = true ->
  forallChars notNewline t = true ->
  exists seg rest,
    validSegment seg = true
    /\ t = renderSegment seg +:+ rest
    /\ match seg with
       | SegIdent _ => startsOutside isIdentChar rest = true
       | SegIndex _ => True
       end.
Proof.
  destruct t as [|c t]; [discriminate|].
  destruct (Ascii.eqb c ".") eqn:Hdot.
  - apply Ascii.eqb_eq in Hdot as ->.
    destruct t as [|d t]; [discriminate|].
    cbn [startsSegment]. intros Hd _.
    pose proof (span_forall isIdentChar t) as Hident.
    pose proof (span_outside isIdentChar t) as Hrest.
    destruct (span isIdentChar t) as [ident rest] eqn:Hspan.
    cbn [fst snd] in *.
    exists (SegIdent (String d ident)), rest. repeat split.
    + cbn [validSegment]. now rewrite Hd, Hident.
    + cbn [renderSegment String.append]. now rewrite (span_append _ _ _ _ Hspan).
    + exact Hrest.
  - destruct (Ascii.eqb c "[") eqn:Hbr;
      [|now rewrite startsSegment_other].
    apply Ascii.eqb_eq in Hbr as ->. cbn [startsSegment forallChars].
    pose proof (span_forall notRBracket t) as Hinner.
    pose proof (span_outside notRBracket t) as Hrest.
    destruct (span notRBracket t) as [inner rest] eqn:Hspan.
    cbn [fst snd] in *.
    destruct inner as [|a inner]; [discriminate|].
    destruct rest as [|r rest]; [discriminate|].
    intros _ Hnl. apply andb_true_iff in Hnl as [_ Hnl].
    cbn [startsOutside] in Hrest. apply negb_true_iff in Hrest.
    unfold notRBracket in Hrest. apply negb_false_iff, Ascii.eqb_eq in Hrest.
    subst r. apply span_append in Hspan. subst t.
    rewrite forallChars_append in Hnl. apply andb_true_iff in Hnl as [Hnl _].
    exists (SegIndex (String a inner)), rest. repeat split.
    + cbn [validSegment isEmpty negb andb]. now rewrite Hinner, Hnl.
    + cbn [renderSegment String.append]. now rewrite append_assoc.
Qed.

(** The longest chain of segments at the start of a text. *)
Lemma chain_reading : forall n t,
  String.length t <= n ->
  forallChars notNewline t = true ->
  exists chain rest,
    forallb validSegment chain = true
    /\ t = renderChain chain +:+ rest
    /\ startsSegment rest = false
    /\ negb (endsWithIdent chain) || startsOutside isIdentChar rest = true.
Proof.
  induction n as [|n IH]; intros t Hlen Hnl.
  - destruct t; [|cbn in Hlen; lia]. now exists [], EmptyString.
  - destruct (startsSegment t) eqn:Hstart; [|now exists [], t].
    destruct (startsSegment_reading t Hstart Hnl)
      as (seg & rest1 & Hseg & -> & Hnext).
    rewrite forallChars_append in Hnl. apply andb_true_iff in Hnl as [_ Hnl].
    rewrite length_append in Hlen. pose proof (renderSegment_length seg).
    destruct (IH rest1 ltac:(lia) Hnl)
      as (chain & rest & Hchain & -> & Hstop & Hident).
    exists (seg :: chain), rest. repeat split.
    + cbn [forallb]. now rewrite Hseg, Hchain.
    + cbn [renderChain]. now rewrite append_assoc.
    + exact Hstop.
    + destruct chain as [|seg' chain]; [|exact Hident].
      destruct seg as [name|inner]; [exact Hnext | reflexivity].
Qed.

Lemma stripPrefix_append_Some (q : string) : forall s r more,
  stripPrefix q s = Some r -> stripPrefix q (s +:+ more) = Some (r +:+ more).
Proof.
  induction q as [|a q IH]; intros s r more; cbn [stripPrefix].
  - now intros [= ->].
  - destruct s as [|b s]; [discriminate|]. cbn [String.append stripPrefix].
    destruct (Ascii.eqb a b); [apply IH | discriminate].
Qed.

(** Every line of text can be written as a line with known occurrences. *)
Lemma line_reading : forall n s,
  String.length s <= n ->
  forallChars notNewline s = true ->
  exists l, validLine l = true /\ renderLine l = s.
Proof.
  induction n as [|n IH]; intros s Hlen Hnl.
  - destruct s; [|cbn in Hlen; lia].
    now exists {| lead := EmptyString; body := [] |}.
  - destruct (stripPrefix ".Values" s) as [t|] eqn:Hstrip.
    + (* an expression starts here *)
      apply stripPrefix_Some in Hstrip. subst s.
      rewrite forallChars_append in Hnl. apply andb_true_iff in Hnl as [_ Hnl].
      rewrite length_append in Hlen. cbn [String.length] in Hlen.
      destruct (chain_reading (String.length t) t (le_n _) Hnl)
        as (chain & rest & Hchain & -> & Hstop & Hident).
      rewrite forallChars_append in Hnl. apply andb_true_iff in Hnl as [_ Hnl].
      rewrite length_append in Hlen.
      destruct (IH rest ltac:(lia) Hnl) as (l' & Hvalid & Hrender).
      unfold validLine in Hvalid. apply andb_true_iff in Hvalid as [Hlead Hbody].
      unfold renderLine in Hrender.
      destruct chain as [|seg chain].
      * exists {| lead := EmptyString; body := (Bare, lead l') :: body l' |}.
        split.
        -- unfold validLine. cbn [lead body validBody validPiece validGap].
           cbn [includes startsWith stripPrefix forallChars negb andb orb].
           unfold endsExpression. rewrite Hrender, Hstop, Hlead, Hbody.
           reflexivity.
        -- unfold renderLine. cbn [lead body renderBody renderPiece String.append].
           now rewrite Hrender.
      * exists {| lead := EmptyString;
                  body := (Occurrence (seg :: chain), lead l') :: body l' |}.
        split.
        -- unfold validLine. cbn [lead body validBody validPiece validGap].
           cbn [includes startsWith stripPrefix forallChars negb andb orb].
           unfold endsExpression.
           rewrite Hrender, Hstop, Hident, Hchain, Hlead, Hbody.
           rewrite bool_decide_eq_false_2 by discriminate. reflexivity.
        -- unfold renderLine. cbn [lead body renderBody renderPiece].
           rewrite Hrender. exact (append_assoc ".Values" _ rest).
    + (* no expression starts here: the character belongs to the text *)
      destruct s as [|c s]; [now exists {| lead := EmptyString; body := [] |}|].
      cbn [forallChars] in Hnl. apply andb_true_iff in Hnl as [Hc Hnl].
      cbn [String.length] in Hlen.
      destruct (IH s ltac:(lia) Hnl) as (l' & Hvalid & Hrender).
      unfold validLine in Hvalid. apply andb_true_iff in Hvalid as [Hlead Hbody].
      unfold validGap in Hlead. apply andb_true_iff in Hlead as [Hfree Hleadnl].
      exists {| lead := String c (lead l'); body := body l' |}. split.
      * unfold validLine, validGap. cbn [lead body forallChars includes].
        rewrite Hc, Hleadnl, Hbody. apply negb_true_iff in Hfree.
        rewrite Hfree, orb_false_r.
        unfold startsWith.
        destruct (stripPrefix ".Values" (String c (lead l'))) as [r|] eqn:Hlit;
          [|reflexivity].
        apply (stripPrefix_append_Some _ _ _ (renderBody (body l'))) in Hlit.
        unfold renderLine in Hrender. cbn [String.append] in Hlit.
        rewrite Hrender in Hlit. congruence.
      * unfold renderLine in *. cbn [lead body String.append].
        now rewrite Hrender.
Qed.

Lemma split_lines_notNewline (content : string) :
  Forall (fun l => forallChars notNewline l = true) (split newline content).
Proof.
  induction content as [|c content IH]; cbn [split]; [repeat constructor|].
  destruct (Ascii.eqb c newline) eqn:Hc; [now constructor|].
  destruct (split newline content) as [|h t]; [repeat constructor|].
  - cbn [forallChars]. unfold notNewline. now rewrite Hc.
  - inversion IH as [|? ? Hh Ht]; subst. constructor; [|exact Ht].
    cbn [forallChars]. unfold notNewline at 1. now rewrite Hc, Hh.
Qed.

(** Every text is the text of a document. *)
Lemma document_reading (content : string) :
  exists doc, forallb validLine doc = true /\ renderDocument doc = content.
Proof.
  assert (Hlines : forall ls,
    Forall (fun l => forallChars notNewline l = true) ls ->
    exists doc, forallb validLine doc = true /\ map renderLine doc = ls).
  { induction 1 as [|line ls Hline _ (doc & Hdoc & Hmap)];
      [now exists []|].
    destruct (line_reading _ line (le_n _) Hline) as (l & Hl & Hrender).
    exists (l :: doc). cbn [forallb map]. now rewrite Hl, Hdoc, Hrender, Hmap. }
  destruct (Hlines _ (split_lines_notNewline content)) as (doc & Hdoc & Hmap).
  exists doc. split; [exact Hdoc|].
  unfold renderDocument, lines. rewrite Hmap. apply join_split.
Qed.

(** C6. Every template text can be written as a document: lines in which
    the places of [.Values] are known, as occurrences with a chain of at
    least one segment, each as long as it can be, and as bare [.Values].
    However the text is written so, extraction gives, among all the
    references, exactly one reference of type [values] per occurrence, in
    order; the reference of an occurrence on the [n]-th line (from 1)
    carries line [n], the matched text as expression, and as target path
    the chain as written, without the dot in front of a first identifier.
    A bare [.Values] gives no reference. *)
Theorem extractReferences_values_occurrences (content filePath : string) :
  (exists doc, forallb validLine doc = true /\ renderDocument doc = content)
  /\ forall doc,
       forallb validLine doc = true ->
       renderDocument doc = content ->
       List.filter isValuesReference (extractReferences content filePath)
       = expectedValuesReferences filePath 0 doc
       /\ length (List.filter isValuesReference
                              (extractReferences content filePath))
          = countOccurrences doc.
Proof.
  split; [apply document_reading|].
  intros doc Hdoc <-.
  assert (Hrefs :
    List.filter isValuesReference
                (extractReferences (renderDocument doc) filePath)
    = expectedValuesReferences filePath 0 doc).
  { destruct doc as [|l doc]; [reflexivity|].
    unfold extractReferences, renderDocument.
    rewrite split_lines; [now apply forEachLine_values | discriminate |].
    apply Forall_map, Forall_forall. intros l' Hin.
    apply renderLine_notNewline.
    rewrite forallb_forall in Hdoc. apply Hdoc. now apply list_elem_of_In. }
  split; [exact Hrefs|].
  rewrite Hrefs. apply expectedValuesReferences_length.
Qed.

Lemma extractReferences_values_occurrences_witness :
  forallb validLine sampleDocument = true
  /\ List.filter isValuesReference
                 (extractReferences (renderDocument sampleDocument)
                                    "templates/deploy.yaml")
     = expectedValuesReferences "templates/deploy.yaml" 0 sampleDocument
  /\ length (List.filter isValuesReference
                         (extractReferences (renderDocument sampleDocument)
                                            "templates/deploy.yaml"))
     = countOccurrences sampleDocument.
Proof.
  split; [reflexivity|].
  apply (extractReferences_values_occurrences
           (renderDocument sampleDocument) "templates/deploy.yaml");
    reflexivity.
Defined.

(* ===================================================================== *)
(** * Part III. More of the code                                           *)
(* ===================================================================== *)

(** ** File names and classification *)

(** A text is its one part, or ends with a separator and its last part. *)
Lemma split_last_cases (sep : ascii) (s : string) :
  match split sep s with
  | [h] => s = h
  | parts => exists dir, s = dir +:+ String sep (List.last parts EmptyString)
  end.
Proof.
  induction s as [|c s IH]; [reflexivity|]. cbn [split].
  destruct (split sep s) as [|h t] eqn:E; [now apply split_nonempty in E|].
  destruct (Ascii.eqb c sep) eqn:Hc.
  - apply Ascii.eqb_eq in Hc as ->.
    change (List.last (EmptyString :: h :: t) EmptyString)
      with (List.last (h :: t) EmptyString).
    destruct t as [|h' t].
    + exists EmptyString. now rewrite IH.
    + destruct IH as [dir ->]. now exists (String sep dir).
  - destruct t as [|h' t].
    + now rewrite IH.
    + destruct IH as [dir ->]. now exists (String c dir).
Qed.

(** X1. The file name of a path is its last segment: it holds no slash,
    and the path is the file name alone or ends with a slash and the file
    name. *)
Theorem getFileName_is_last_segment (path : string) :
  includes (getFileName path) "/" = false
  /\ (path = getFileName path
      \/ exists dir, path = dir +:+ "/" +:+ getFileName path).
Proof.
  split.
  - unfold getFileName.
    pose proof (split_parts_without_sep "/" path) as Hparts.
    destruct (split "/" path) as [|h t] eqn:E; [now apply split_nonempty in E|].
    rewrite Forall_forall in Hparts. apply Hparts.
    apply list_elem_of_In.
    destruct (@List.exists_last _ (h :: t)) as (l' & a & Hl); [discriminate|].
    rewrite Hl, List.last_last. apply in_or_app. right. now left.
  - unfold getFileName. pose proof (split_last_cases "/" path) as Hcases.
    destruct (split "/" path) as [|h [|h' t]] eqn:E.
    + now apply split_nonempty in E.
    + left. exact Hcases.
    + right. exact Hcases.
Qed.

(** X2. Which files the assembler keeps, by their type: a chart, values or
    template file always; a helper file ([.tpl]) or the notes only under
    [templates/]; a file of type [other] never. *)
Theorem isRelevantFile_by_type (path : string) :
  isRelevantFile path
  = match determineFileType path with
    | FT_chart | FT_values | FT_template => true
    | FT_helper | FT_notes => includes (toLowerCase path) "templates/"
    | FT_other => false
    end.
Proof.
  unfold isRelevantFile, determineFileType.
  set (fileName := toLowerCase (getFileName path)).
  set (a := String.eqb fileName "chart.yaml" || String.eqb fileName "chart.yml").
  set (b := String.eqb fileName "values.yaml" || String.eqb fileName "values.yml").
  set (t := includes (toLowerCase path) "templates/").
  set (y := endsWith fileName ".yaml" || endsWith fileName ".yml").
  set (p := endsWith fileName ".tpl").
  set (n := String.eqb fileName "notes.txt").
  set (h := startsWith fileName ".").
  set (c := includes (toLowerCase path) "charts/").
  replace (endsWith fileName ".yaml" || endsWith fileName ".yml" || p || n)
    with (y || p || n) by reflexivity.
  clearbody a b t y p n h c.
  destruct a, b, t, y, p, n, h, c; reflexivity.
Qed.

(** X3. A drop in which some path has the file name [Chart.yaml] or
    [Chart.yml], in any case of letters, is handed to the parser. *)
Theorem handleDrop_accepts_chart_file_name (files : list (string * string)) :
  hasChartFileName (map fst files) = true ->
  handleDrop files = FilesDropped files.
Proof.
  intros Hname. unfold handleDrop.
  now rewrite (hasChartFileName_accepted _ Hname).
Qed.

Lemma handleDrop_accepts_chart_file_name_witness :
  hasChartFileName (map fst sampleFiles) = true
  /\ handleDrop sampleFiles = FilesDropped sampleFiles.
Proof.
  split; [reflexivity|].
  apply (handleDrop_accepts_chart_file_name sampleFiles). reflexivity.
Defined.

(** ** Chart metadata: when it can be read *)

Section Metadata.
Context `{Host}.

Lemma falsy_stringable (v : JsValue) : truthy v = false -> stringable v = true.
Proof. destruct v; try reflexivity; discriminate. Qed.

(** [String(v)] returns a text when [v] is stringable, and throws a
    [TypeError] otherwise. *)
Lemma toStringJs_spec (v : JsValue) :
  exists text,
    toStringJs v = if stringable v then Normal text else Throw TypeError.
Proof.
  induction v as [| |b|n|s|items IH|props _] using JsValue_nested_ind.
  1-2, 4-5: eexists; reflexivity.
  - destruct b; eexists; reflexivity.
  - cbn [toStringJs stringable].
    assert (Heach : exists parts,
      (fix each (items : list JsValue) : Completion (list string) :=
         match items with
         | [] => Normal []
         | item :: rest =>
             let* part := match item with
                          | JUndefined | JNull => Normal EmptyString
                          | _ => toStringJs item
                          end in
             let* parts := each rest in
             Normal (part :: parts)
         end) items
      = if forallb stringable items then Normal parts else Throw TypeError).
    { induction IH as [|item items [text Hitem] _ [parts Hparts]];
        [eexists; reflexivity|].
      cbn [forallb].
      assert (Hpart : exists part,
        match item with
        | JUndefined | JNull => Normal EmptyString
        | _ => toStringJs item
        end = if stringable item then Normal part else Throw TypeError).
      { destruct item; try (eexists; exact Hitem); eexists; reflexivity. }
      destruct Hpart as [part ->]. rewrite Hparts.
      destruct (stringable item); cbn [bindC andb];
        [|exists []; reflexivity].
      destruct (forallb stringable items); cbn [bindC];
        [eexists; reflexivity | exists []; reflexivity]. }
    destruct Heach as [parts ->].
    destruct (forallb stringable items); cbn [bindC];
      [eexists; reflexivity | exists EmptyString; reflexivity].
  - cbn [toStringJs stringable].
    destruct (hasOwn props "toString"); cbn [negb];
      [exists EmptyString; reflexivity | eexists; reflexivity].
Qed.

(** [String(v || d)] *)
Lemma toStringJs_orElse (v : JsValue) (d : string) :
  exists text,
    toStringJs (orElse v (JStr d))
    = if stringable v then Normal text else Throw TypeError.
Proof.
  unfold orElse. destruct (truthy v) eqn:Hv; [apply toStringJs_spec|].
  rewrite (falsy_stringable v Hv). eexists. reflexivity.
Qed.

Lemma optionalString_spec (v : JsValue) :
  exists text,
    optionalString v = if stringable v then Normal text else Throw TypeError.
Proof.
  unfold optionalString. destruct (truthy v) eqn:Hv.
  - destruct (toStringJs_spec v) as [text ->].
    destruct (stringable v); cbn [bindC];
      [eexists; reflexivity | exists None; reflexivity].
  - rewrite (falsy_stringable v Hv). eexists. reflexivity.
Qed.

Lemma getField_spec (v : JsValue) (f : Field) :
  getField v f = if isNullish v then Throw TypeError else Normal (field v f).
Proof. now destruct v. Qed.

(** One entry of [dependencies]. *)
Lemma parseDependency_spec (d : JsValue) :
  exists dep,
    (let* name := getField d F_name in
     let* name := toStringJs (orElse name (JStr "")) in
     let* version := getField d F_version in
     let* version := toStringJs (orElse version (JStr "")) in
     let* repository := getField d F_repository in
     let* repository := optionalString repository in
     let* condition := getField d F_condition in
     let* condition := optionalString condition in
     let* alias := getField d F_alias in
     let* alias := optionalString alias in
     Normal {| dep_name := name;
               dep_version := version;
               dep_repository := repository;
               dep_condition := condition;
               dep_alias := alias |})
    = if readableDependency d then Normal dep else Throw TypeError.
Proof.
  pose (none := {| dep_name := EmptyString; dep_version := EmptyString;
                   dep_repository := None; dep_condition := None;
                   dep_alias := None |}).
  unfold readableDependency. rewrite !getField_spec.
  destruct (isNullish d); cbn [bindC negb andb]; [now exists none|].
  cbn [forallb dependencyFields].
  destruct (toStringJs_orElse (field d F_name) "") as [name ->].
  destruct (stringable (field d F_name)); cbn [bindC andb];
    [|now exists none].
  destruct (toStringJs_orElse (field d F_version) "") as [version ->].
  destruct (stringable (field d F_version)); cbn [bindC andb];
    [|now exists none].
  destruct (optionalString_spec (field d F_repository)) as [repository ->].
  destruct (stringable (field d F_repository)); cbn [bindC andb];
    [|now exists none].
  destruct (optionalString_spec (field d F_condition)) as [condition ->].
  destruct (stringable (field d F_condition)); cbn [bindC andb];
    [|now exists none].
  destruct (optionalString_spec (field d F_alias)) as [alias ->].
  destruct (stringable (field d F_alias)); cbn [bindC andb];
    [eexists; reflexivity | now exists none].
Qed.

Lemma parseDependencies_spec (deps : JsValue) :
  exists result,
    parseDependencies deps
    = if match deps with
         | JArr items => forallb readableDependency items
         | _ => true
         end
      then Normal result else Throw TypeError.
Proof.
  destruct deps as [| |b|n|s|items|props]; try (eexists; reflexivity).
  cbn [parseDependencies].
  induction items as [|d items [result IH]]; [eexists; reflexivity|].
  cbn [mapC forallb].
  destruct (parseDependency_spec d) as [dep ->].
  destruct (readableDependency d); cbn [bindC andb];
    [|exists []; reflexivity].
  rewrite IH.
  destruct (forallb readableDependency items); cbn [bindC];
    [eexists; reflexivity | exists []; reflexivity].
Qed.

(** What [parseChartYaml] does with the document that [yaml.load]
    returned. *)
Lemma parseChartYaml_spec (content : string) (parsed : JsValue) :
  yaml_load content = Normal parsed ->
  exists cy,
    parseChartYaml content
    = if readableChart parsed then Normal cy else Throw TypeError.
Proof.
  intros Hload. unfold parseChartYaml, readableChart.
  rewrite Hload. cbn [bindC].
  rewrite !getField_spec.
  destruct (isNullish parsed); cbn [bindC negb andb];
    [now exists defaultChartYaml|].
  cbn [forallb chartFields].
  destruct (toStringJs_orElse (field parsed F_name) "unknown") as [name ->].
  destruct (stringable (field parsed F_name)); cbn [bindC andb];
    [|now exists defaultChartYaml].
  destruct (toStringJs_orElse (field parsed F_version) "0.0.0") as [version ->].
  destruct (stringable (field parsed F_version)); cbn [bindC andb];
    [|now exists defaultChartYaml].
  destruct (toStringJs_orElse (field parsed F_apiVersion) "v2")
    as [apiVersion ->].
  destruct (stringable (field parsed F_apiVersion)); cbn [bindC andb];
    [|now exists defaultChartYaml].
  destruct (optionalString_spec (field parsed F_description))
    as [description ->].
  destruct (stringable (field parsed F_description)); cbn [bindC andb];
    [|now exists defaultChartYaml].
  destruct (optionalString_spec (field parsed F_type)) as [type ->].
  destruct (stringable (field parsed F_type)); cbn [bindC andb];
    [|now exists defaultChartYaml].
  destruct (optionalString_spec (field parsed F_appVersion))
    as [appVersion ->].
  destruct (stringable (field parsed F_appVersion)); cbn [bindC andb];
    [|now exists defaultChartYaml].
  destruct (parseDependencies_spec (field parsed F_dependencies))
    as [deps ->].
  destruct (match field parsed F_dependencies with
            | JArr items => forallb readableDependency items
            | _ => true
            end); cbn [bindC];
    [eexists; reflexivity | now exists defaultChartYaml].
Qed.

(** X4. [parseChartYaml] returns the metadata exactly when [yaml.load]
    returns a document that can be read: it is not [null] or [undefined];
    none of [name], [version], [apiVersion], [description], [type] and
    [appVersion] is, or holds in an array, a mapping with an own property
    [toString], on which [String] throws; and if [dependencies] is an
    array, every entry of it is not [null] or [undefined] and has such
    [name], [version], [repository], [condition] and [alias]. In every
    other case it throws. *)
Theorem parseChartYaml_succeeds_iff (content : string) :
  ((exists cy, parseChartYaml content = Normal cy)
   <-> exists parsed,
         yaml_load content = Normal parsed /\ readableChart parsed = true)
  /\ ((exists e, parseChartYaml content = Throw e)
      <-> forall parsed,
            yaml_load content = Normal parsed -> readableChart parsed = false).
Proof.
  destruct (yaml_load content) as [parsed|e] eqn:Hload.
  - destruct (parseChartYaml_spec content parsed Hload) as [cy Hcy].
    rewrite Hcy. destruct (readableChart parsed) eqn:Hread; split; split.
    + intros _. now exists parsed.
    + intros _. now exists cy.
    + intros [e He]. discriminate He.
    + intros Hall. specialize (Hall parsed eq_refl). congruence.
    + intros [cy' Hcy']. discriminate Hcy'.
    + intros (parsed' & [= <-] & Hread'). congruence.
    + intros _ parsed' [= <-]. exact Hread.
    + intros _. now exists TypeError.
  - assert (Hthrow : parseChartYaml content = Throw e).
    { unfold parseChartYaml. now rewrite Hload. }
    rewrite Hthrow. split; split.
    + intros [cy Hcy]. discriminate Hcy.
    + intros (parsed & Hparsed & _). discriminate Hparsed.
    + intros _ parsed Hparsed. discriminate Hparsed.
    + intros _. now exists e.
Qed.

End Metadata.

(** ** Chart assembly: what the chart is made of *)

Lemma chart_type_is_relevant (path : string) :
  determineFileType path = FT_chart -> isRelevantFile path = true.
Proof.
  unfold determineFileType, isRelevantFile.
  destruct (String.eqb (toLowerCase (getFileName path)) "chart.yaml"
            || String.eqb (toLowerCase (getFileName path)) "chart.yml");
    [reflexivity|].
  destruct (String.eqb (toLowerCase (getFileName path)) "values.yaml"
            || String.eqb (toLowerCase (getFileName path)) "values.yml");
    [discriminate|].
  destruct (endsWith (toLowerCase (getFileName path)) ".tpl"); [discriminate|].
  destruct (String.eqb (toLowerCase (getFileName path)) "notes.txt");
    [discriminate|].
  destruct (includes (toLowerCase path) "templates/"
            && (endsWith (toLowerCase (getFileName path)) ".yaml"
                || endsWith (toLowerCase (getFileName path)) ".yml"));
    discriminate.
Qed.

Lemma values_type_is_relevant (path : string) :
  determineFileType path = FT_values -> isRelevantFile path = true.
Proof.
  unfold determineFileType, isRelevantFile.
  destruct (String.eqb (toLowerCase (getFileName path)) "chart.yaml"
            || String.eqb (toLowerCase (getFileName path)) "chart.yml");
    [reflexivity|].
  destruct (String.eqb (toLowerCase (getFileName path)) "values.yaml"
            || String.eqb (toLowerCase (getFileName path)) "values.yml");
    [reflexivity|].
  destruct (endsWith (toLowerCase (getFileName path)) ".tpl"); [discriminate|].
  destruct (String.eqb (toLowerCase (getFileName path)) "notes.txt");
    [discriminate|].
  destruct (includes (toLowerCase path) "templates/"
            && (endsWith (toLowerCase (getFileName path)) ".yaml"
                || endsWith (toLowerCase (getFileName path)) ".yml"));
    discriminate.
Qed.

Section AssemblyMore.
Context `{Host}.

(** What one round of the loop does to the state, when it does not throw. *)
Lemma parseEntry_normal st entry st' :
  parseEntry st entry = Normal st' ->
  st_helmFiles st'
  = st_helmFiles st ++ (if isRelevantEntry entry then [toHelmFile entry] else [])
  /\ (isChartEntry entry = true ->
      exists cy, parseChartYaml entry.2 = Normal cy
                 /\ st_chartYaml st' = Some cy)
  /\ (isChartEntry entry = false -> st_chartYaml st' = st_chartYaml st)
  /\ st_values st'
     = (if isValuesEntry entry then parseValuesYaml entry.2 else st_values st).
Proof.
  destruct entry as [rawPath content].
  unfold parseEntry, isRelevantEntry, isChartEntry, isValuesEntry, entryType,
    toHelmFile. cbn [fst snd].
  set (path := normalizePath rawPath).
  destruct (isRelevantFile path) eqn:Hrel; cbn [negb].
  - destruct (determineFileType path) eqn:Htype.
    + destruct (parseChartYaml content) as [cy|e]; [|discriminate].
      intros [= <-]. cbn. repeat split; eauto; discriminate.
    + intros [= <-]. cbn. repeat split; eauto; discriminate.
    + intros [= <-]. cbn. repeat split; eauto; discriminate.
    + intros [= <-]. cbn. repeat split; eauto; discriminate.
    + intros [= <-]. cbn. repeat split; eauto; discriminate.
    + intros [= <-]. cbn. repeat split; eauto; discriminate.
  - intros [= <-]. rewrite app_nil_r.
    destruct (determineFileType path) eqn:Htype;
      try (repeat split; eauto; discriminate).
    + apply chart_type_is_relevant in Htype. congruence.
    + apply values_type_is_relevant in Htype. congruence.
Qed.

(** When the loop over the files ends, every chart file among them has
    been read. *)
Lemma parseEntries_chart_files_read files : forall st st',
  parseEntries st files = Normal st' ->
  Forall (fun entry =>
            isChartEntry entry = true ->
            exists cy, parseChartYaml entry.2 = Normal cy) files.
Proof.
  induction files as [|entry files IH]; intros st st'; cbn [parseEntries];
    [constructor|].
  destruct (parseEntry st entry) as [st1|e] eqn:Hentry; [|discriminate].
  cbn [bindC]. intros Hrest. constructor; [|now apply (IH st1 st')].
  intros Hchart.
  destruct (parseEntry_normal _ _ _ Hentry) as (_ & Hcy & _).
  destruct (Hcy Hchart) as (cy & Hparse & _). eauto.
Qed.

(** X5. One chart file that [parseChartYaml] cannot read is enough for
    [parseHelmChart] to throw: wherever the file stands among the files,
    and whatever the other files are, no chart is returned. *)
Theorem parseHelmChart_throws_on_unreadable_chart_file
    (files : list (string * string)) (entry : string * string) (e : JsError) :
  entry ∈ files ->
  isChartEntry entry = true ->
  parseChartYaml entry.2 = Throw e ->
  exists e', parseHelmChart files = Throw e'.
Proof.
  intros Hin Hchart Hthrow. unfold parseHelmChart.
  destruct (parseEntries initialParseState files) as [st|e'] eqn:Hst;
    cbn [bindC]; [|eauto].
  pose proof (parseEntries_chart_files_read _ _ _ Hst) as Hall.
  rewrite Forall_forall in Hall.
  destruct (Hall entry Hin Hchart) as [cy Hcy]. congruence.
Qed.

Lemma parseEntries_files files : forall st st',
  parseEntries st files = Normal st' ->
  st_helmFiles st'
  = st_helmFiles st ++ map toHelmFile (List.filter isRelevantEntry files).
Proof.
  induction files as [|entry files IH]; intros st st'; cbn [parseEntries].
  - intros [= <-]. now rewrite app_nil_r.
  - destruct (parseEntry st entry) as [st1|e] eqn:Hentry; [|discriminate].
    cbn [bindC]. intros Hrest. rewrite (IH _ _ Hrest).
    destruct (parseEntry_normal _ _ _ Hentry) as (-> & _).
    cbn [List.filter]. destruct (isRelevantEntry entry); cbn [map].
    + now rewrite <- app_assoc.
    + now rewrite app_nil_r.
Qed.

(** X6. The files of the chart are the relevant entries of the input, in
    the order of the input, each with its normalized path, the file name
    and type computed from that path, and its content unchanged. *)
Theorem parseHelmChart_files (files : list (string * string))
    (chart : HelmChart) :
  parseHelmChart files = Normal chart ->
  chart_files chart = map toHelmFile (List.filter isRelevantEntry files).
Proof.
  unfold parseHelmChart.
  destruct (parseEntries initialParseState files) as [st|e] eqn:Hst;
    [|discriminate].
  cbn [bindC]. intros [= <-]. cbn [chart_files].
  now rewrite (parseEntries_files _ _ _ Hst).
Qed.

Lemma lastOf_cons {A} (a : A) (l : list A) :
  lastOf (a :: l) = match lastOf l with Some b => Some b | None => Some a end.
Proof.
  unfold lastOf. cbn [map].
  destruct l as [|b l]; [reflexivity|].
  change (List.last (Some a :: map Some (b :: l)) None)
    with (List.last (map Some (b :: l)) None).
  destruct (List.last (map Some (b :: l)) None) eqn:E; [reflexivity|].
  exfalso. revert E. generalize b. induction l as [|c l IHl]; intros b'.
  - discriminate.
  - cbn [map]. cbn [map] in IHl. intros E. now apply (IHl c).
Qed.

Lemma parseEntries_last files : forall st st',
  parseEntries st files = Normal st' ->
  match lastOf (List.filter isChartEntry files) with
  | Some entry => exists cy, parseChartYaml entry.2 = Normal cy
                             /\ st_chartYaml st' = Some cy
  | None => st_chartYaml st' = st_chartYaml st
  end
  /\ st_values st'
     = match lastOf (List.filter isValuesEntry files) with
       | Some entry => parseValuesYaml entry.2
       | None => st_values st
       end.
Proof.
  induction files as [|entry files IH]; intros st st'; cbn [parseEntries].
  - intros [= <-]. split; reflexivity.
  - destruct (parseEntry st entry) as [st1|e] eqn:Hentry; [|discriminate].
    cbn [bindC]. intros Hrest.
    destruct (IH _ _ Hrest) as [Hchart Hvalues].
    destruct (parseEntry_normal _ _ _ Hentry) as (_ & Hc1 & Hc0 & Hv).
    cbn [List.filter]. split.
    + destruct (isChartEntry entry) eqn:Hce.
      * rewrite lastOf_cons.
        destruct (lastOf (List.filter isChartEntry files)); [exact Hchart|].
        destruct (Hc1 eq_refl) as (cy & Hparse & Hst1).
        exists cy. split; [exact Hparse | congruence].
      * destruct (lastOf (List.filter isChartEntry files)); [exact Hchart|].
        rewrite Hchart. now apply Hc0.
    + rewrite Hvalues. destruct (isValuesEntry entry) eqn:Hve.
      * rewrite lastOf_cons.
        destruct (lastOf (List.filter isValuesEntry files)); [reflexivity|].
        exact Hv.
      * destruct (lastOf (List.filter isValuesEntry files)); [reflexivity|].
        exact Hv.
Qed.

(** X7. The metadata of the chart are those of the last chart file of
    the input, and the stub [unknown-chart], [0.0.0], [v2] without
    dependencies when there is none; the values are those of the last
    values file, and the empty mapping when there is none. The name,
    version, description and dependencies of the chart are copied from
    its metadata. *)
Theorem parseHelmChart_metadata_and_values (files : list (string * string))
    (chart : HelmChart) :
  parseHelmChart files = Normal chart ->
  match lastOf (List.filter isChartEntry files) with
  | Some entry => parseChartYaml entry.2 = Normal (chart_chartYaml chart)
  | None => chart_chartYaml chart = defaultChartYaml
            /\ chart_name chart = "unknown-chart"
            /\ chart_dependencies chart = []
  end
  /\ chart_values chart
     = match lastOf (List.filter isValuesEntry files) with
       | Some entry => parseValuesYaml entry.2
       | None => {| raw := JObj []; flatKeys := [] |}
       end
  /\ chart_name chart = cy_name (chart_chartYaml chart)
  /\ chart_version chart = cy_version (chart_chartYaml chart)
  /\ chart_description chart = cy_description (chart_chartYaml chart)
  /\ chart_dependencies chart
     = default [] (cy_dependencies (chart_chartYaml chart)).
Proof.
  unfold parseHelmChart.
  destruct (parseEntries initialParseState files) as [st|e] eqn:Hst;
    [|discriminate].
  cbn [bindC]. intros [= <-].
  destruct (parseEntries_last _ _ _ Hst) as [Hchart Hvalues].
  cbn. split; [|split; [exact Hvalues | repeat split]].
  destruct (lastOf (List.filter isChartEntry files)) as [entry|].
  - destruct Hchart as (cy & Hparse & ->). exact Hparse.
  - rewrite Hchart. repeat split.
Qed.

End AssemblyMore.

Lemma parseHelmChart_throws_on_unreadable_chart_file_witness :
  exists e', @parseHelmChart sampleHost emptyChartFiles = Throw e'.
Proof.
  apply (@parseHelmChart_throws_on_unreadable_chart_file sampleHost
           emptyChartFiles ("/mychart/Chart.yaml", EmptyString) TypeError).
  - apply list_elem_of_further, list_elem_of_here.
  - reflexivity.
  - reflexivity.
Defined.

Lemma parseHelmChart_files_witness :
  exists chart,
    @parseHelmChart sampleHost sampleFiles = Normal chart
    /\ chart_files chart = map toHelmFile (List.filter isRelevantEntry sampleFiles).
Proof.
  eexists. split; [reflexivity|].
  apply (@parseHelmChart_files sampleHost sampleFiles). reflexivity.
Defined.

Lemma parseHelmChart_metadata_and_values_witness :
  exists chart,
    @parseHelmChart sampleHost sampleFiles = Normal chart
    /\ @parseChartYaml sampleHost sampleChartYaml
       = Normal (chart_chartYaml chart).
Proof.
  eexists. split; [reflexivity|].
  pose proof (@parseHelmChart_metadata_and_values sampleHost sampleFiles _
                eq_refl) as [Hmeta _].
  exact Hmeta.
Defined.

(** ** What a match is made of *)

Lemma takeString_append (x rest : string) :
  takeString (String.length x) (x +:+ rest) = x.
Proof. induction x as [|c x IH]; cbn; [now destruct rest | now rewrite IH]. Qed.

Lemma consumed_append (x rest : string) : consumed (x +:+ rest) rest = x.
Proof.
  unfold consumed. rewrite length_append.
  replace (String.length x + String.length rest - String.length rest)
    with (String.length x) by lia.
  apply takeString_append.
Qed.

Lemma suffixOf_refl (s : string) : suffixOf s s.
Proof. now exists EmptyString. Qed.

Lemma suffixOf_trans (a b c : string) :
  suffixOf a b -> suffixOf b c -> suffixOf a c.
Proof.
  intros [x ->] [y ->]. exists (y +:+ x). now rewrite append_assoc.
Qed.

Lemma suffixOf_stripPrefix (p s r : string) :
  stripPrefix p s = Some r -> suffixOf r s.
Proof. intros Hs. exists p. now apply stripPrefix_Some. Qed.

Lemma suffixOf_span (p : ascii -> bool) (s : string) :
  suffixOf (snd (span p s)) s.
Proof.
  destruct (span p s) as [a b] eqn:E. exists a.
  now apply (span_append p).
Qed.

Lemma suffixOf_skipSpaces (s : string) : suffixOf (skipSpaces s) s.
Proof. unfold skipSpaces. apply suffixOf_span. Qed.

Lemma suffixOf_tail (c : ascii) (s : string) : suffixOf s (String c s).
Proof. now exists (String c EmptyString). Qed.

Lemma suffixOf_optDash (s : string) : suffixOf (optDash s) s.
Proof.
  destruct s as [|c s]; [apply suffixOf_refl|].
  destruct (Ascii.eqb c "-") eqn:Hc.
  - apply Ascii.eqb_eq in Hc as ->. apply suffixOf_tail.
  - assert (Hsame : optDash (String c s) = String c s).
    { destruct c as [[] [] [] [] [] [] [] []]; try reflexivity; discriminate. }
    rewrite Hsame. apply suffixOf_refl.
Qed.

(** A match that is everything before a suffix [rest] of what follows the
    opening [lit]. *)
Lemma consumed_after_literal (lit s s1 rest : string) :
  lit <> EmptyString ->
  stripPrefix lit s = Some s1 ->
  suffixOf rest s1 ->
  consumed s rest <> EmptyString
  /\ exists rest', s = consumed s rest +:+ rest'.
Proof.
  intros Hlit Hs [x ->]. apply stripPrefix_Some in Hs. subst s.
  rewrite <- append_assoc, consumed_append. split; [|now exists rest].
  destruct lit; [congruence | discriminate].
Qed.

Lemma valuesSegment_append (s one rest : string) :
  valuesSegment s = Some (one, rest) -> s = one +:+ rest.
Proof.
  destruct s as [|c s]; [discriminate|].
  destruct (Ascii.eqb c ".") eqn:Hdot.
  - apply Ascii.eqb_eq in Hdot as ->.
    destruct s as [|d s]; [discriminate|].
    change (valuesSegment (String "." (String d s)))
      with (if isIdentStart d
            then let (ident, rest) := span isIdentChar s in
                 Some (String "."%char (String d ident), rest)
            else None).
    destruct (isIdentStart d); [|discriminate].
    destruct (span isIdentChar s) as [ident r] eqn:E. intros [= <- <-].
    cbn [String.append]. now rewrite <- (span_append _ _ _ _ E).
  - destruct (Ascii.eqb c "[") eqn:Hbr.
    + apply Ascii.eqb_eq in Hbr as ->.
      change (valuesSegment (String "[" s))
        with (let (inner, rest) := span notRBracket s in
              match inner, rest with
              | String _ _, String "]"%char rest' =>
                  Some (String "["%char (inner +:+ "]"), rest')
              | _, _ => None
              end).
      destruct (span notRBracket s) as [inner r] eqn:E.
      destruct inner as [|i inner]; [discriminate|].
      destruct r as [|d r]; [discriminate|].
      destruct (Ascii.eqb d "]") eqn:Hd.
      * apply Ascii.eqb_eq in Hd as ->. intros [= <- <-].
        apply span_append in E. rewrite E.
        cbn [String.append]. now rewrite append_assoc.
      * intros Hsome. exfalso.
        destruct d as [[] [] [] [] [] [] [] []]; try discriminate Hsome;
          discriminate Hd.
    + now rewrite valuesSegment_other.
Qed.

Lemma letterSegment_append (s one rest : string) :
  letterSegment s = Some (one, rest) -> s = one +:+ rest.
Proof.
  destruct s as [|c s]; [discriminate|].
  destruct (Ascii.eqb c ".") eqn:Hdot.
  - apply Ascii.eqb_eq in Hdot as ->.
    change (letterSegment (String "." s))
      with (let (word, rest) := span isLetter s in
            if isEmpty word then None else Some (String "."%char word, rest)).
    destruct (span isLetter s) as [word r] eqn:E.
    destruct (isEmpty word); [discriminate|]. intros [= <- <-].
    cbn [String.append]. now rewrite <- (span_append _ _ _ _ E).
  - intros Hsome. exfalso.
    destruct c as [[] [] [] [] [] [] [] []]; try discriminate Hsome;
      discriminate Hdot.
Qed.

Lemma segments_append (seg : string -> option (string * string)) :
  (forall s one rest, seg s = Some (one, rest) -> s = one +:+ rest) ->
  forall fuel s chain rest,
    segments seg fuel s = (chain, rest) -> s = chain +:+ rest.
Proof.
  intros Hseg fuel. induction fuel as [|fuel IH]; intros s chain rest;
    cbn [segments].
  - now intros [= <- <-].
  - destruct (seg s) as [[one r]|] eqn:E; [|now intros [= <- <-]].
    destruct (segments seg fuel r) as [chain' rest'] eqn:E'.
    intros [= <- <-]. rewrite (Hseg _ _ _ E), (IH _ _ _ E').
    now rewrite append_assoc.
Qed.

Lemma isEmpty_false (s : string) : isEmpty s = false -> s <> EmptyString.
Proof. destruct s; [discriminate | discriminate]. Qed.

Lemma chainRegex_takesPrefix (root : string)
    (seg : string -> option (string * string)) :
  root <> EmptyString ->
  (forall s one rest, seg s = Some (one, rest) -> s = one +:+ rest) ->
  takesPrefix (fun s =>
    match stripPrefix root s with
    | Some s1 =>
        let (chain, _) := segments seg (String.length s1) s1 in
        if isEmpty chain then None
        else Some {| matched := root +:+ chain;
                     group1 := chain; group2 := None |}
    | None => None
    end).
Proof.
  intros Hroot Hseg s m.
  destruct (stripPrefix root s) as [s1|] eqn:Hs; [|discriminate].
  destruct (segments seg (String.length s1) s1) as [chain rest] eqn:E.
  destruct (isEmpty chain); [discriminate|]. intros [= <-]. cbn [matched].
  split.
  - destruct root; [congruence | discriminate].
  - exists rest. rewrite append_assoc.
    rewrite <- (segments_append seg Hseg _ _ _ _ E).
    now apply stripPrefix_Some.
Qed.

Lemma valuesRegex_takesPrefix : takesPrefix valuesRegex.
Proof.
  apply (chainRegex_takesPrefix ".Values" valuesSegment);
    [discriminate | apply valuesSegment_append].
Qed.

Lemma capabilitiesRegex_takesPrefix : takesPrefix capabilitiesRegex.
Proof.
  apply (chainRegex_takesPrefix ".Capabilities" letterSegment);
    [discriminate | apply letterSegment_append].
Qed.

Lemma propertyRegex_takesPrefix (root : string) :
  root <> EmptyString -> takesPrefix (propertyRegex root).
Proof.
  intros Hroot s m. unfold propertyRegex.
  destruct (stripPrefix root s) as [s1|] eqn:Hs; [|discriminate].
  destruct (span isLetter s1) as [prop rest] eqn:E.
  destruct (isEmpty prop); [discriminate|]. intros [= <-]. cbn [matched].
  split.
  - destruct root; [congruence | discriminate].
  - exists rest. rewrite append_assoc, <- (span_append _ _ _ _ E).
    now apply stripPrefix_Some.
Qed.

Lemma quoted_suffix (s name rest : string) (c : ascii) :
  span notDQuote s = (name, String c rest) -> suffixOf rest s.
Proof.
  intros E. apply (suffixOf_trans _ (String c rest)); [apply suffixOf_tail|].
  exists name. now apply (span_append notDQuote).
Qed.

Lemma callRegex_takesPrefix (keyword : string) : takesPrefix (callRegex keyword).
Proof.
  intros s m. unfold callRegex.
  destruct (stripPrefix "{{" s) as [s1|] eqn:Hs; [|discriminate].
  set (s2 := skipSpaces s1).
  set (s3 := match s2 with String "-" t => skipSpaces t | _ => s2 end).
  assert (H3 : suffixOf s3 s1).
  { apply (suffixOf_trans _ s2); [|apply suffixOf_skipSpaces].
    assert (Hdash : s3 = skipSpaces (optDash s2) \/ s3 = s2).
    { unfold s3. destruct s2 as [|c t]; [now right|].
      destruct (Ascii.eqb c "-") eqn:Hc.
      - apply Ascii.eqb_eq in Hc as ->. now left.
      - right. destruct c as [[] [] [] [] [] [] [] []]; try reflexivity;
          discriminate. }
    destruct Hdash as [-> | ->]; [|apply suffixOf_refl].
    eapply suffixOf_trans; [apply suffixOf_skipSpaces | apply suffixOf_optDash]. }
  destruct (stripPrefix keyword s3) as [s4|] eqn:H4; [|discriminate].
  destruct (span isSpace s4) as [ws s5] eqn:H5.
  destruct (isEmpty ws); [discriminate|].
  destruct s5 as [|q s6]; [discriminate|].
  destruct (Ascii.eqb q dquote); [|discriminate].
  destruct (span notDQuote s6) as [name s7] eqn:H7.
  destruct name as [|n name]; [discriminate|].
  destruct s7 as [|c s8]; [discriminate|]. intros [= <-]. cbn [matched].
  apply (consumed_after_literal "{{" s s1); [discriminate | exact Hs |].
  apply (suffixOf_trans _ s6); [now apply (quoted_suffix _ _ _ _ H7)|].
  apply (suffixOf_trans _ (String q s6)); [apply suffixOf_tail|].
  apply (suffixOf_trans _ s4).
  { exists ws. now apply (span_append isSpace). }
  apply (suffixOf_trans _ s3); [|exact H3].
  now apply (suffixOf_stripPrefix keyword).
Qed.

Lemma filesRegex_takesPrefix : takesPrefix filesRegex.
Proof.
  intros s m. unfold filesRegex.
  destruct (stripPrefix ".Files." s) as [s1|] eqn:Hs; [|discriminate].
  destruct (span isLetter s1) as [method s2] eqn:H2.
  destruct (isEmpty method); [discriminate|].
  assert (H3 : suffixOf (skipSpaces s2) s1).
  { apply (suffixOf_trans _ s2); [apply suffixOf_skipSpaces|].
    exists method. now apply (span_append isLetter). }
  destruct (match skipSpaces s2 with
            | String q s4 =>
                if Ascii.eqb q dquote then
                  let (arg, s5) := span notDQuote s4 in
                  match arg, s5 with
                  | String _ _, String _ s6 => Some (arg, s6)
                  | _, _ => None
                  end
                else None
            | EmptyString => None
            end) as [[arg rest]|] eqn:Hq.
  - intros [= <-]. cbn [matched].
    apply (consumed_after_literal ".Files." s s1); [discriminate | exact Hs |].
    apply (suffixOf_trans _ (skipSpaces s2)); [|exact H3].
    destruct (skipSpaces s2) as [|q s4]; [discriminate|].
    destruct (Ascii.eqb q dquote); [|discriminate].
    destruct (span notDQuote s4) as [arg' s5] eqn:H5.
    destruct arg' as [|a arg']; [discriminate|].
    destruct s5 as [|c s6]; [discriminate|]. injection Hq as _ <-.
    apply (suffixOf_trans _ s4); [|apply suffixOf_tail].
    now apply (quoted_suffix _ _ _ _ H5).
  - intros [= <-]. cbn [matched].
    now apply (consumed_after_literal ".Files." s s1); [discriminate | |].
Qed.

Lemma lazyBody_suffix (s body rest : string) :
  lazyBody s = Some (body, rest) -> suffixOf rest s.
Proof.
  revert body. induction s as [|c s IH]; intros body; cbn [lazyBody].
  - destruct (defineClose EmptyString) as [r|] eqn:E; [|discriminate].
    discriminate E.
  - destruct (defineClose (String c s)) as [r|] eqn:E.
    + intros [= <- <-]. unfold defineClose in E.
      destruct (stripPrefix "{{" (String c s)) as [s1|] eqn:H1; [|discriminate].
      destruct (stripPrefix "end" (skipSpaces (optDash s1))) as [s2|] eqn:H2;
        [|discriminate].
      apply (suffixOf_trans _ (optDash (skipSpaces s2)));
        [now apply (suffixOf_stripPrefix "}}")|].
      apply (suffixOf_trans _ (skipSpaces s2)); [apply suffixOf_optDash|].
      apply (suffixOf_trans _ s2); [apply suffixOf_skipSpaces|].
      apply (suffixOf_trans _ (skipSpaces (optDash s1)));
        [now apply (suffixOf_stripPrefix "end")|].
      apply (suffixOf_trans _ (optDash s1)); [apply suffixOf_skipSpaces|].
      apply (suffixOf_trans _ s1); [apply suffixOf_optDash|].
      now apply (suffixOf_stripPrefix "{{").
    + destruct (lazyBody s) as [[b r]|] eqn:E'; [|discriminate].
      intros [= <- <-].
      apply (suffixOf_trans _ s); [now apply (IH b) | apply suffixOf_tail].
Qed.

Lemma defineRegex_takesPrefix : takesPrefix defineRegex.
Proof.
  intros s m. unfold defineRegex.
  destruct (defineOpen s) as [[name s1]|] eqn:Hopen; [|discriminate].
  destruct (lazyBody s1) as [[body rest]|] eqn:Hbody; [|discriminate].
  intros [= <-]. cbn [matched].
  unfold defineOpen in Hopen.
  destruct (stripPrefix "{{" s) as [t1|] eqn:H1; [|discriminate].
  apply (consumed_after_literal "{{" s t1); [discriminate | exact H1 |].
  apply (suffixOf_trans _ s1); [now apply (lazyBody_suffix _ body)|].
  destruct (stripPrefix "define" (skipSpaces (optDash t1))) as [t2|] eqn:H2;
    [|discriminate].
  destruct (span isSpace t2) as [ws t3] eqn:H3.
  destruct (isEmpty ws); [discriminate|].
  destruct t3 as [|q t4]; [discriminate|].
  destruct (Ascii.eqb q dquote); [|discriminate].
  destruct (span notDQuote t4) as [name' t5] eqn:H5.
  destruct name' as [|n name']; [discriminate|].
  destruct t5 as [|c t6]; [discriminate|].
  destruct (stripPrefix "}}" (optDash (skipSpaces t6))) as [t7|] eqn:H7;
    [|discriminate].
  injection Hopen as _ <-.
  apply (suffixOf_trans _ (optDash (skipSpaces t6)));
    [now apply (suffixOf_stripPrefix "}}")|].
  apply (suffixOf_trans _ (skipSpaces t6)); [apply suffixOf_optDash|].
  apply (suffixOf_trans _ t6); [apply suffixOf_skipSpaces|].
  apply (suffixOf_trans _ t4); [now apply (quoted_suffix _ _ _ _ H5)|].
  apply (suffixOf_trans _ (String q t4)); [apply suffixOf_tail|].
  apply (suffixOf_trans _ t2).
  { exists ws. now apply (span_append isSpace). }
  apply (suffixOf_trans _ (skipSpaces (optDash t1)));
    [now apply (suffixOf_stripPrefix "define")|].
  apply (suffixOf_trans _ (optDash t1)); [apply suffixOf_skipSpaces|].
  apply suffixOf_optDash.
Qed.

(** ** References and the text they come from *)

Lemma execAll_matches (re : Pattern) (s : string) : forall skip i i' m,
  (i', m) ∈ execAll re skip i s ->
  exists before suffix,
    s = before +:+ suffix /\ re suffix = Some m
    /\ i' = i + String.length before.
Proof.
  induction s as [|c s IH]; intros skip i i' m; cbn [execAll].
  - intros Hin. now apply not_elem_of_nil in Hin.
  - assert (Hlater : forall k,
      (i', m) ∈ execAll re k (S i) s ->
      exists before suffix,
        String c s = before +:+ suffix /\ re suffix = Some m
        /\ i' = i + String.length before).
    { intros k Hin. destruct (IH _ _ _ _ Hin) as (before & suffix & -> & Hm & ->).
      exists (String c before), suffix. cbn. repeat split; [exact Hm | lia]. }
    destruct skip as [|k]; [|apply Hlater].
    destruct (re (String c s)) as [m0|] eqn:Hre; [|apply Hlater].
    intros Hin. apply elem_of_cons in Hin as [[= -> ->]|Hin]; [|eauto].
    exists EmptyString, (String c s). cbn. repeat split; [exact Hre | lia].
Qed.

Lemma matchAll_substring (re : Pattern) (line : string) (m : MatchAt) :
  takesPrefix re ->
  m ∈ matchAll re line ->
  matched m <> EmptyString
  /\ exists before after, line = before +:+ matched m +:+ after.
Proof.
  intros Hre Hm. unfold matchAll in Hm.
  apply list_elem_of_fmap in Hm as ([i m'] & -> & Hin).
  destruct (execAll_matches _ _ _ _ _ _ Hin) as (before & suffix & -> & Hs & _).
  destruct (Hre _ _ Hs) as [Hne [rest ->]]. cbn [snd].
  split; [exact Hne | now exists before, rest].
Qed.

Lemma Forall_map_matches (re : Pattern) (line : string) (n : nat)
    (f : MatchAt -> Reference) :
  takesPrefix re ->
  (forall m, ref_line (f m) = Some n
             /\ src_line (ref_source (f m)) = Some n
             /\ ref_expression (f m) = matched m) ->
  Forall (pointsAt line n) (map f (matchAll re line)).
Proof.
  intros Hre Hf. apply Forall_map, Forall_forall. intros m Hm.
  destruct (Hf m) as (Hline & Hsrc & Hexpr).
  destruct (matchAll_substring re line m Hre Hm) as [Hne Hsub].
  unfold pointsAt. now rewrite Hexpr.
Qed.

Lemma extractLineReferences_pointsAt filePath lineIndex line :
  Forall (pointsAt line (lineIndex + 1))
         (extractLineReferences filePath lineIndex line).
Proof.
  unfold extractLineReferences, extractValuesReferences,
    extractIncludeReferences, extractChartReferences,
    extractReleaseReferences, extractFilesReferences,
    extractCapabilitiesReferences.
  repeat apply Forall_app_2;
    (apply Forall_map_matches; [|intros m; repeat split]).
  - apply valuesRegex_takesPrefix.
  - apply callRegex_takesPrefix.
  - apply callRegex_takesPrefix.
  - now apply propertyRegex_takesPrefix.
  - now apply propertyRegex_takesPrefix.
  - apply filesRegex_takesPrefix.
  - apply capabilitiesRegex_takesPrefix.
Qed.

Lemma forEachLine_lines filePath (ls : list string) : forall lineIndex r,
  r ∈ forEachLine filePath lineIndex ls ->
  exists k line,
    ls !! k = Some line
    /\ r ∈ extractLineReferences filePath (lineIndex + k) line.
Proof.
  induction ls as [|line ls IH]; intros lineIndex r; cbn [forEachLine].
  - intros Hin. now apply not_elem_of_nil in Hin.
  - intros Hin. apply elem_of_app in Hin as [Hin|Hin].
    + exists 0, line. split; [reflexivity|]. now rewrite Nat.add_0_r.
    + destruct (IH _ _ Hin) as (k & line' & Hk & Hr).
      exists (S k), line'. split; [exact Hk|].
      now replace (lineIndex + S k) with (S lineIndex + k) by lia.
Qed.

(** X8. Every reference that [extractReferences] returns carries the
    given file, and a line number [k + 1] such that its expression is a
    nonempty piece of the text of line [k] (counted from 0) of the content:
    line numbers start at 1, never pass the number of lines, and the
    expression is text of that very line. *)
Theorem extractReferences_point_at_their_line (content filePath : string)
    (r : Reference) :
  r ∈ extractReferences content filePath ->
  src_file (ref_source r) = filePath
  /\ exists k line,
       split newline content !! k = Some line
       /\ pointsAt line (k + 1) r.
Proof.
  intros Hr. split.
  - pose proof (extractReferences_fromFile content filePath) as Hall.
    rewrite Forall_forall in Hall. now apply Hall.
  - unfold extractReferences in Hr.
    destruct (forEachLine_lines _ _ _ _ Hr) as (k & line & Hk & Hin).
    exists k, line. split; [exact Hk|].
    pose proof (extractLineReferences_pointsAt filePath (0 + k) line) as Hall.
    rewrite Forall_forall in Hall. now apply Hall.
Qed.

Lemma extractReferences_point_at_their_line_witness :
  exists r,
    r ∈ extractReferences "replicas: {{ .Values.replicaCount }}" "deploy.yaml"
    /\ src_file (ref_source r) = "deploy.yaml"
    /\ exists k line,
         split newline "replicas: {{ .Values.replicaCount }}" !! k = Some line
         /\ pointsAt line (k + 1) r.
Proof.
  let refs :=
    eval vm_compute in
      (extractReferences "replicas: {{ .Values.replicaCount }}" "deploy.yaml") in
  assert (Hrefs :
    extractReferences "replicas: {{ .Values.replicaCount }}" "deploy.yaml" = refs)
    by (vm_compute; reflexivity);
  match refs with
  | ?r :: _ =>
      exists r;
      assert (Hin : r ∈ extractReferences "replicas: {{ .Values.replicaCount }}"
                                          "deploy.yaml")
        by (rewrite Hrefs; apply list_elem_of_here);
      split; [exact Hin|];
      exact (extractReferences_point_at_their_line
               "replicas: {{ .Values.replicaCount }}" "deploy.yaml" r Hin)
  end.
Defined.

(** ** Text without expressions *)

Lemma execAll_plain (re : Pattern) (s : string) :
  (forall c t, isPlain c = true -> re (String c t) = None) ->
  forallChars isPlain s = true ->
  forall skip i, execAll re skip i s = [].
Proof.
  intros Hre. induction s as [|c s IH]; intros Hs skip i; [reflexivity|].
  cbn [forallChars] in Hs. apply andb_true_iff in Hs as [Hc Hs].
  cbn [execAll]. destruct skip; [|now apply IH].
  rewrite (Hre c s Hc). now apply IH.
Qed.

Lemma isPlain_not_dot c : isPlain c = true -> Ascii.eqb "." c = false.
Proof.
  unfold isPlain. intros Hc. apply negb_true_iff, orb_false_iff in Hc as [Hc _].
  now rewrite Ascii.eqb_sym.
Qed.

Lemma isPlain_not_brace c : isPlain c = true -> Ascii.eqb "{" c = false.
Proof.
  unfold isPlain. intros Hc. apply negb_true_iff, orb_false_iff in Hc as [_ Hc].
  now rewrite Ascii.eqb_sym.
Qed.

Lemma stripPrefix_other_head (a : ascii) (p : string) (c : ascii) (t : string) :
  Ascii.eqb a c = false -> stripPrefix (String a p) (String c t) = None.
Proof. intros Hac. cbn [stripPrefix]. now rewrite Hac. Qed.

Lemma extractLineReferences_plain filePath lineIndex line :
  forallChars isPlain line = true ->
  extractLineReferences filePath lineIndex line = [].
Proof.
  intros Hline.
  assert (Hnone : forall re : Pattern,
            (forall c t, isPlain c = true -> re (String c t) = None) ->
            matchAll re line = []).
  { intros re Hre. unfold matchAll. now rewrite execAll_plain. }
  unfold extractLineReferences, extractValuesReferences,
    extractIncludeReferences, extractChartReferences,
    extractReleaseReferences, extractFilesReferences,
    extractCapabilitiesReferences.
  rewrite !Hnone; [reflexivity|..]; intros c t Hc;
    pose proof (isPlain_not_dot c Hc) as Hdot;
    pose proof (isPlain_not_brace c Hc) as Hbrace.
  - unfold capabilitiesRegex. now rewrite stripPrefix_other_head.
  - unfold filesRegex. now rewrite stripPrefix_other_head.
  - unfold releaseRegex, propertyRegex. now rewrite stripPrefix_other_head.
  - unfold chartRegex, propertyRegex. now rewrite stripPrefix_other_head.
  - unfold templateRegex, callRegex. now rewrite stripPrefix_other_head.
  - unfold includeRegex, callRegex. now rewrite stripPrefix_other_head.
  - unfold valuesRegex. now rewrite stripPrefix_other_head.
Qed.

Lemma split_forallChars (p : ascii -> bool) (sep : ascii) (s : string) :
  forallChars p s = true -> Forall (fun l => forallChars p l = true) (split sep s).
Proof.
  induction s as [|c s IH]; cbn [forallChars split]; [repeat constructor|].
  intros Hs. apply andb_true_iff in Hs as [Hc Hs]. specialize (IH Hs).
  destruct (Ascii.eqb c sep); [constructor; [reflexivity | exact IH]|].
  destruct (split sep s) as [|h t]; [repeat constructor; cbn; now rewrite Hc|].
  inversion IH as [|? ? Hh Ht]; subst. constructor; [|exact Ht].
  cbn [forallChars]. now rewrite Hc, Hh.
Qed.

(** X9. Text in which no dot and no opening brace occurs holds no
    reference of any kind. *)
Theorem extractReferences_plain_text (content filePath : string) :
  forallChars isPlain content = true ->
  extractReferences content filePath = [].
Proof.
  intros Hplain. unfold extractReferences.
  pose proof (split_forallChars isPlain newline content Hplain) as Hlines.
  generalize 0 as lineIndex.
  induction Hlines as [|line ls Hline _ IH]; intros lineIndex; [reflexivity|].
  cbn [forEachLine]. now rewrite extractLineReferences_plain, IH.
Qed.

Lemma extractReferences_plain_text_witness :
  forallChars isPlain "apiVersion: v1" = true
  /\ extractReferences "apiVersion: v1" "templates/a.yaml" = [].
Proof.
  split; [reflexivity|].
  apply (extractReferences_plain_text "apiVersion: v1" "templates/a.yaml").
  reflexivity.
Defined.

(** ** Helper definitions *)

Lemma countChar_append (c : ascii) (a b : string) :
  countChar c (a +:+ b) = countChar c a + countChar c b.
Proof.
  induction a as [|d a IH]; cbn [String.append countChar]; [reflexivity|].
  rewrite IH. lia.
Qed.

Lemma trimEnd_idempotent (s : string) : trimEnd (trimEnd s) = trimEnd s.
Proof.
  induction s as [|c s IH]; [reflexivity|]. cbn [trimEnd].
  destruct (isSpace c && isEmpty (trimEnd s)) eqn:E; [reflexivity|].
  cbn [trimEnd]. rewrite IH, E. reflexivity.
Qed.

Lemma skipSpaces_outside (s : string) :
  startsOutside isSpace (skipSpaces s) = true.
Proof.
  unfold skipSpaces. induction s as [|c s IH]; [reflexivity|].
  cbn [span]. destruct (isSpace c) eqn:Hc.
  - destruct (span isSpace s). exact IH.
  - cbn. now rewrite Hc.
Qed.

Lemma skipSpaces_fixed (s : string) :
  startsOutside isSpace s = true -> skipSpaces s = s.
Proof.
  destruct s as [|c s]; [reflexivity|]. cbn [startsOutside].
  intros Hc. apply negb_true_iff in Hc. unfold skipSpaces. cbn [span].
  now rewrite Hc.
Qed.

Lemma trimEnd_outside (s : string) :
  startsOutside isSpace s = true -> startsOutside isSpace (trimEnd s) = true.
Proof.
  destruct s as [|c s]; [reflexivity|]. cbn [startsOutside trimEnd].
  intros Hc. apply negb_true_iff in Hc. rewrite Hc. cbn. now rewrite Hc.
Qed.

Lemma trim_idempotent (s : string) : trim (trim s) = trim s.
Proof.
  unfold trim.
  rewrite (skipSpaces_fixed (trimEnd (skipSpaces s))).
  - apply trimEnd_idempotent.
  - apply trimEnd_outside, skipSpaces_outside.
Qed.

(** X10. Every helper definition that [extractHelperDefinitions] returns
    carries the given file, starts at a [{{] of the content, and has as its
    line one more than the number of line feeds before that place, so a
    line between 1 and the number of lines; its content is trimmed. *)
Theorem extractHelperDefinitions_located (content filePath : string)
    (h : HelperDefinition) :
  h ∈ extractHelperDefinitions content filePath ->
  helper_file h = filePath
  /\ trim (helper_content h) = helper_content h
  /\ exists before rest n,
       content = before +:+ "{{" +:+ rest
       /\ helper_line h = Some n
       /\ n = countChar newline before + 1
       /\ 1 <= n <= countChar newline content + 1.
Proof.
  unfold extractHelperDefinitions. intros Hh.
  apply list_elem_of_fmap in Hh as ([i m] & -> & Hin).
  destruct (execAll_matches _ _ _ _ _ _ Hin)
    as (before & suffix & Hcontent & Hm & Hi).
  cbn [helper_file helper_content helper_line].
  split; [reflexivity|]. split; [apply trim_idempotent|].
  assert (Hopen : exists rest, suffix = "{{" +:+ rest).
  { unfold defineRegex, defineOpen in Hm.
    destruct (stripPrefix "{{" suffix) as [s1|] eqn:Hs; [|discriminate].
    exists s1. now apply stripPrefix_Some. }
  destruct Hopen as [rest ->].
  assert (Hbefore : takeString i content = before).
  { rewrite Hcontent, Hi. cbn [Nat.add]. apply takeString_append. }
  exists before, rest, (countChar newline before + 1).
  rewrite Hbefore. repeat split; [exact Hcontent | lia |].
  rewrite Hcontent, countChar_append. lia.
Qed.

Lemma helperSample_defined :
  extractHelperDefinitions
    ("{{- define " +:+ quoted "app.name" +:+ " -}} web {{- end -}}") "_helpers.tpl"
  = [{| helper_name := "app.name"; helper_file := "_helpers.tpl";
        helper_line := Some 1; helper_content := "web" |}].
Proof. reflexivity. Qed.

Lemma extractHelperDefinitions_located_witness :
  exists h,
    h ∈ extractHelperDefinitions
          ("{{- define " +:+ quoted "app.name" +:+ " -}} web {{- end -}}")
          "_helpers.tpl"
    /\ helper_file h = "_helpers.tpl".
Proof.
  eexists. split; [rewrite helperSample_defined; apply list_elem_of_here|].
  apply (extractHelperDefinitions_located
           ("{{- define " +:+ quoted "app.name" +:+ " -}} web {{- end -}}")
           "_helpers.tpl").
  rewrite helperSample_defined. apply list_elem_of_here.
Defined.

Lemma includes_suffixOf (r s sub : string) :
  suffixOf r s -> includes r sub = true -> includes s sub = true.
Proof.
  intros [x ->] Hr. induction x as [|c x IH]; [exact Hr|].
  cbn [String.append includes]. rewrite IH. apply orb_true_r.
Qed.

Lemma stripPrefix_includes (p s r : string) :
  stripPrefix p s = Some r -> includes s p = true.
Proof.
  intros Hs. destruct s as [|c s]; cbn [includes]; unfold startsWith;
    now rewrite Hs.
Qed.

Lemma defineClose_has_end (s r : string) :
  defineClose s = Some r -> includes s "end" = true.
Proof.
  unfold defineClose.
  destruct (stripPrefix "{{" s) as [s1|] eqn:H1; [|discriminate].
  destruct (stripPrefix "end" (skipSpaces (optDash s1))) as [s2|] eqn:H2;
    [|discriminate].
  intros _. apply (includes_suffixOf (skipSpaces (optDash s1))).
  - apply (suffixOf_trans _ (optDash s1)); [apply suffixOf_skipSpaces|].
    apply (suffixOf_trans _ s1); [apply suffixOf_optDash|].
    now apply (suffixOf_stripPrefix "{{").
  - now apply (stripPrefix_includes _ _ s2).
Qed.

Lemma lazyBody_has_end (s body rest : string) :
  lazyBody s = Some (body, rest) -> includes s "end" = true.
Proof.
  revert body rest. induction s as [|c s IH]; intros body rest; cbn [lazyBody].
  - destruct (defineClose EmptyString) eqn:E; discriminate.
  - destruct (defineClose (String c s)) as [r|] eqn:E.
    + intros _. now apply (defineClose_has_end _ r).
    + destruct (lazyBody s) as [[b r]|] eqn:E'; [|discriminate].
      intros _. apply (includes_suffixOf s); [apply suffixOf_tail|].
      now apply (IH b r).
Qed.

(** X11. A [define] that no [end] closes gives no helper definition:
    content in which the word [end] does not occur has none. *)
Theorem extractHelperDefinitions_unterminated (content filePath : string) :
  includes content "end" = false ->
  extractHelperDefinitions content filePath = [].
Proof.
  intros Hend. unfold extractHelperDefinitions.
  destruct (execAll defineRegex 0 0 content) as [|[i m] l] eqn:E; [reflexivity|].
  exfalso.
  destruct (execAll_matches defineRegex content 0 0 i m)
    as (before & suffix & Hcontent & Hm & _).
  { rewrite E. apply list_elem_of_here. }
  unfold defineRegex in Hm.
  destruct (defineOpen suffix) as [[name s1]|] eqn:Hopen; [|discriminate].
  destruct (lazyBody s1) as [[body rest]|] eqn:Hbody; [|discriminate].
  assert (Hs1 : suffixOf s1 suffix).
  { unfold defineOpen in Hopen.
    destruct (stripPrefix "{{" suffix) as [t1|] eqn:H1; [|discriminate].
    destruct (stripPrefix "define" (skipSpaces (optDash t1))) as [t2|] eqn:H2;
      [|discriminate].
    destruct (span isSpace t2) as [ws t3] eqn:H3.
    destruct (isEmpty ws); [discriminate|].
    destruct t3 as [|q t4]; [discriminate|].
    destruct (Ascii.eqb q dquote); [|discriminate].
    destruct (span notDQuote t4) as [name' t5] eqn:H5.
    destruct name' as [|n name']; [discriminate|].
    destruct t5 as [|c t6]; [discriminate|].
    destruct (stripPrefix "}}" (optDash (skipSpaces t6))) as [t7|] eqn:H7;
      [|discriminate].
    injection Hopen as _ <-.
    apply (suffixOf_trans _ (optDash (skipSpaces t6)));
      [now apply (suffixOf_stripPrefix "}}")|].
    apply (suffixOf_trans _ (skipSpaces t6)); [apply suffixOf_optDash|].
    apply (suffixOf_trans _ t6); [apply suffixOf_skipSpaces|].
    apply (suffixOf_trans _ t4); [now apply (quoted_suffix _ _ _ _ H5)|].
    apply (suffixOf_trans _ (String q t4)); [apply suffixOf_tail|].
    apply (suffixOf_trans _ t2).
    { exists ws. now apply (span_append isSpace). }
    apply (suffixOf_trans _ (skipSpaces (optDash t1)));
      [now apply (suffixOf_stripPrefix "define")|].
    apply (suffixOf_trans _ (optDash t1)); [apply suffixOf_skipSpaces|].
    apply (suffixOf_trans _ t1); [apply suffixOf_optDash|].
    now apply (suffixOf_stripPrefix "{{"). }
  assert (Hhas : includes content "end" = true).
  { apply (includes_suffixOf suffix); [now exists before|].
    apply (includes_suffixOf s1); [exact Hs1|].
    now apply (lazyBody_has_end _ body rest). }
  congruence.
Qed.

Lemma extractHelperDefinitions_unterminated_witness :
  includes ("{{- define " +:+ quoted "app.name" +:+ " -}} web") "end" = false
  /\ extractHelperDefinitions
       ("{{- define " +:+ quoted "app.name" +:+ " -}} web") "_helpers.tpl" = [].
Proof.
  split; [reflexivity|].
  apply (extractHelperDefinitions_unterminated
           ("{{- define " +:+ quoted "app.name" +:+ " -}} web") "_helpers.tpl").
  reflexivity.
Defined.

(** ** Sets and groups of references *)

Lemma setElements_spec {A} `{EqDecision A} (l : list A) : forall seen,
  NoDup (setElements seen l)
  /\ forall x, x ∈ setElements seen l <-> x ∈ l /\ x ∉ seen.
Proof.
  induction l as [|a l IH]; intros seen; cbn [setElements].
  - split; [constructor|]. intros x. split; [intros Hx | intros [Hx _]];
      now apply not_elem_of_nil in Hx.
  - destruct (bool_decide (a ∈ seen)) eqn:Ha.
    + apply bool_decide_eq_true in Ha. destruct (IH seen) as [Hnd Hin].
      split; [exact Hnd|]. intros x. rewrite Hin, elem_of_cons.
      split; [tauto|]. intros [[->|Hx] Hseen]; tauto.
    + apply bool_decide_eq_false in Ha. destruct (IH (a :: seen)) as [Hnd Hin].
      split.
      * constructor; [|exact Hnd]. rewrite Hin.
        intros [_ Hnot]. apply Hnot. apply list_elem_of_here.
      * intros x. rewrite !elem_of_cons, Hin, elem_of_cons.
        split.
        -- intros [->|[Hx Hnot]]; [tauto|]. split; [tauto|].
           intros Hseen. apply Hnot. now right.
        -- intros [[->|Hx] Hseen]; [now left|].
           destruct (decide (x = a)) as [->|Hne]; [now left|].
           right. split; [exact Hx|]. intros [?|?]; tauto.
Qed.

(** X12. The types that [getUniqueReferenceTypes] returns are pairwise
    different, and a type is among them exactly when some reference has
    it. *)
Theorem getUniqueReferenceTypes_spec (references : list Reference) :
  NoDup (getUniqueReferenceTypes references)
  /\ forall t, t ∈ getUniqueReferenceTypes references
               <-> exists r, r ∈ references /\ ref_type r = t.
Proof.
  unfold getUniqueReferenceTypes.
  destruct (setElements_spec (map ref_type references) []) as [Hnd Hin].
  split; [exact Hnd|]. intros t. rewrite Hin. split.
  - intros [Ht _]. apply list_elem_of_fmap in Ht as (r & -> & Hr). eauto.
  - intros (r & Hr & <-). split; [|apply not_elem_of_nil].
    apply list_elem_of_fmap. eauto.
Qed.

Lemma groupedGet_pushGrouped {K A} `{EqDecision K} (key k : K) (a : A)
    (grouped : list (K * list A)) :
  groupedGet k (pushGrouped key a grouped)
  = if bool_decide (key = k)
    then Some (default [] (groupedGet k grouped) ++ [a])
    else groupedGet k grouped.
Proof.
  induction grouped as [|[k' g] grouped IH]; cbn [pushGrouped groupedGet].
  - destruct (bool_decide (key = k)); reflexivity.
  - destruct (bool_decide (k' = key)) eqn:Hk'; cbn [groupedGet].
    + apply bool_decide_eq_true in Hk' as ->.
      destruct (bool_decide (key = k)); reflexivity.
    + apply bool_decide_eq_false in Hk'.
      destruct (bool_decide (k' = k)) eqn:Hk; [|exact IH].
      apply bool_decide_eq_true in Hk as ->.
      rewrite bool_decide_eq_false_2 by congruence. reflexivity.
Qed.

Lemma groupedGet_fold {K A} `{EqDecision K} (keyOf : A -> K) (k : K)
    (l : list A) : forall grouped,
  groupedGet k (fold_left (fun grouped a => pushGrouped (keyOf a) a grouped)
                          l grouped)
  = match List.filter (fun a => bool_decide (keyOf a = k)) l with
    | [] => groupedGet k grouped
    | later => Some (default [] (groupedGet k grouped) ++ later)
    end.
Proof.
  induction l as [|a l IH]; intros grouped; cbn [fold_left List.filter];
    [reflexivity|].
  rewrite IH, groupedGet_pushGrouped.
  destruct (bool_decide (keyOf a = k)); [|reflexivity].
  cbn [default].
  destruct (List.filter (fun a0 => bool_decide (keyOf a0 = k)) l) as [|b later].
  - reflexivity.
  - cbn [default id]. now rewrite <- app_assoc.
Qed.

Lemma pushGrouped_keys {K A} `{EqDecision K} (key : K) (a : A)
    (grouped : list (K * list A)) :
  map fst (pushGrouped key a grouped)
  = if bool_decide (key ∈ map fst grouped) then map fst grouped
    else map fst grouped ++ [key].
Proof.
  induction grouped as [|[k g] grouped IH]; cbn [pushGrouped map fst].
  - rewrite bool_decide_eq_false_2 by apply not_elem_of_nil. reflexivity.
  - destruct (bool_decide (k = key)) eqn:Hk; cbn [map fst].
    + apply bool_decide_eq_true in Hk as ->.
      rewrite bool_decide_eq_true_2 by apply list_elem_of_here. reflexivity.
    + apply bool_decide_eq_false in Hk. rewrite IH.
      destruct (bool_decide (key ∈ map fst grouped)) eqn:Hin.
      * apply bool_decide_eq_true in Hin.
        rewrite bool_decide_eq_true_2 by now apply list_elem_of_further.
        reflexivity.
      * apply bool_decide_eq_false in Hin.
        rewrite bool_decide_eq_false_2; [reflexivity|].
        intros Hc. apply elem_of_cons in Hc as [?|?]; congruence.
Qed.

Lemma setElements_same_seen {A} `{EqDecision A} (l : list A) :
  forall seen seen',
    (forall x, x ∈ seen <-> x ∈ seen') ->
    setElements seen l = setElements seen' l.
Proof.
  induction l as [|a l IH]; intros seen seen' Hsame; cbn [setElements];
    [reflexivity|].
  rewrite (bool_decide_ext (a ∈ seen) (a ∈ seen') (Hsame a)).
  destruct (bool_decide (a ∈ seen')); [now apply IH|].
  f_equal. apply IH. intros x. rewrite !elem_of_cons, Hsame. tauto.
Qed.

Lemma grouped_keys_fold {K A} `{EqDecision K} (keyOf : A -> K) (l : list A) :
  forall grouped,
    map fst (fold_left (fun grouped a => pushGrouped (keyOf a) a grouped)
                       l grouped)
    = map fst grouped ++ setElements (map fst grouped) (map keyOf l).
Proof.
  induction l as [|a l IH]; intros grouped; cbn [fold_left map setElements].
  - now rewrite app_nil_r.
  - rewrite IH, pushGrouped_keys.
    destruct (bool_decide (keyOf a ∈ map fst grouped)); [reflexivity|].
    rewrite <- app_assoc. cbn [app]. do 2 f_equal.
    apply setElements_same_seen. intros x.
    rewrite elem_of_app, !elem_of_cons, elem_of_nil. tauto.
Qed.

(** X13. The group that [groupReferencesByType] keeps for a type holds
    the references of that type in the order of the input, and a type
    without references has no group; the keys of the [Map] are the types
    in the order of their first reference. *)
Theorem groupReferencesByType_spec (references : list Reference) :
  (forall t,
     groupedGet t (groupReferencesByType references)
     = match List.filter (fun r => bool_decide (ref_type r = t)) references with
       | [] => None
       | group => Some group
       end)
  /\ map fst (groupReferencesByType references)
     = getUniqueReferenceTypes references.
Proof.
  unfold groupReferencesByType. split.
  - intros t. now rewrite (groupedGet_fold ref_type t references []).
  - now rewrite (grouped_keys_fold ref_type references []).
Qed.

(** X14. The group that [groupReferencesBySourceFile] keeps for a file
    holds the references from that file in the order of the input, and a
    file without references has no group. *)
Theorem groupReferencesBySourceFile_spec (references : list Reference)
    (file : string) :
  groupedGet file (groupReferencesBySourceFile references)
  = match List.filter
            (fun r => bool_decide (src_file (ref_source r) = file)) references
    with
    | [] => None
    | group => Some group
    end.
Proof.
  unfold groupReferencesBySourceFile.
  now rewrite (groupedGet_fold (fun r => src_file (ref_source r)) file
                               references []).
Qed.

(** ** Referenced paths and names *)

Lemma distinct_spec (l : list string) : forall seen,
  NoDup (distinct seen l)
  /\ forall x, x ∈ distinct seen l
               <-> x ∈ l /\ existsb (String.eqb x) seen = false.
Proof.
  induction l as [|a l IH]; intros seen; cbn [distinct].
  - split; [constructor|]. intros x. split; [intros Hx | intros [Hx _]];
      now apply not_elem_of_nil in Hx.
  - destruct (existsb (String.eqb a) seen) eqn:Ha.
    + destruct (IH seen) as [Hnd Hin]. split; [exact Hnd|].
      intros x. rewrite Hin, elem_of_cons. split; [tauto|].
      intros [[->|Hx] Hseen]; [congruence | tauto].
    + destruct (IH (a :: seen)) as [Hnd Hin]. split.
      * constructor; [|exact Hnd]. rewrite Hin. cbn [existsb].
        rewrite String.eqb_refl. intros [_ Hf]. discriminate.
      * intros x. rewrite !elem_of_cons, Hin. cbn [existsb]. split.
        -- intros [->|[Hx Hseen]]; [tauto|].
           apply orb_false_iff in Hseen as [_ Hseen]. tauto.
        -- intros [[->|Hx] Hseen]; [now left|].
           destruct (String.eqb x a) eqn:Hxa.
           ++ apply String.eqb_eq in Hxa. now left.
           ++ right. split; [exact Hx|]. now rewrite Hseen.
Qed.

Lemma filter_nonempty {A} (p : A -> bool) (l : list A) :
  List.filter p l <> [] <-> exists a, a ∈ l /\ p a = true.
Proof.
  split.
  - intros Hne. destruct (List.filter p l) as [|a t] eqn:E; [congruence|].
    exists a. rewrite list_elem_of_In, <- filter_In, E. now left.
  - intros (a & Ha & Hp) E.
    assert (Hin : In a (List.filter p l)).
    { apply filter_In. split; [now apply list_elem_of_In | exact Hp]. }
    now rewrite E in Hin.
Qed.

(** X15. The referenced value paths are pairwise different, and a path is
    among them exactly when [getReferencesToValue] finds a reference to
    it. *)
Theorem getReferencedValuePaths_spec (chart : HelmChart) :
  NoDup (getReferencedValuePaths chart)
  /\ forall path, path ∈ getReferencedValuePaths chart
                  <-> getReferencesToValue chart path <> [].
Proof.
  unfold getReferencedValuePaths, getReferencesToValue.
  destruct (distinct_spec
              (map (fun ref => tgt_path (ref_target ref))
                   (filter (fun ref => ref_type ref = RT_values)
                           (chart_references chart))) []) as [Hnd Hin].
  split; [exact Hnd|]. intros path. rewrite Hin, filter_nonempty. split.
  - intros [Hp _]. apply list_elem_of_fmap in Hp as (r & -> & Hr).
    apply list_elem_of_filter in Hr as [Ht Hr]. exists r. split; [exact Hr|].
    rewrite bool_decide_eq_true_2 by exact Ht. apply String.eqb_refl.
  - intros (r & Hr & Hp). apply andb_true_iff in Hp as [Ht Hp].
    apply bool_decide_eq_true in Ht. apply String.eqb_eq in Hp.
    split; [|reflexivity]. apply list_elem_of_fmap. exists r.
    split; [now rewrite Hp|]. now apply list_elem_of_filter.
Qed.

(** X16. The referenced helper names are pairwise different, and a name
    is among them exactly when [getReferencesToHelper] finds an [include]
    or [template] reference to it. *)
Theorem getReferencedHelperNames_spec (chart : HelmChart) :
  NoDup (getReferencedHelperNames chart)
  /\ forall name, name ∈ getReferencedHelperNames chart
                  <-> getReferencesToHelper chart name <> [].
Proof.
  unfold getReferencedHelperNames, getReferencesToHelper.
  destruct (setElements_spec
              (map (fun ref => tgt_path (ref_target ref))
                   (List.filter isHelperCall (chart_references chart))) [])
    as [Hnd Hin].
  split; [exact Hnd|]. intros name. rewrite Hin, filter_nonempty. split.
  - intros [Hp _]. apply list_elem_of_fmap in Hp as (r & -> & Hr).
    apply list_elem_of_In, filter_In in Hr as [Hr Ht]. exists r.
    split; [now apply list_elem_of_In|]. now rewrite Ht, String.eqb_refl.
  - intros (r & Hr & Hp). apply andb_true_iff in Hp as [Ht Hp].
    apply String.eqb_eq in Hp. split; [|apply not_elem_of_nil].
    apply list_elem_of_fmap. exists r. split; [now rewrite Hp|].
    apply list_elem_of_In, filter_In. split; [now apply list_elem_of_In | exact Ht].
Qed.

(** ** Which nodes and edges a chart gives *)

Lemma find_isChartFile_type files f :
  List.find isChartFile files = Some f -> file_type f = FT_chart.
Proof.
  intros Hf. apply find_some in Hf as [_ Hf]. now apply bool_decide_eq_true in Hf.
Qed.

Section GraphContents.
Context `{Host}.

Lemma filter_withPosition (t : NodeType) pos (l : list GraphNode) :
  List.filter (hasNodeType t) (map (withPosition pos) l)
  = map (withPosition pos) (List.filter (hasNodeType t) l).
Proof. rewrite filter_map_commute. reflexivity. Qed.

Lemma buildNodes_of_type (chart : HelmChart) :
  List.filter (hasNodeType NT_release) (buildNodes chart)
  = [createReleaseNode 0 0]
  /\ List.filter (hasNodeType NT_value) (buildNodes chart)
     = map (fun path => createValueNode path (valueLabel path) 0 0)
           (getReferencedValuePaths chart)
  /\ List.filter (hasNodeType NT_helper) (buildNodes chart)
     = map (fun helper => createHelperNode (helper_name helper) 0 0)
           (chart_helpers chart)
  /\ List.filter (hasNodeType NT_chart) (buildNodes chart) = [].
Proof.
  unfold buildNodes.
  set (fileNode := fun file : HelmFile =>
         createFileNode (file_path file) (file_name file) (file_type file) 0 0).
  set (valueNode := fun path : string =>
         createValueNode path (valueLabel path) 0 0).
  set (helperNode := fun helper : HelperDefinition =>
         createHelperNode (helper_name helper) 0 0).
  set (chartFileNode :=
         match List.find isChartFile (chart_files chart) with
         | Some chartFile =>
             [createFileNode (file_path chartFile) (file_name chartFile)
                             FT_chart 0 0]
         | None => []
         end).
  set (valuesFileNode :=
         match List.find isValuesFile (chart_files chart) with
         | Some valuesFile =>
             [createFileNode (file_path valuesFile) (file_name valuesFile)
                             FT_values 0 0]
         | None => []
         end).
  assert (Hchart : forall t, t <> NT_file ->
            List.filter (hasNodeType t) chartFileNode = []).
  { intros t Ht. unfold chartFileNode.
    destruct (List.find isChartFile (chart_files chart)); [|reflexivity].
    cbn [List.filter]. unfold hasNodeType.
    rewrite bool_decide_eq_false_2; [reflexivity|]. cbn. congruence. }
  assert (Hvalues : forall t, t <> NT_file ->
            List.filter (hasNodeType t) valuesFileNode = []).
  { intros t Ht. unfold valuesFileNode.
    destruct (List.find isValuesFile (chart_files chart)); [|reflexivity].
    cbn [List.filter]. unfold hasNodeType.
    rewrite bool_decide_eq_false_2; [reflexivity|]. cbn. congruence. }
  assert (Hfiles : forall t l, t <> NT_file ->
            List.filter (hasNodeType t) (map fileNode l) = []).
  { intros t l Ht. apply filter_map_none. intros file. unfold hasNodeType.
    apply bool_decide_eq_false_2. cbn. congruence. }
  rewrite !List.filter_app, !Hchart, !Hvalues, !Hfiles by discriminate.
  rewrite !(filter_map_none (hasNodeType NT_release) valueNode),
    !(filter_map_none (hasNodeType NT_release) helperNode),
    !(filter_map_none (hasNodeType NT_chart) valueNode),
    !(filter_map_none (hasNodeType NT_chart) helperNode),
    !(filter_map_none (hasNodeType NT_helper) valueNode),
    !(filter_map_none (hasNodeType NT_value) helperNode),
    !(filter_map_all (hasNodeType NT_value) valueNode),
    !(filter_map_all (hasNodeType NT_helper) helperNode)
    by reflexivity.
  cbn [List.filter app]. rewrite !app_nil_r. repeat split.
Qed.

(** X17. Whatever the chart, its graph has exactly one release node, one
    value node per referenced value path, in the order of the first
    references and with the identifier [value:<path>], one helper node
    per helper definition, with the identifier [helper:<name>], and no
    node of the type [chart]: the chart file is drawn as a file node. *)
Theorem buildGraphData_nodes_by_type (chart : HelmChart) :
  map node_id (List.filter (hasNodeType NT_release)
                           (graph_nodes (buildGraphData chart)))
  = ["release:info"]
  /\ map node_id (List.filter (hasNodeType NT_value)
                              (graph_nodes (buildGraphData chart)))
     = map (String.append "value:") (getReferencedValuePaths chart)
  /\ map node_id (List.filter (hasNodeType NT_helper)
                              (graph_nodes (buildGraphData chart)))
     = map (fun h => "helper:" +:+ helper_name h) (chart_helpers chart)
  /\ List.filter (hasNodeType NT_chart) (graph_nodes (buildGraphData chart))
     = [].
Proof.
  rewrite buildGraphData_nodes. unfold autoOrganizeLayout.
  rewrite !filter_withPosition, !map_map.
  change (fun x => node_id (withPosition _ x)) with node_id.
  destruct (buildNodes_of_type chart) as (-> & -> & -> & ->).
  rewrite !map_map. repeat split.
Qed.

Lemma createEdge_drawn (chart : HelmChart) (ref : Reference) :
  match createEdge ref chart with
  | Some edge =>
      isDrawn chart ref = true
      /\ edge_id edge = ref_id ref
      /\ edge_label edge = Some (ref_expression ref)
      /\ edge_source edge = "file:" +:+ src_file (ref_source ref)
  | None => isDrawn chart ref = false
  end.
Proof.
  unfold createEdge, isDrawn.
  destruct (ref_type ref); cbn [isEmpty]; try (repeat split; fail).
  destruct (List.find isChartFile (chart_files chart)); cbn [isEmpty];
    repeat split.
Qed.

Lemma omap_createEdge (chart : HelmChart) (refs : list Reference) :
  Forall2 (fun ref edge =>
             edge_id edge = ref_id ref
             /\ edge_label edge = Some (ref_expression ref)
             /\ edge_source edge = "file:" +:+ src_file (ref_source ref))
          (List.filter (isDrawn chart) refs)
          (omap (fun ref => createEdge ref chart) refs).
Proof.
  induction refs as [|ref refs IH]; cbn [List.filter omap]; [constructor|].
  pose proof (createEdge_drawn chart ref) as Hedge.
  unfold omap in *. cbn [list_omap]. fold (@list_omap Reference GraphEdge).
  destruct (createEdge ref chart) as [edge|].
  - destruct Hedge as (-> & Hrest). now constructor.
  - rewrite Hedge. exact IH.
Qed.

(** X18. The edges of the graph are, in order, those of the references
    that are drawn: every [values], [include], [template] and [release]
    reference, a [chart] reference when the chart has a chart file, and
    never a [files] or [capabilities] reference. Each edge carries the
    identifier and the expression of its reference and starts at the node
    of the file of the reference. *)
Theorem buildGraphData_edges_of_references (chart : HelmChart) :
  Forall2 (fun ref edge =>
             edge_id edge = ref_id ref
             /\ edge_label edge = Some (ref_expression ref)
             /\ edge_source edge = "file:" +:+ src_file (ref_source ref))
          (List.filter (isDrawn chart) (chart_references chart))
          (graph_edges (buildGraphData chart)).
Proof. rewrite buildGraphData_edges. apply omap_createEdge. Qed.

End GraphContents.

(** ** Values: the flat keys and the lookup by path *)

Lemma flattenValues_pushes (Q : ValueKey -> Prop) :
  (forall prefix v, v <> JNull -> v <> JUndefined ->
                    Q (mkValueKey prefix v (getValueType v))) ->
  forall v prefix result,
    Forall Q result -> Forall Q (flattenValues v prefix result).
Proof.
  intros Hq v.
  induction v as [| |b|n|s|items IH|props IH] using JsValue_nested_ind;
    intros prefix result Hres; simpl; auto.
  - apply Forall_app_2; [exact Hres|]. constructor; [|constructor].
    apply (Hq prefix (JBool b)); discriminate.
  - apply Forall_app_2; [exact Hres|]. constructor; [|constructor].
    apply (Hq prefix (JNum n)); discriminate.
  - apply Forall_app_2; [exact Hres|]. constructor; [|constructor].
    apply (Hq prefix (JStr s)); discriminate.
  - assert (Hown : Forall Q (result ++ [mkValueKey prefix (JArr items) VT_array])).
    { apply Forall_app_2; [exact Hres|]. constructor; [|constructor].
      apply (Hq prefix (JArr items)); discriminate. }
    revert Hown. generalize (result ++ [mkValueKey prefix (JArr items) VT_array]).
    generalize 0 as index.
    induction IH as [|item items Hitem _ IHitems]; intros index acc Hacc;
      [exact Hacc|].
    apply IHitems. now apply Hitem.
  - assert (Hown : Forall Q (if isEmpty prefix then result
                             else result ++ [mkValueKey prefix (JObj props) VT_object])).
    { destruct (isEmpty prefix); [exact Hres|].
      apply Forall_app_2; [exact Hres|]. constructor; [|constructor].
      apply (Hq prefix (JObj props)); discriminate. }
    revert Hown.
    generalize (if isEmpty prefix then result
                else result ++ [mkValueKey prefix (JObj props) VT_object]).
    induction IH as [|[key value] props Hvalue _ IHprops]; intros acc Hacc;
      [exact Hacc|].
    apply IHprops. now apply Hvalue.
Qed.

Section ValuesMore.
Context `{Host}.

(** X19. Whatever the text, the raw values that [parseValuesYaml] returns
    are truthy, and every flat key has the full path [.Values.<path>], the
    type of its value, and a value that is neither [null] nor [undefined]:
    the type [null] never occurs among the flat keys. *)
Theorem parseValuesYaml_entries (content : string) :
  truthy (raw (parseValuesYaml content)) = true
  /\ Forall wellFormedKey (flatKeys (parseValuesYaml content)).
Proof.
  split.
  - unfold parseValuesYaml. cbn [raw].
    destruct (yaml_load content) as [v|e]; [|reflexivity].
    unfold orElse. now destruct (truthy v) eqn:Hv.
  - unfold parseValuesYaml. cbn [flatKeys].
    apply flattenValues_pushes; [|constructor].
    intros prefix v Hnull Hundef. unfold wellFormedKey. cbn.
    repeat split; [|exact Hundef]. now destruct v.
Qed.

(** X20. The values are the empty mapping without flat keys exactly when
    [yaml.load] throws on the text, returns a falsy value (as for an empty
    text), or returns the empty mapping; [parseValuesYaml] itself never
    throws. *)
Theorem parseValuesYaml_empty_iff (content : string) :
  parseValuesYaml content = {| raw := JObj []; flatKeys := [] |}
  <-> match yaml_load content with
      | Throw _ => True
      | Normal v => truthy v = false \/ v = JObj []
      end.
Proof.
  unfold parseValuesYaml.
  destruct (yaml_load content) as [v|e]; [|now split].
  unfold orElse. destruct (truthy v) eqn:Hv.
  - split.
    + intros Heq. right. now injection Heq as ->.
    + intros [Hf| ->]; [discriminate | reflexivity].
  - split; [now left | reflexivity].
Qed.

(** X21. Looking up [a.b] is looking up [a] and going on with [b] from
    what was found, whatever [a] and [b] are. A lookup in a scalar, or in
    [null] or [undefined], gives [undefined] for every path. In a mapping,
    a key without dot that is no own key is read from [Object.prototype]:
    [__proto__] gives that prototype, a name such as [constructor] or
    [toString] gives a function, and every other key gives [undefined]. *)
Theorem getValueByPath_composes (obj : JsValue) (a b : string) :
  getValueByPath obj (a +:+ "." +:+ b)
  = getValueByParts (getValueByPath obj a) (split "." b)
  /\ (if isScalar obj then getValueByPath obj a = Data JUndefined else True)
  /\ match obj with
     | JObj props =>
         if hasOwn props a || includes a "." then True
         else getValueByPath obj a
              = if String.eqb a "__proto__" then Proto ObjectPrototype
                else if isNamed objectPrototypeNames a
                     then Method ObjectPrototype a
                     else Data JUndefined
     | _ => True
     end.
Proof.
  split; [|split].
  - unfold getValueByPath.
    change ("." +:+ b) with (String "." b).
    now rewrite split_append_sep, getValueByParts_app.
  - unfold getValueByPath.
    pose proof (split_nonempty "." a) as Hne.
    destruct (split "." a) as [|part parts]; [congruence|].
    now destruct obj.
  - destruct obj as [| |x|x|x|x|props]; try exact I.
    destruct (hasOwn props a) eqn:Hown; [exact I|].
    destruct (includes a ".") eqn:Hdot; [exact I|]. cbn [orb].
    unfold getValueByPath. rewrite (split_without_sep "." a Hdot).
    cbn [getValueByParts isObject getMember]. rewrite Hown. reflexivity.
Qed.

(** What the lookup finds through the prototype chain, on the sample
    values: the method [map] of the array of ports, the constructor of
    [Object.prototype], nothing below a function, and nothing under a name
    that no prototype has. *)
Lemma getValueByPath_inherited_examples :
  getValueByPath (JObj sampleValues) "ports.map" = Method ArrayPrototype "map"
  /\ getValueByPath (JObj sampleValues) "__proto__.constructor"
     = Method ObjectPrototype "constructor"
  /\ getValueByPath (JObj sampleValues) "ports.__proto__.__proto__.__proto__"
     = Data JNull
  /\ getValueByPath (JObj sampleValues) "constructor.name" = Data JUndefined
  /\ getValueByPath (JObj sampleValues) "image.missing.tag" = Data JUndefined.
Proof. repeat split. Qed.

End ValuesMore.

(** ** Statistics of a graph *)

Lemma countUp_keys key counts k :
  k ∈ map fst (countUp key counts) <-> k = key \/ k ∈ map fst counts.
Proof.
  induction counts as [|[k0 c] counts IH]; cbn [countUp map fst].
  - rewrite elem_of_cons. split; [intros [->|Hk]; auto | intros [->|Hk]; auto].
  - destruct (String.eqb k0 key) eqn:E; cbn [map fst]; rewrite !elem_of_cons.
    + apply String.eqb_eq in E as ->. tauto.
    + rewrite IH. tauto.
Qed.

Lemma countUp_NoDup key counts :
  NoDup (map fst counts) -> NoDup (map fst (countUp key counts)).
Proof.
  induction counts as [|[k0 c] counts IH]; cbn [countUp map fst]; intros Hnd.
  - constructor; [apply not_elem_of_nil | constructor].
  - apply NoDup_cons in Hnd as [Hk0 Hnd].
    destruct (String.eqb k0 key) eqn:E; cbn [map fst].
    + now constructor.
    + constructor; [|now apply IH]. rewrite countUp_keys.
      intros [->|Hin]; [|contradiction]. now rewrite String.eqb_refl in E.
Qed.

Lemma countUp_positive key counts :
  Forall (fun kc : string * nat => 0 < kc.2) counts ->
  Forall (fun kc : string * nat => 0 < kc.2) (countUp key counts).
Proof.
  induction 1 as [|[k0 c] counts Hc Hrest IH]; cbn [countUp].
  - constructor; [cbn; lia | constructor].
  - destruct (String.eqb k0 key); constructor; auto; cbn in *; lia.
Qed.

Lemma countOf_countUp key counts k :
  countOf k (countUp key counts)
  = countOf k counts + (if String.eqb key k then 1 else 0).
Proof.
  induction counts as [|[k0 c] counts IH]; cbn [countUp countOf].
  - now destruct (String.eqb key k).
  - destruct (String.eqb k0 key) eqn:E; cbn [countOf].
    + apply String.eqb_eq in E as ->. destruct (String.eqb key k); lia.
    + destruct (String.eqb k0 k) eqn:E'; [|exact IH].
      apply String.eqb_eq in E' as ->. rewrite String.eqb_sym, E. lia.
Qed.

Lemma countUp_sum key counts :
  list_sum (map snd (countUp key counts)) = S (list_sum (map snd counts)).
Proof.
  induction counts as [|[k0 c] counts IH]; cbn [countUp]; [reflexivity|].
  destruct (String.eqb k0 key); cbn [map snd];
    change (list_sum ?l) with (fold_right plus 0 l) in *; cbn [fold_right];
    [lia|].
  rewrite IH. lia.
Qed.

(** The counts after a [forEach] that counts every element under its key. *)
Lemma tally_spec {A} (key : A -> string) (l : list A) : forall counts,
  NoDup (map fst counts) ->
  Forall (fun kc : string * nat => 0 < kc.2) counts ->
  let result := fold_left (fun counts a => countUp (key a) counts) l counts in
  NoDup (map fst result)
  /\ Forall (fun kc : string * nat => 0 < kc.2) result
  /\ (forall k, countOf k result
                = countOf k counts
                  + length (List.filter (fun a => String.eqb (key a) k) l))
  /\ list_sum (map snd result) = list_sum (map snd counts) + length l.
Proof.
  induction l as [|a l IH]; intros counts Hnd Hpos; cbn [fold_left].
  - repeat split; auto; cbn; intros; lia.
  - destruct (IH (countUp (key a) counts)) as (Hnd' & Hpos' & Hcount & Hsum);
      [now apply countUp_NoDup | now apply countUp_positive|].
    repeat split; [exact Hnd' | exact Hpos' | |].
    + intros k. rewrite Hcount, countOf_countUp. cbn [List.filter].
      destruct (String.eqb (key a) k); cbn [length]; lia.
    + rewrite Hsum, countUp_sum. cbn [length]. lia.
Qed.

Lemma nodeTypeName_eqb (t : NodeType) (node : GraphNode) :
  String.eqb (nodeTypeName (node_type node)) (nodeTypeName t)
  = hasNodeType t node.
Proof.
  unfold hasNodeType. destruct (node_type node), t; reflexivity.
Qed.

(** X22. The statistics of a graph: under the name of a node type stands
    the number of nodes of that type, under a name the number of edges
    whose reference type (or [unknown]) has that name; a name that is
    listed is listed once and with a positive count, and the counts add up
    to [totalNodes] and to [totalEdges]. *)
Theorem getGraphStats_counts (graphData : GraphData) :
  let stats := getGraphStats graphData in
  (forall t, countOf (nodeTypeName t) (nodesByType stats)
             = length (List.filter (hasNodeType t) (graph_nodes graphData)))
  /\ (forall name,
        countOf name (edgesByType stats)
        = length (List.filter (fun edge => String.eqb (edgeTypeName edge) name)
                              (graph_edges graphData)))
  /\ NoDup (map fst (nodesByType stats))
  /\ NoDup (map fst (edgesByType stats))
  /\ Forall (fun kc : string * nat => 0 < kc.2)
            (nodesByType stats ++ edgesByType stats)
  /\ list_sum (map snd (nodesByType stats)) = totalNodes stats
  /\ list_sum (map snd (edgesByType stats)) = totalEdges stats.
Proof.
  cbn zeta. unfold getGraphStats.
  cbn [nodesByType edgesByType totalNodes totalEdges].
  destruct (tally_spec (fun node => nodeTypeName (node_type node))
                       (graph_nodes graphData) [])
    as (Hnd & Hpos & Hcount & Hsum); [constructor | constructor|].
  destruct (tally_spec edgeTypeName (graph_edges graphData) [])
    as (Hnd' & Hpos' & Hcount' & Hsum'); [constructor | constructor|].
  cbn zeta in *.
  repeat split; auto.
  - intros t. rewrite Hcount. cbn [countOf plus]. f_equal.
    apply filter_ext. intros node. apply nodeTypeName_eqb.
  - now apply Forall_app_2.
Qed.

(** ** The part of a graph around one file *)

Lemma connectedIds_spec (fileNodeId : string) (edges : list GraphEdge) (x : string) :
  x ∈ connectedIds fileNodeId edges
  <-> x = fileNodeId
      \/ exists edge, edge ∈ edges
                      /\ (edge_source edge = x \/ edge_target edge = x).
Proof.
  unfold connectedIds.
  assert (Hfold : forall (init : gset string),
    x ∈ fold_left
          (fun ids edge => ids ∪ {[edge_source edge]} ∪ {[edge_target edge]})
          edges init
    <-> x ∈ init
        \/ exists edge, edge ∈ edges
                        /\ (edge_source edge = x \/ edge_target edge = x)).
  { induction edges as [|e edges IH]; intros init; cbn [fold_left].
    - split; [now left|]. intros [Hx|(e & He & _)]; [exact Hx|].
      now apply not_elem_of_nil in He.
    - rewrite IH, !elem_of_union, !elem_of_singleton. split.
      + intros [[[Hx|Hx]|Hx]|(e' & He' & Hends)]; [now left| | |].
        * right. exists e. split; [left|]; auto.
        * right. exists e. split; [left|]; auto.
        * right. exists e'. split; [now right | exact Hends].
      + intros [Hx|(e' & He' & Hends)]; [now left; left; left|].
        apply elem_of_cons in He' as [->|He'].
        * destruct Hends as [<-|<-]; left; [left; right | right]; reflexivity.
        * right. now exists e'. }
  rewrite Hfold, elem_of_singleton. reflexivity.
Qed.

Lemma touches_spec fileNodeId edge :
  touches fileNodeId edge = true
  <-> edge_source edge = fileNodeId \/ edge_target edge = fileNodeId.
Proof.
  unfold touches. now rewrite orb_true_iff, !String.eqb_eq.
Qed.

Lemma filter_twice {A} (p : A -> bool) (l : list A) :
  List.filter p (List.filter p l) = List.filter p l.
Proof.
  induction l as [|a l IH]; cbn [List.filter]; [reflexivity|].
  destruct (p a) eqn:E; cbn [List.filter]; [|exact IH].
  now rewrite E, IH.
Qed.

(** X23. What [filterGraphByFile] keeps: the edges that start or end at
    the node of the file, and the nodes whose identifier is that of the
    file node or of an end of a kept edge. In particular the node at
    either end of a kept edge is kept when the graph has it. *)
Theorem filterGraphByFile_spec (graphData : GraphData) (filePath : string) :
  let fileNodeId := "file:" +:+ filePath in
  let filtered := filterGraphByFile graphData filePath in
  (forall edge,
     edge ∈ graph_edges filtered
     <-> edge ∈ graph_edges graphData
         /\ (edge_source edge = fileNodeId \/ edge_target edge = fileNodeId))
  /\ (forall node,
        node ∈ graph_nodes filtered
        <-> node ∈ graph_nodes graphData
            /\ (node_id node = fileNodeId
                \/ exists edge,
                     edge ∈ graph_edges filtered
                     /\ (edge_source edge = node_id node
                         \/ edge_target edge = node_id node))).
Proof.
  cbn zeta. unfold filterGraphByFile. cbn [graph_nodes graph_edges]. split.
  - intros edge. rewrite !list_elem_of_In, filter_In, touches_spec. reflexivity.
  - intros node. rewrite list_elem_of_In, filter_In, bool_decide_eq_true,
      connectedIds_spec, <- list_elem_of_In. reflexivity.
Qed.

(** X24. Filtering by the same file a second time changes nothing, and
    the filter keeps the order of the nodes and of the edges. *)
Theorem filterGraphByFile_idempotent (graphData : GraphData)
    (filePath : string) :
  filterGraphByFile (filterGraphByFile graphData filePath) filePath
  = filterGraphByFile graphData filePath
  /\ sublist (graph_nodes (filterGraphByFile graphData filePath))
             (graph_nodes graphData)
  /\ sublist (graph_edges (filterGraphByFile graphData filePath))
             (graph_edges graphData).
Proof.
  assert (Hsub : forall A (p : A -> bool) (l : list A),
            sublist (List.filter p l) l).
  { intros A p l. induction l as [|a l IH]; cbn [List.filter]; [constructor|].
    destruct (p a); now constructor. }
  split; [|split; apply Hsub].
  unfold filterGraphByFile. cbn [graph_nodes graph_edges].
  rewrite !filter_twice. reflexivity.
Qed.

(** ** The layout computes every position *)

Lemma insert_keeps (m : PositionMap) (i k : string) (p : Position) :
  is_Some (m !! k) -> is_Some (<[i := p]> m !! k).
Proof.
  intros Hk. apply lookup_insert_is_Some.
  destruct (decide (i = k)); [now left | now right].
Qed.

Lemma forEachIndexed_invariant {A St} (P : St -> Prop)
    (f : St -> A -> nat -> St) (l : list A) :
  (forall s a i, P s -> P (f s a i)) ->
  forall i s, P s -> P (forEachIndexed f l i s).
Proof.
  intros Hf. induction l as [|a l IH]; intros i s Hs; cbn [forEachIndexed];
    [exact Hs|]. apply IH. now apply Hf.
Qed.

Lemma fold_left_invariant {A St} (P : St -> Prop) (f : St -> A -> St)
    (l : list A) :
  (forall s a, P s -> P (f s a)) -> forall s, P s -> P (fold_left f l s).
Proof.
  intros Hf. induction l as [|a l IH]; intros s Hs; cbn [fold_left];
    [exact Hs|]. apply IH. now apply Hf.
Qed.

Lemma forEachIndexed_insert_dom {A} (key : A -> string)
    (val : PositionMap -> A -> nat -> Position) (l : list A) (k : string) :
  forall i s,
    is_Some (s !! k) \/ k ∈ map key l ->
    is_Some (forEachIndexed (fun s a i => <[key a := val s a i]> s) l i s !! k).
Proof.
  induction l as [|a l IH]; intros i s Hk; cbn [forEachIndexed].
  - destruct Hk as [Hk|Hk]; [exact Hk | now apply not_elem_of_nil in Hk].
  - apply IH. cbn [map] in Hk. rewrite elem_of_cons in Hk.
    destruct Hk as [Hk|[->|Hk]]; [left; now apply insert_keeps | | now right].
    left. apply lookup_insert_is_Some. now left.
Qed.

Lemma assignInitial_dom (columns : list (list GraphNode)) (k : string) :
  (exists col, col ∈ columns /\ k ∈ map node_id col) ->
  is_Some (assignInitial columns !! k).
Proof.
  unfold assignInitial.
  assert (Hgen : forall (s : PositionMap) i,
    is_Some (s !! k) \/ (exists col, col ∈ columns /\ k ∈ map node_id col) ->
    is_Some
      (forEachIndexed
         (fun nodePositions col colIndex =>
            let x := nth colIndex columnX 0%float in
            forEachIndexed
              (fun nodePositions node rowIndex =>
                 <[node_id node :=
                     {| pos_x := x;
                        pos_y := natToFloat rowIndex * verticalSpacing |}]>
                   nodePositions)
              col 0 nodePositions)
         columns i s !! k)).
  { induction columns as [|col columns IH]; intros s i Hk; cbn [forEachIndexed].
    - destruct Hk as [Hk|(col & Hcol & _)]; [exact Hk|].
      now apply not_elem_of_nil in Hcol.
    - apply IH. cbn zeta.
      destruct Hk as [Hk|(col' & Hcol & Hk)].
      + left. apply (forEachIndexed_insert_dom node_id
                       (fun _ _ rowIndex =>
                          {| pos_x := nth i columnX 0%float;
                             pos_y := natToFloat rowIndex * verticalSpacing |})).
        now left.
      + apply elem_of_cons in Hcol as [->|Hcol].
        * left. apply (forEachIndexed_insert_dom node_id
                         (fun _ _ rowIndex =>
                            {| pos_x := nth i columnX 0%float;
                               pos_y := natToFloat rowIndex * verticalSpacing |})).
          now right.
        * right. now exists col'. }
  intros Hany. apply Hgen. now right.
Qed.

Lemma optimizeColumnOrder_keeps col pos adj k :
  is_Some (pos !! k) -> is_Some (optimizeColumnOrder col pos adj !! k).
Proof.
  intros Hk. unfold optimizeColumnOrder.
  apply (forEachIndexed_invariant (fun s : PositionMap => is_Some (s !! k)));
    [|exact Hk].
  intros s a i Hs. now apply insert_keeps.
Qed.

Lemma sweep_keeps columns adj pos k :
  is_Some (pos !! k) -> is_Some (sweep columns adj pos !! k).
Proof.
  intros Hk. unfold sweep.
  apply (fold_left_invariant (fun s : PositionMap => is_Some (s !! k)));
    [|exact Hk].
  intros s a Hs. now apply optimizeColumnOrder_keeps.
Qed.

Lemma insertBy_elem {A} (cmp : A -> A -> Z) (x y : A) (l : list A) :
  y ∈ insertBy cmp x l <-> y = x \/ y ∈ l.
Proof.
  induction l as [|z l IH]; cbn [insertBy].
  - rewrite elem_of_cons. reflexivity.
  - destruct (0 <? cmp x z)%Z; rewrite !elem_of_cons; [rewrite IH|];
      rewrite ?elem_of_cons; tauto.
Qed.

Lemma sortBy_elem {A} (cmp : A -> A -> Z) (y : A) (l : list A) :
  y ∈ sortBy cmp l <-> y ∈ l.
Proof.
  induction l as [|x l IH]; cbn [sortBy]; [reflexivity|].
  now rewrite insertBy_elem, IH, elem_of_cons.
Qed.

Section LayoutPositions.
Context `{Host}.

Lemma layoutValueGroups_keeps valueNodes pos k :
  is_Some (pos !! k) -> is_Some (layoutValueGroups valueNodes pos !! k).
Proof.
  intros Hk. unfold layoutValueGroups.
  destruct valueNodes as [|n valueNodes]; [exact Hk|].
  apply (fold_left_invariant
           (fun state : PositionMap * float => is_Some (state.1 !! k)));
    [|exact Hk].
  intros [s y] group Hs. cbn [fst].
  apply (forEachIndexed_invariant (fun s : PositionMap => is_Some (s !! k)));
    [|exact Hs].
  intros s' a i Hs'. destruct (s' !! node_id a); [|exact Hs'].
  now apply insert_keeps.
Qed.

Lemma centerColumnsVertically_keeps columns pos k :
  is_Some (pos !! k) -> is_Some (centerColumnsVertically columns pos !! k).
Proof.
  intros Hk. unfold centerColumnsVertically.
  apply (fold_left_invariant (fun s : PositionMap => is_Some (s !! k)));
    [|exact Hk].
  intros s col Hs. destruct col as [|n col]; [exact Hs|].
  destruct (columnExtent (n :: col) s) as [minY maxY].
  apply (fold_left_invariant (fun s : PositionMap => is_Some (s !! k)));
    [|exact Hs].
  intros s' a Hs'. destruct (s' !! node_id a); [|exact Hs'].
  now apply insert_keeps.
Qed.

Lemma node_in_its_column (nodes : list GraphNode) (node : GraphNode) :
  node ∈ nodes ->
  exists col, col ∈ groupIntoColumns nodes /\ node ∈ col.
Proof.
  intros Hin.
  exists (List.filter (fun n => columnIndex n =? columnIndex node) nodes).
  split.
  - unfold groupIntoColumns.
    assert (Hk : columnIndex node ∈ [0; 1; 2; 3]).
    { unfold columnIndex.
      destruct (node_type node);
        try destruct (data_fileType (node_data node)) as [[]|];
        repeat (first [apply list_elem_of_here | apply list_elem_of_further]). }
    apply list_elem_of_fmap. now exists (columnIndex node).
  - apply list_elem_of_In, filter_In. split; [now apply list_elem_of_In|].
    apply Nat.eqb_refl.
Qed.

(** Every node has a position in the map of [autoOrganizeLayout]: the
    fallback [|| node.position] is never taken. *)
Lemma computePositions_covers (nodes : list GraphNode)
    (edges : list GraphEdge) (node : GraphNode) :
  node ∈ nodes -> is_Some (computePositions nodes edges !! node_id node).
Proof.
  intros Hin. unfold computePositions. cbn zeta.
  apply centerColumnsVertically_keeps, layoutValueGroups_keeps.
  assert (Hiter : forall n (g : PositionMap -> PositionMap) pos,
            (forall s, is_Some (s !! node_id node) ->
                       is_Some (g s !! node_id node)) ->
            is_Some (pos !! node_id node) ->
            is_Some (Nat.iter n g pos !! node_id node)).
  { induction n as [|n IH]; intros g pos Hg Hpos; cbn; [exact Hpos|].
    apply Hg. now apply IH. }
  apply Hiter; [intros s; apply sweep_keeps|].
  apply assignInitial_dom.
  destruct (node_in_its_column nodes node Hin) as (col & Hcol & Hnode).
  exists (sortBy (byConnections (buildAdjacency edges)) col). split.
  - apply list_elem_of_fmap. now exists col.
  - apply list_elem_of_fmap. exists node. split; [reflexivity|].
    now apply sortBy_elem.
Qed.

(** X25. The layout does not read the positions that the nodes come
    with: when two lists of nodes agree in everything but [position] (the
    second is the first with every node changed by an [f] that keeps the
    [id], the [type] and the [data]), [autoOrganizeLayout] gives the same
    nodes for both. Every node of the result carries a computed position. *)
Theorem autoOrganizeLayout_ignores_positions (f : GraphNode -> GraphNode)
    (nodes : list GraphNode) (edges : list GraphEdge) :
  (forall node, node_id (f node) = node_id node) ->
  (forall node, node_type (f node) = node_type node) ->
  (forall node, node_data (f node) = node_data node) ->
  autoOrganizeLayout (map f nodes) edges = autoOrganizeLayout nodes edges.
Proof.
  intros f_id f_type f_data. unfold autoOrganizeLayout.
  rewrite (computePositions_reads f f_id f_type f_data), map_map.
  apply map_ext_in. intros node Hin.
  destruct (computePositions_covers nodes edges node) as [pos Hpos];
    [now apply list_elem_of_In|].
  unfold withPosition. now rewrite f_id, f_type, f_data, Hpos.
Qed.

End LayoutPositions.

Lemma autoOrganizeLayout_ignores_positions_witness :
  @autoOrganizeLayout sampleHost (map (moveTo 7 9) sampleNodes) []
  = @autoOrganizeLayout sampleHost sampleNodes [].
Proof.
  apply (@autoOrganizeLayout_ignores_positions sampleHost (moveTo 7 9)
           sampleNodes []); intros node; reflexivity.
Defined.

(** ** Normalised paths *)

Lemma includes_char_head (c x : ascii) (s : string) :
  includes (String x s) (String c EmptyString)
  = Ascii.eqb c x || includes s (String c EmptyString).
Proof.
  cbn [includes]. unfold startsWith. cbn [stripPrefix].
  now destruct (Ascii.eqb c x).
Qed.

Lemma includes_char_append (c : ascii) (a b : string) :
  includes (a +:+ b) (String c EmptyString)
  = includes a (String c EmptyString) || includes b (String c EmptyString).
Proof.
  induction a as [|x a IH]; [reflexivity|].
  cbn [String.append]. rewrite !includes_char_head, IH. apply orb_assoc.
Qed.

Lemma mapChars_without (c d : ascii) (s : string) :
  includes s (String c EmptyString) = false ->
  mapChars (fun x => if Ascii.eqb x c then d else x) s = s.
Proof.
  induction s as [|x s IH]; cbn [mapChars]; [reflexivity|].
  rewrite includes_char_head. intros Hs.
  apply orb_false_iff in Hs as [Hx Hs].
  now rewrite Ascii.eqb_sym, Hx, IH.
Qed.

Lemma split_join (sep : ascii) (l : list string) :
  l <> [] ->
  Forall (fun part => includes part (String sep EmptyString) = false) l ->
  split sep (join (String sep EmptyString) l) = l.
Proof.
  intros Hne Hl. induction Hl as [|p l Hp Hl IH]; [congruence|].
  destruct l as [|p2 l].
  - cbn [join]. now apply split_without_sep.
  - change (join (String sep EmptyString) (p :: p2 :: l))
      with (p +:+ String sep (join (String sep EmptyString) (p2 :: l))).
    rewrite split_append_sep, IH by discriminate.
    now rewrite (split_without_sep sep p).
Qed.

Lemma last_drop_lt {A} (d : A) (k : nat) : forall l : list A,
  k < length l -> List.last (drop k l) d = List.last l d.
Proof.
  induction k as [|k IH]; intros l Hk; [reflexivity|].
  destruct l as [|a l]; [cbn in Hk; lia|].
  cbn [drop skipn]. rewrite IH by (cbn in Hk; lia).
  destruct l as [|b l]; [cbn in Hk; lia | reflexivity].
Qed.

Lemma findIndex_lt {A} (pred : A -> bool) (l : list A) : forall i,
  findIndex pred l = Some i -> i < length l.
Proof.
  induction l as [|a l IH]; intros i; cbn [findIndex length]; [discriminate|].
  destruct (pred a); [intros [= <-]; lia|].
  destruct (findIndex pred l) as [j|]; [|discriminate].
  intros [= <-]. specialize (IH j eq_refl). lia.
Qed.

Lemma last_split_leading (path : string) :
  List.last (split "/" (slashed path)) EmptyString
  = List.last (split "/" (slashed (snd (span (Ascii.eqb "/") path))))
              EmptyString.
Proof.
  induction path as [|c path IH]; [reflexivity|].
  cbn [span]. destruct (Ascii.eqb "/" c) eqn:Hc; [|reflexivity].
  apply Ascii.eqb_eq in Hc as <-.
  destruct (span (Ascii.eqb "/") path) as [a b]. cbn [snd] in *.
  rewrite <- IH. unfold slashed. cbn [mapChars].
  change (Ascii.eqb "/" "\") with false. cbv iota. cbn [split].
  change (Ascii.eqb "/" "/") with true. cbv iota.
  fold (slashed path).
  destruct (split "/" (slashed path)) as [|h t] eqn:E; [|reflexivity].
  now apply split_nonempty in E.
Qed.

(** X26. Normalising a path keeps its file name: the last segment of
    the normalised path is the last segment of the path with its
    backslashes converted, however many leading segments were removed. *)
Theorem normalizePath_keeps_file_name (path : string) :
  getFileName (normalizePath path) = getFileName (slashed path).
Proof.
  unfold getFileName. rewrite (last_split_leading path).
  unfold normalizePath. cbn zeta.
  change (mapChars (fun c => if Ascii.eqb c "\" then "/"%char else c) ?s)
    with (slashed s).
  set (normalized := slashed (snd (span (Ascii.eqb "/") path))).
  assert (Hdrop : forall k,
    k < length (split "/" normalized) ->
    List.last (split "/" (join "/" (drop k (split "/" normalized)))) EmptyString
    = List.last (split "/" normalized) EmptyString).
  { intros k Hk. rewrite split_join.
    - now apply last_drop_lt.
    - intros Hnil. apply (f_equal (@length string)) in Hnil.
      rewrite length_drop in Hnil. cbn in Hnil. lia.
    - apply Forall_drop, split_parts_without_sep. }
  destruct (1 <? length (split "/" normalized)) eqn:Hlen; [|reflexivity].
  apply Nat.ltb_lt in Hlen.
  destruct (existsb (fun p => existsb (String.eqb p) chartIndicators)
                    (split "/" normalized)); cbn [andb]; [|reflexivity].
  destruct (findIndex isChartYamlName (split "/" normalized)) as [[|k]|] eqn:Hidx;
    apply Hdrop; try lia.
  apply findIndex_lt in Hidx. lia.
Qed.

(** X27. Normalising removes the first folder of a path in the layout
    of a chart: for a nonempty first segment [root] and a rest [rel], both
    without backslash, such that some segment is a chart indicator
    ([Chart.yaml], [Chart.yml], [values.yaml], [values.yml], [templates])
    and no segment of [rel] but its first is [Chart.yaml] or [Chart.yml],
    the normalised [root/rel] is [rel]. The first segment goes also when
    it is itself the indicator, as in [templates/deployment.yaml]. *)
Theorem normalizePath_strips_root (root rel : string) :
  root <> EmptyString ->
  includes root "/" = false ->
  includes root "\" = false ->
  includes rel "\" = false ->
  existsb (fun p => existsb (String.eqb p) chartIndicators)
          (root :: split "/" rel) = true ->
  (forall k, findIndex isChartYamlName (split "/" rel) <> Some (S k)) ->
  normalizePath (root +:+ "/" +:+ rel) = rel.
Proof.
  intros Hroot Hslash Hback Hrel Hind Hidx. unfold normalizePath. cbn zeta.
  assert (Hspan : span (Ascii.eqb "/") (root +:+ "/" +:+ rel)
                  = (EmptyString, root +:+ "/" +:+ rel)).
  { destruct root as [|c root]; [congruence|].
    cbn [String.append span]. rewrite includes_char_head in Hslash.
    apply orb_false_iff in Hslash as [Hc _]. now rewrite Hc. }
  rewrite Hspan. cbn [snd].
  rewrite mapChars_without.
  2:{ change ("/" +:+ rel) with (String "/" rel).
      rewrite includes_char_append, includes_char_head, Hback, Hrel.
      reflexivity. }
  change ("/" +:+ rel) with (String "/" rel).
  rewrite split_append_sep, (split_without_sep "/" root) by exact Hslash.
  cbn [app].
  assert (Hjoin : join "/" (split "/" rel) = rel) by apply join_split.
  pose proof (split_nonempty "/" rel) as Hne.
  revert Hind Hidx Hjoin Hne. generalize (split "/" rel) as parts.
  intros parts Hind Hidx Hjoin Hne.
  assert (Hlen : (1 <? length (root :: parts)) = true).
  { destruct parts; [congruence | reflexivity]. }
  rewrite Hlen, Hind. cbn [andb findIndex].
  destruct (isChartYamlName root); [exact Hjoin|].
  destruct (findIndex isChartYamlName parts) as [[|k]|] eqn:E;
    cbn [option_map]; [exact Hjoin | | exact Hjoin].
  now destruct (Hidx k).
Qed.

Lemma normalizePath_strips_root_witness :
  normalizePath "mychart/templates/deployment.yaml"
  = "templates/deployment.yaml".
Proof.
  apply (normalizePath_strips_root "mychart" "templates/deployment.yaml");
    try reflexivity; discriminate.
Defined.

(** ** Reference identifiers on one line (claim C1) *)

Lemma forallChars_excludes (p : ascii -> bool) (c : ascii) (s : string) :
  forallChars p s = true -> p c = false ->
  includes s (String c EmptyString) = false.
Proof.
  intros Hs Hc. induction s as [|x s IH]; [reflexivity|].
  cbn [forallChars] in Hs. apply andb_true_iff in Hs as [Hx Hs].
  rewrite includes_char_head, (IH Hs), orb_false_r.
  destruct (Ascii.eqb c x) eqn:E; [|reflexivity].
  apply Ascii.eqb_eq in E. congruence.
Qed.

Lemma space_not_letter (c : ascii) : isSpace c = true -> isLetter c = false.
Proof. destruct c as [[] [] [] [] [] [] [] []]; intros Hc; try reflexivity; discriminate. Qed.

(** What [filesRegex] matches: [.Files.], the method, white space, and
    the argument between quotes if there is one. *)
Lemma filesRegex_shape (s : string) (m : MatchAt) :
  filesRegex s = Some m ->
  exists ws,
    forallChars isLetter (group1 m) = true
    /\ forallChars isSpace ws = true
    /\ match group2 m with
       | Some arg =>
           arg <> EmptyString
           /\ matched m
              = ".Files." +:+ group1 m +:+ ws
                  +:+ String dquote (arg +:+ String dquote EmptyString)
       | None => matched m = ".Files." +:+ group1 m +:+ ws
       end.
Proof.
  unfold filesRegex.
  destruct (stripPrefix ".Files." s) as [s1|] eqn:Hs; [|discriminate].
  apply stripPrefix_Some in Hs. subst s.
  pose proof (span_forall isLetter s1) as Hmethod.
  destruct (span isLetter s1) as [method s2] eqn:H2. cbn [fst] in Hmethod.
  apply span_append in H2. subst s1.
  destruct (isEmpty method); [discriminate|].
  unfold skipSpaces.
  pose proof (span_forall isSpace s2) as Hws.
  destruct (span isSpace s2) as [ws s3] eqn:H3. cbn [fst snd] in *.
  apply span_append in H3. subst s2.
  assert (Hplain :
    consumed (".Files." +:+ method +:+ ws +:+ s3) s3
    = ".Files." +:+ method +:+ ws).
  { rewrite <- (append_assoc method ws s3), <- (append_assoc ".Files.").
    apply consumed_append. }
  destruct s3 as [|q s4].
  { intros [= <-]. exists ws. cbn [group1 group2 matched]. auto. }
  destruct (Ascii.eqb q dquote) eqn:Hq.
  2:{ intros [= <-]. exists ws. cbn [group1 group2 matched]. auto. }
  apply Ascii.eqb_eq in Hq. subst q.
  pose proof (span_outside notDQuote s4) as Hstop.
  destruct (span notDQuote s4) as [arg s5] eqn:H5. cbn [snd] in Hstop.
  apply span_append in H5. subst s4.
  destruct arg as [|a arg].
  { intros [= <-]. exists ws. cbn [group1 group2 matched]. auto. }
  destruct s5 as [|c s6].
  { intros [= <-]. exists ws. cbn [group1 group2 matched]. auto. }
  cbn [startsOutside] in Hstop. apply negb_true_iff in Hstop.
  unfold notDQuote in Hstop. apply negb_false_iff, Ascii.eqb_eq in Hstop.
  subst c. intros [= <-]. exists ws. cbn [group1 group2 matched].
  repeat split; [exact Hmethod | exact Hws | discriminate |].
  match goal with
  | |- consumed ?whole s6 = ?part =>
      assert (Hwhole : whole = part +:+ s6);
        [|rewrite Hwhole; apply consumed_append]
  end.
  rewrite !append_assoc. cbn [String.append]. rewrite !append_assoc.
  reflexivity.
Qed.

Lemma matchAll_matches (re : Pattern) (line : string) (m : MatchAt) :
  m ∈ matchAll re line -> exists suffix, re suffix = Some m.
Proof.
  unfold matchAll. intros Hm.
  apply list_elem_of_fmap in Hm as ([i m'] & -> & Hin).
  destruct (execAll_matches _ _ _ _ _ _ Hin) as (_ & suffix & _ & Hs & _).
  now exists suffix.
Qed.

(** The method and the argument can be read off the expression and the
    target of a [files] reference. *)
Lemma filesReference_subKey (filePath : string) (lineNum : nat) (s : string)
    (m : MatchAt) :
  filesRegex s = Some m ->
  let method := group1 m in
  let arg := default EmptyString (group2 m) in
  subKey (mkReference filePath lineNum RT_files (method +:+ ":" +:+ arg)
                      TT_file (if isEmpty arg then method else arg) (matched m))
  = method +:+ ":" +:+ arg.
Proof.
  intros Hm. cbn zeta.
  destruct (filesRegex_shape s m Hm) as (ws & Hmethod & Hws & Hshape).
  unfold subKey, filesMethod.
  cbn [mkReference ref_type ref_expression ref_target tgt_path].
  assert (Hquote : isLetter dquote = false) by reflexivity.
  assert (Hquote' : isSpace dquote = false) by reflexivity.
  destruct (group2 m) as [arg|]; cbn [default].
  - destruct Hshape as [Harg ->].
    change (dropString 7 (".Files." +:+ group1 m +:+ ws
                            +:+ String dquote (arg +:+ String dquote EmptyString)))
      with (group1 m +:+ ws
              +:+ String dquote (arg +:+ String dquote EmptyString)).
    rewrite (span_stop isLetter (group1 m) _ Hmethod).
    + cbn [fst id]. rewrite !includes_char_append.
      rewrite (includes_char_head dquote dquote), Ascii.eqb_refl.
      cbn [orb]. rewrite !orb_true_r.
      destruct arg; [congruence | reflexivity].
    + destruct ws as [|c ws]; [reflexivity|].
      cbn [forallChars] in Hws. apply andb_true_iff in Hws as [Hc _].
      cbn [String.append startsOutside]. now rewrite (space_not_letter c Hc).
  - rewrite Hshape.
    change (dropString 7 (".Files." +:+ group1 m +:+ ws))
      with (group1 m +:+ ws).
    rewrite (span_stop isLetter (group1 m) _ Hmethod).
    + cbn [fst]. rewrite !includes_char_append.
      rewrite (forallChars_excludes isLetter dquote _ Hmethod Hquote).
      rewrite (forallChars_excludes isSpace dquote _ Hws Hquote').
      reflexivity.
    + destruct ws as [|c ws]; [reflexivity|].
      cbn [forallChars] in Hws. apply andb_true_iff in Hws as [Hc _].
      cbn [startsOutside]. now rewrite (space_not_letter c Hc).
Qed.

(** The [id] of every reference of a line is made of the file, the line,
    the type and the key of the reference. *)
Lemma extractLineReferences_ids filePath lineIndex line :
  Forall (fun r =>
            ref_id r
            = referenceId filePath (lineIndex + 1) (ref_type r) (subKey r))
         (extractLineReferences filePath lineIndex line).
Proof.
  unfold extractLineReferences, extractValuesReferences,
    extractIncludeReferences, extractChartReferences,
    extractReleaseReferences, extractFilesReferences,
    extractCapabilitiesReferences.
  repeat apply Forall_app_2;
    apply Forall_map, Forall_forall; intros m Hm; try reflexivity.
  destruct (matchAll_matches _ _ _ Hm) as [suffix Hsuffix].
  rewrite mkReference_id. cbn [mkReference ref_type].
  now rewrite (filesReference_subKey filePath (lineIndex + 1) suffix m Hsuffix).
Qed.

(** C1, as the code has it. On every line, however it is written as
    text and occurrences, each occurrence of a values expression gives its
    own reference, and two occurrences of one expression give two
    references with the same [id]. The [id] of a reference is built from
    the file, the line, the type and the key of the reference (the target
    path; for a [files] reference the method and the argument), and two
    references of one line have the same [id] exactly when they agree in
    type and key: the [id] tells apart the references of a line that
    differ in one of the two, and no others. *)
Theorem reference_ids_on_one_line (filePath line : string) (lineIndex : nat) :
  (forall (l : TemplateLine) (i j : nat) (chain : list Segment),
     validLine l = true -> renderLine l = line ->
     chainsOf l !! i = Some chain -> chainsOf l !! j = Some chain ->
     exists r1 r2,
       extractValuesReferences line filePath (lineIndex + 1) !! i = Some r1
       /\ extractValuesReferences line filePath (lineIndex + 1) !! j = Some r2
       /\ tgt_path (ref_target r1) = chainPath chain
       /\ tgt_path (ref_target r2) = chainPath chain
       /\ ref_id r1 = ref_id r2)
  /\ (forall r,
        r ∈ extractLineReferences filePath lineIndex line ->
        ref_id r = referenceId filePath (lineIndex + 1) (ref_type r) (subKey r))
  /\ (forall r1 r2,
        r1 ∈ extractLineReferences filePath lineIndex line ->
        r2 ∈ extractLineReferences filePath lineIndex line ->
        (ref_id r1 = ref_id r2
         <-> ref_type r1 = ref_type r2 /\ subKey r1 = subKey r2)).
Proof.
  pose proof (extractLineReferences_ids filePath lineIndex line) as Hids.
  rewrite Forall_forall in Hids.
  split; [|split].
  - intros l i j chain Hl <- Hi Hj.
    rewrite (extractValuesReferences_line l _ _ Hl), !list_lookup_fmap.
    rewrite Hi, Hj. cbn [fmap option_fmap option_map].
    do 2 eexists. repeat split.
  - exact Hids.
  - intros r1 r2 Hr1 Hr2. rewrite (Hids r1 Hr1), (Hids r2 Hr2).
    apply referenceId_inj.
Qed.
